(** * hloc/localize_inloc.py: multi-view depth-to-pose localization

    A shallow embedding of [src/hloc/localize_inloc.py] and the properties
    its specification states about it.

    Conventions of the embedding.
    - numpy/torch floating-point scalars are [f64]: IEEE 754 binary64
      values, with the arithmetic of the standard library's [SpecFloat]
      (53 bits of precision, round to nearest even, signed zeros,
      infinities, one NaN).
    - Python exceptions are the [Raise] results of an error monad.
    - The collaborators the program calls but does not define (the image
      reader, the feature and match stores, the scan loader, the file
      system, the matcher, the pose solver, [names_to_pair], torch's
      [grid_sample], numpy's [fromstring]) are the fields of one record
      [Env].
    - Every call of the pose solver is recorded in a log, so that theorems
      can say whether the solver was invoked. *)

From Stdlib Require Import ZArith Ascii SpecFloat.
From stdpp Require Import gmap strings list sorting.

Set Default Proof Using "Type".

(** ** Exceptions and the error monad *)

Inductive exn : Type :=
  | AssertionError
  | AttributeError
  | FileNotFoundError
  | IndexError
  | KeyError
  | ValueError
  | RuntimeError.

Inductive result (A : Type) : Type :=
  | Ok (a : A)
  | Raise (e : exn).
Arguments Ok {A} a.
Arguments Raise {A} e.

Global Instance result_ret : MRet result := λ A a, Ok a.

Global Instance result_bind : MBind result := λ A B k m,
  match m with
  | Ok a => k a
  | Raise e => Raise e
  end.

Global Instance result_fmap : FMap result := λ A B f m,
  match m with
  | Ok a => Ok (f a)
  | Raise e => Raise e
  end.

Definition is_Ok {A : Type} (m : result A) : Prop := ∃ a, m = Ok a.
Definition is_Raise {A : Type} (m : result A) : Prop := ∃ e, m = Raise e.

(** A dictionary or file lookup that raises [e] when the key is missing. *)
Definition lookup_or {A : Type} (e : exn) (o : option A) : result A :=
  match o with
  | Some a => Ok a
  | None => Raise e
  end.

(** ** Floating-point scalars

    A binary64 value is a [spec_float]: a signed zero, a signed infinity,
    the NaN, or a finite number [(-1)^s * m * 2^e].  The values a program
    computes are the canonical ones ([is_binary64]). *)

Definition f64 : Type := spec_float.

Definition NaN : f64 := S754_nan.

Definition isnan (a : f64) : bool :=
  match a with
  | S754_nan => true
  | _ => false
  end.

Definition fadd : f64 → f64 → f64 := SFadd 53 1024.
Definition fsub : f64 → f64 → f64 := SFsub 53 1024.
Definition fmul : f64 → f64 → f64 := SFmul 53 1024.
Definition fdiv : f64 → f64 → f64 := SFdiv 53 1024.

(** [a > b] and [a < b]: false as soon as one side is [NaN]. *)
Definition fgt (a b : f64) : bool := SFltb b a.
Definition flt (a b : f64) : bool := fgt b a.


(** The conversion of an integer, rounded to the nearest binary64 value. *)
Definition f64_of_Z (z : Z) : f64 := binary_normalize 53 1024 z 0 false.
Definition f64_of_nat (n : nat) : f64 := f64_of_Z (Z.of_nat n).

(** [a] is a value of the binary64 format. *)
Definition is_binary64 (a : f64) : Prop := valid_binary 53 1024 a = true.

(** [a] is a number: neither [NaN] nor an infinity. *)
Definition is_finite (a : f64) : bool :=
  match a with
  | S754_zero _ | S754_finite _ _ _ => true
  | _ => false
  end.

Declare Scope f64_scope.
Delimit Scope f64_scope with f64.
Bind Scope f64_scope with f64.
Infix "+" := fadd : f64_scope.
Infix "-" := fsub : f64_scope.
Infix "*" := fmul : f64_scope.
Infix "/" := fdiv : f64_scope.

Global Instance f64_eq_dec : EqDecision f64.
Proof. solve_decision. Defined.

(** ** Points, keypoints and depth scans *)

(** A 2D keypoint [(x, y)]: a row of an [N×2] array. *)
Definition kp2 : Type := f64 * f64.

(** A 3D point: a row of an [N×3] array, or the 3 channels of a scan pixel. *)
Definition vec3 : Type := f64 * f64 * f64.

Inductive channel : Type := CX | CY | CZ.

Definition chan (c : channel) (p : vec3) : f64 :=
  match c with
  | CX => p.1.1
  | CY => p.1.2
  | CZ => p.2
  end.

Definition vec3_map2 (f : f64 → f64 → f64) (p q : vec3) : vec3 :=
  (f p.1.1 q.1.1, f p.1.2 q.1.2, f p.2 q.2).

Definition vec3_any (f : f64 → bool) (p : vec3) : bool :=
  f p.1.1 || f p.1.2 || f p.2.

Definition vec3_zero : vec3 := (f64_of_Z 0, f64_of_Z 0, f64_of_Z 0).
Definition vec3_nan : vec3 := (NaN, NaN, NaN).

(** The ["XYZcut"] field of a scan file: an [H×W×3] array, [scan_px row col]
    being the 3 channels of one pixel. *)
Record scan : Type := Scan {
  scan_h : nat;
  scan_w : nat;
  scan_px : nat → nat → vec3;
}.

(** ** The collaborators *)

(** The interpolation modes of [torch.nn.functional.grid_sample] that the
    program uses. *)
Inductive sample_mode : Type := Bilinear | Nearest.

(** The camera configuration handed to the solver. *)
Record camera : Type := Camera {
  cam_model : string;
  cam_width : nat;
  cam_height : nat;
  cam_params : list f64;
}.

(** What the solver's dictionary holds when a pose was found. *)
Record pose : Type := Pose {
  qvec : list f64;
  tvec : list f64;
  inliers : list bool;
}.

(** The dictionary [pycolmap.absolute_pose_estimation] returns: with
    ['qvec'], ['tvec'] and ['inliers'] when it found a pose ([Some]), with
    ['success': False] alone when it did not ([None]). *)
Definition pnp_ret : Type := option pose.

(** One invocation of the solver: its four arguments. *)
Record solver_call : Type := SolverCall {
  sc_points2D : list kp2;
  sc_points3D : list vec3;
  sc_camera : camera;
  sc_max_error : f64;
}.

(** A 2D-2D correspondence list as the on-the-fly matcher returns it: rows
    [(x_q, y_q, x_r, y_r)], split as [matches[:, :2]] and [matches[:, 2:]]. *)
Definition match_rows : Type := list (kp2 * kp2).

Record Env : Type := {
  (** [cv2.imread(path).shape[:2]]: height and width; [None] when the image
      cannot be read ([cv2.imread] then returns [None]). *)
  env_imread : string → option (nat * nat);
  (** [loadmat(path)["XYZcut"]] *)
  env_loadmat : string → result scan;
  (** [open(path).readlines()]; [None] when the file does not exist. *)
  env_readlines : string → option (list string);
  (** [names_to_pair] of [hloc/utils/parsers.py]: the key of a pair in the
      match store. *)
  env_names_to_pair : string → string → string;
  (** [parse_retrieval] of [hloc/utils/parsers.py]: the retrieval file as a
      dictionary from query to its ordered reference list, in key order. *)
  env_parse_retrieval : string → list (string * list string);
  (** [pycolmap.absolute_pose_estimation] *)
  env_solver : solver_call → result pnp_ret;
  (** [time.time() - t0] around the matcher call on an image pair. *)
  env_elapsed : string → string → f64;
  (** [Path.exists] *)
  env_exists : string → bool;
  (** [h5py.File(path, 'r')] read as a feature store
      ([file[name]['keypoints']]) and as a match store
      ([file[pair]['matches0']]). *)
  env_h5_keypoints : string → string → option (list kp2);
  env_h5_matches0 : string → string → option (list Z);
  (** Whether [np.array] refuses rows of unequal length ([ValueError], numpy
      1.24 and later) or builds a one-dimensional array of row objects. *)
  env_ragged_raises : bool;
  (** [torch.nn.functional.grid_sample(scan, grid, align_corners=True,
      mode=...)], one output location: the 3 channels sampled at one
      normalised grid location.  The sampler computes each output location
      from its own grid location. *)
  env_grid_sample : sample_mode → scan → kp2 → vec3;
  (** [np.fromstring(line, sep=' ')]: the numbers read from a line of
      text, or the exception raised. *)
  env_fromstring : string → result (list f64);
}.

(** ** [interpolate_scan] *)

(** [grid_sample(scan, kp, align_corners=True, mode='bilinear')] and
    [grid_sample(scan, kp, align_corners=True, mode='nearest')], at one
    location. *)
Definition grid_sample_bilinear (env : Env) (s : scan) (loc : kp2) : vec3 :=
  env_grid_sample env Bilinear s loc.

Definition grid_sample_nearest (env : Env) (s : scan) (loc : kp2) : vec3 :=
  env_grid_sample env Nearest s loc.

(** [kp / np.array([[w-1, h-1]]) * 2 - 1], one coordinate. *)
Definition normalize_coord (coord : f64) (dim : nat) : f64 :=
  (coord / f64_of_Z (Z.of_nat dim - 1) * f64_of_Z 2 - f64_of_Z 1)%f64.

Definition normalize_kp (s : scan) (p : kp2) : kp2 :=
  (normalize_coord p.1 (scan_w s), normalize_coord p.2 (scan_h s)).

(** [np.all(kp > -1) and np.all(kp < 1)] *)
Definition kp_in_bounds (kpn : list kp2) : bool :=
  forallb (λ p, fgt p.1 (f64_of_Z (-1)) && fgt p.2 (f64_of_Z (-1))) kpn &&
  forallb (λ p, flt p.1 (f64_of_Z 1) && flt p.2 (f64_of_Z 1)) kpn.

(** [torch.where(torch.isnan(interp_lin), interp_nn, interp_lin)], one
    element. *)
Definition where_nan (lin nn : f64) : f64 :=
  if isnan lin then nn else lin.

Definition select_sample (lin nn : vec3) : vec3 :=
  vec3_map2 where_nan lin nn.

(** [~torch.any(torch.isnan(interp), 0)], one point. *)
Definition point_valid (p : vec3) : bool := negb (vec3_any isnan p).

Definition interpolate_scan (env : Env) (s : scan) (kp : list kp2)
  : result (list vec3 * list bool) :=
  let kpn := normalize_kp s <$> kp in
  if kp_in_bounds kpn then
    let interp_lin := grid_sample_bilinear env s <$> kpn in
    let interp_nn := grid_sample_nearest env s <$> kpn in
    let interp := zip_with select_sample interp_lin interp_nn in
    let valid := point_valid <$> interp in
    Ok (interp, valid)
  else Raise AssertionError.

(** ** Text and paths *)

(** [s.split(sep)] for a one-character separator. *)
Fixpoint split_on (sep : ascii) (s : string) : list string :=
  match s with
  | EmptyString => [EmptyString]
  | String c s' =>
      if bool_decide (c = sep) then EmptyString :: split_on sep s'
      else match split_on sep s' with
           | w :: ws => String c w :: ws
           | [] => [String c EmptyString]
           end
  end.

(** [l[-k]] for [k ≥ 1]. *)
Definition index_from_end {A : Type} (l : list A) (k : nat) : result A :=
  if bool_decide (k ≤ length l)
  then lookup_or IndexError (l !! (length l - k))
  else Raise IndexError.

(** [l[i]] for [i ≥ 0]. *)
Definition index {A : Type} (l : list A) (i : nat) : result A :=
  lookup_or IndexError (l !! i).

(** [Path(a, b)] and [os.path.join(a, b)], as keys of the file system. *)
Definition path_join (a b : string) : string := a +:+ "/" +:+ b.

(** ** [get_scan_pose] *)

(** The array [np.array([row, row, row, row])] built from four parsed
    lines. *)
Record mat4 : Type := Mat4 {
  row0 : list f64;
  row1 : list f64;
  row2 : list f64;
  row3 : list f64;
}.

(** Whether the four rows have one length, that is, whether the array is
    two-dimensional. *)
Definition rectangular (m : mat4) : bool :=
  bool_decide (length (row1 m) = length (row0 m)) &&
  bool_decide (length (row2 m) = length (row0 m)) &&
  bool_decide (length (row3 m) = length (row0 m)).

Definition np_array (env : Env) (m : mat4) : result mat4 :=
  if env_ragged_raises env && negb (rectangular m)
  then Raise ValueError else Ok m.

Definition transform_path (dataset_dir floor_name building_name scan_id : string)
  : string :=
  path_join (path_join (path_join dataset_dir "database/alignments") floor_name)
    ("transformations/" +:+ building_name +:+ "_trans_" +:+ scan_id +:+ ".txt").

(** The elements of the list handed to [np.array] are evaluated in order:
    line 7 is indexed and parsed before line 8 is indexed. *)
Definition get_scan_pose (env : Env) (dataset_dir rpath : string) : result mat4 :=
  let split_image_rpath := split_on "/" rpath in
  floor_name ← index_from_end split_image_rpath 3;
  scan_id ← index_from_end split_image_rpath 2;
  image_name ← index_from_end split_image_rpath 1;
  let building_name := String.substring 0 3 image_name in
  let path := transform_path dataset_dir floor_name building_name scan_id in
  raw_lines ← lookup_or FileNotFoundError (env_readlines env path);
  l7 ← index raw_lines 7;
  r0 ← env_fromstring env l7;
  l8 ← index raw_lines 8;
  r1 ← env_fromstring env l8;
  l9 ← index raw_lines 9;
  r2 ← env_fromstring env l9;
  l10 ← index raw_lines 10;
  r3 ← env_fromstring env l10;
  np_array env (Mat4 r0 r1 r2 r3).

(** ** The rigid transform [(Tr[:3, :3] @ mkp3d.T + Tr[:3, -1:]).T]

    [Tr[:3, :3]] needs a two-dimensional array; the product with the [3×N]
    points needs its 3 columns.  Each coordinate is the sum of three
    products plus the translation.  The sum is taken in the order of the
    index, each operation rounded; a BLAS that fuses or reorders the
    operations can differ from it in the last bit of a coordinate, but not
    where the properties below look: products with 0 and 1, [NaN] and the
    infinities. *)

(** The first three entries of a row: a row of [Tr[:3, :3]]. *)
Definition rot_row (r : list f64) : option vec3 :=
  match r with
  | a :: b :: c :: _ => Some (a, b, c)
  | _ => None
  end.

Definition dot3 (r p : vec3) : f64 :=
  (r.1.1 * p.1.1 + r.1.2 * p.1.2 + r.2 * p.2)%f64.

Definition transform_points (Tr : mat4) (pts : list vec3) : result (list vec3) :=
  if negb (rectangular Tr) then Raise IndexError
  else
    match rot_row (row0 Tr), rot_row (row1 Tr), rot_row (row2 Tr),
          last (row0 Tr), last (row1 Tr), last (row2 Tr) with
    | Some r0, Some r1, Some r2, Some t0, Some t1, Some t2 =>
        Ok ((λ p, (dot3 r0 p + t0, dot3 r1 p + t1, dot3 r2 p + t2)%f64)
              <$> pts)
    | _, _, _, _, _, _ => Raise ValueError
    end.

(** ** Array indexing *)

(** [a[mask]] for a boolean mask of the length of [a]. *)
Fixpoint mask_select {A : Type} (a : list A) (mask : list bool) : list A :=
  match a, mask with
  | x :: a', b :: mask' =>
      if b then x :: mask_select a' mask' else mask_select a' mask'
  | _, _ => []
  end.

(** [a[mask]], which raises when the mask has another length. *)
Definition bool_index {A : Type} (a : list A) (mask : list bool)
  : result (list A) :=
  if bool_decide (length mask = length a)
  then Ok (mask_select a mask) else Raise IndexError.

(** [a[idx]] for an array [idx] of non-negative indices. *)
Fixpoint fancy_index {A : Type} (a : list A) (idx : list Z)
  : result (list A) :=
  match idx with
  | [] => Ok []
  | j :: idx' =>
      x ← lookup_or IndexError (a !! Z.to_nat j);
      xs ← fancy_index a idx';
      Ok (x :: xs)
  end.

(** [np.count_nonzero] *)
Definition count_nonzero (mask : list bool) : nat :=
  length (filter (λ b, b = true) mask).

(** [np.concatenate(arrays, 0)], which refuses an empty list of arrays. *)
Definition np_concatenate {A : Type} (arrays : list (list A))
  : result (list A) :=
  match arrays with
  | [] => Raise ValueError
  | _ => Ok (concat arrays)
  end.

(** ** Aggregation over the reference views *)

(** What one reference view yields before the validity filter: the matched
    query and reference keypoints, the lifted global points and the
    validity mask. *)
Record view : Type := View {
  v_mkpq : list kp2;
  v_mkpr : list kp2;
  v_mkp3d : list vec3;
  v_valid : list bool;
}.

(** The accumulators of the loop over the reference views. *)
Record agg : Type := Agg {
  all_mkpq : list (list kp2);
  all_mkpr : list (list kp2);
  all_mkp3d : list (list vec3);
  all_indices : list (list nat);
  num_matches : nat;
}.

Definition agg_empty : agg := Agg [] [] [] [] 0.

(** The four [append] calls and [num_matches += len(mkpq)] for the view at
    position [i]. *)
Definition agg_push (st : agg) (i : nat) (c : view) : agg :=
  {| all_mkpq := all_mkpq st ++ [mask_select (v_mkpq c) (v_valid c)];
     all_mkpr := all_mkpr st ++ [mask_select (v_mkpr c) (v_valid c)];
     all_mkp3d := all_mkp3d st ++ [mask_select (v_mkp3d c) (v_valid c)];
     all_indices := all_indices st ++ [replicate (count_nonzero (v_valid c)) i];
     num_matches := num_matches st + length (v_mkpq c) |}.

(** The depth lookup shared by both modes: load the scan of [r], sample it
    at the reference keypoints, move the points to the global frame. *)
Definition lift_view (env : Env) (dataset_dir r : string)
    (mkpq mkpr : list kp2) : result view :=
  scan_r ← env_loadmat env (path_join dataset_dir (r +:+ ".mat"));
  '(mkp3d, valid) ← interpolate_scan env scan_r mkpr;
  Tr ← get_scan_pose env dataset_dir r;
  mkp3d ← transform_points Tr mkp3d;
  Ok (View mkpq mkpr mkp3d valid).

(** [skip and (n < skip)] for the optional integer [skip]. *)
Definition below_skip (skip : option Z) (n : nat) : bool :=
  match skip with
  | Some s => bool_decide (s ≠ 0%Z) && bool_decide (Z.of_nat n < s)%Z
  | None => false
  end.

(** ** A log of solver invocations

    A computation that may raise and that records, in order, the solver
    calls it made, each with the query it was made for. *)

Record logged (A : Type) : Type := Logged {
  outcome : result A;
  calls : list (string * solver_call);
}.
Arguments Logged {A} outcome calls.
Arguments outcome {A} l.
Arguments calls {A} l.

Global Instance logged_ret : MRet logged := λ A a, Logged (Ok a) [].

Global Instance logged_bind : MBind logged := λ A B k m,
  match outcome m with
  | Ok a => Logged (outcome (k a)) (calls m ++ calls (k a))
  | Raise e => Logged (Raise e) (calls m)
  end.

(** A step that makes no solver call. *)
Definition quiet {A : Type} (m : result A) : logged A := Logged m [].

(** [pycolmap.absolute_pose_estimation(...)] on behalf of the query [q]. *)
Definition solve (env : Env) (q : string) (c : solver_call) : logged pnp_ret :=
  Logged (env_solver env c) [(q, c)].

(** ** The camera model *)

Definition focal_length : f64 :=
  (f64_of_Z 4032 * f64_of_Z 28 / f64_of_Z 36)%f64.

Definition half : f64 := (f64_of_Z 1 / f64_of_Z 2)%f64.

Definition camera_cfg (height width : nat) : camera :=
  {| cam_model := "SIMPLE_PINHOLE";
     cam_width := width;
     cam_height := height;
     cam_params := [focal_length; (half * f64_of_nat width)%f64;
                    (half * f64_of_nat height)%f64] |}.

(** ** Precomputed matches: [pose_from_cluster] *)

(** The value [pose_from_cluster] returns; [cr_cfg] is [ret['cfg']]. *)
Record cluster_result : Type := ClusterResult {
  cr_ret : pnp_ret;
  cr_cfg : camera;
  cr_mkpq : list kp2;
  cr_mkpr : list kp2;
  cr_mkp3d : list vec3;
  cr_indices : list nat;
  cr_num_matches : nat;
}.

Section pose_from_cluster.
Context (env : Env) (dataset_dir q : string).
Context (feature_file : string → option (list kp2)).
Context (match_file : string → option (list Z)).
Context (skip : option Z).

(** The body of the loop for the reference [r], up to the four [append]
    calls: [None] when the view is skipped. *)
Definition cluster_view (kpq : list kp2) (r : string) : result (option view) :=
  kpr ← lookup_or KeyError (feature_file r);
  let pair := env_names_to_pair env q r in
  m ← lookup_or KeyError (match_file pair);
  let v := (λ x, bool_decide (-1 < x)%Z) <$> m in
  if below_skip skip (count_nonzero v) then Ok None
  else
    mkpq ← bool_index kpq v;
    mkpr ← fancy_index kpr (mask_select m v);
    c ← lift_view env dataset_dir r mkpq mkpr;
    Ok (Some c).

(** [for i, r in enumerate(retrieved)], from position [i] on. *)
Fixpoint cluster_loop (kpq : list kp2) (i : nat) (retrieved : list string)
    (st : agg) : result agg :=
  match retrieved with
  | [] => Ok st
  | r :: rest =>
      o ← cluster_view kpq r;
      match o with
      | None => cluster_loop kpq (S i) rest st
      | Some c => cluster_loop kpq (S i) rest (agg_push st i c)
      end
  end.

Definition pose_from_cluster (retrieved : list string) : logged cluster_result :=
  '(height, width) ← quiet (lookup_or AttributeError
                              (env_imread env (path_join dataset_dir q)));
  kpq ← quiet (lookup_or KeyError (feature_file q));
  st ← quiet (cluster_loop kpq 0 retrieved agg_empty);
  mkpq ← quiet (np_concatenate (all_mkpq st));
  mkpr ← quiet (np_concatenate (all_mkpr st));
  mkp3d ← quiet (np_concatenate (all_mkp3d st));
  indices ← quiet (np_concatenate (all_indices st));
  let cfg := camera_cfg height width in
  ret ← solve env q (SolverCall mkpq mkp3d cfg (f64_of_Z 48));
  mret (ClusterResult ret cfg mkpq mkpr mkp3d indices (num_matches st)).

End pose_from_cluster.

(** ** The pose table and the log records *)

(** The dictionary [poses]: query to [(qvec, tvec)]. *)
Abbreviation pose_table := (gmap string (list f64 * list f64)).

(** A per-query record of the log; [lr_cfg] is [PnP_ret['cfg']]. *)
Record loc_record : Type := LocRecord {
  lr_db : list string;
  lr_pose : pose;
  lr_cfg : camera;
  lr_keypoints_query : list kp2;
  lr_keypoints_db : list kp2;
  lr_points3d : list vec3;
  lr_indices_db : list nat;
  lr_num_matches : nat;
}.

(** One line of the pose file: [name qvec tvec], the numbers not yet
    rendered as text. *)
Record pose_line : Type := PoseLine {
  pl_name : string;
  pl_qvec : list f64;
  pl_tvec : list f64;
}.

(** [q.split("/")[-1]] *)
Definition basename (q : string) : string :=
  match last (split_on "/" q) with
  | Some name => name
  | None => q
  end.

(** [ret['qvec']], [ret['tvec']], [ret['inliers']]: a [KeyError] on the
    dictionary of a failed estimation. *)
Definition pnp_pose (ret : pnp_ret) : result pose := lookup_or KeyError ret.

(** ** On-the-fly matching: [pose_from_cluster_onfly_matching] *)

(** The variables of the loop over the reference views. *)
Record onfly_state : Type := OnflyState {
  of_agg : agg;
  of_times : list f64;
  of_failed : list (string * string);
}.

Definition onfly_init : onfly_state := OnflyState agg_empty [] [].

Section onfly.
Context (env : Env) (matcher : string → string → result match_rows).
Context (dataset_dir q : string) (skip_matches : Z).

(** The body of the [try] block for the reference [r]: the latencies it
    appended to [times], and how it ended ([Ok None]: the [continue] of the
    threshold test; [Raise]: an exception reached the [except] clause). *)
Definition onfly_try (r : string) : list f64 * result (option view) :=
  let imq_path := path_join dataset_dir q in
  let imr_path := path_join dataset_dir r in
  match matcher imq_path imr_path with
  | Raise e => ([], Raise e)
  | Ok matches =>
      ([env_elapsed env imq_path imr_path],
       if bool_decide (Z.of_nat (length matches) < skip_matches)%Z
       then Ok None
       else
         let mkpq := fst <$> matches in
         let mkpr := snd <$> matches in
         c ← lift_view env dataset_dir r mkpq mkpr;
         Ok (Some c))
  end.

Definition onfly_fail (st : onfly_state) (ts : list f64) (r : string)
  : onfly_state :=
  {| of_agg := of_agg st;
     of_times := of_times st ++ ts;
     of_failed := of_failed st ++ [(q, r)] |}.

Definition onfly_keep (st : onfly_state) (ts : list f64) (i : nat) (c : view)
  : onfly_state :=
  {| of_agg := agg_push (of_agg st) i c;
     of_times := of_times st ++ ts;
     of_failed := of_failed st |}.

(** One iteration of the loop, for the reference [r] at position [i]. *)
Definition onfly_step (st : onfly_state) (i : nat) (r : string) : onfly_state :=
  match onfly_try r with
  | (ts, Ok (Some c)) => onfly_keep st ts i c
  | (ts, Ok None) => onfly_fail st ts r
  | (ts, Raise _) => onfly_fail st ts r
  end.

(** [for i, r in enumerate(retrieved)], from position [i] on. *)
Fixpoint onfly_loop (i : nat) (retrieved : list string) (st : onfly_state)
  : onfly_state :=
  match retrieved with
  | [] => st
  | r :: rest => onfly_loop (S i) rest (onfly_step st i r)
  end.

(** The value [pose_from_cluster_onfly_matching] returns, with the
    dictionary [poses] it updates in place. *)
Record onfly_result : Type := OnflyResult {
  or_res_dict : option loc_record;
  or_failed : list (string * string);
  or_times : list f64;
  or_poses : pose_table;
}.

Definition pose_from_cluster_onfly_matching (retrieved : list string)
    (poses : pose_table) (rthres : f64) : logged onfly_result :=
  '(height, width) ← quiet (lookup_or AttributeError
                              (env_imread env (path_join dataset_dir q)));
  let cfg := camera_cfg height width in
  let st := onfly_loop 0 retrieved onfly_init in
  if bool_decide (num_matches (of_agg st) = 0)
  then mret (OnflyResult None (of_failed st) (of_times st) poses)
  else
    mkpq ← quiet (np_concatenate (all_mkpq (of_agg st)));
    mkpr ← quiet (np_concatenate (all_mkpr (of_agg st)));
    mkp3d ← quiet (np_concatenate (all_mkp3d (of_agg st)));
    indices ← quiet (np_concatenate (all_indices (of_agg st)));
    ret ← solve env q (SolverCall mkpq mkp3d cfg rthres);
    p ← quiet (pnp_pose ret);
    let poses := <[q := (qvec p, tvec p)]> poses in
    let res_dict :=
      LocRecord retrieved p cfg mkpq mkpr mkp3d indices
                (num_matches (of_agg st)) in
    mret (OnflyResult (Some res_dict) (of_failed st) (of_times st) poses).

End onfly.

(** ** The orchestrators

    Of a run, the model keeps the loop over the queries, the pose file (as
    its lines) and the log records.  Reading the retrieval file, creating
    the output directory, the progress bar, the messages and the summary
    statistics of [logging.info], the rendering of numbers as text, the
    opening of the two output files and the pickling of the log are left
    out: the model describes the runs in which none of these steps
    raises.  Both files are opened only after the loop over the queries,
    so a run whose loop raises writes nothing. *)

(** The lines [localize_with_matcher] writes: one per query that is a key
    of [poses], in query order. *)
Fixpoint write_localized (queries : list string) (poses : pose_table)
  : list pose_line :=
  match queries with
  | [] => []
  | q :: rest =>
      match poses !! q with
      | None => write_localized rest poses
      | Some (qv, tv) => PoseLine (basename q) qv tv :: write_localized rest poses
      end
  end.

(** The lines [main] writes: it reads [poses[q]] for every query. *)
Fixpoint write_all (queries : list string) (poses : pose_table)
  : result (list pose_line) :=
  match queries with
  | [] => Ok []
  | q :: rest =>
      '(qv, tv) ← lookup_or KeyError (poses !! q);
      lines ← write_all rest poses;
      Ok (PoseLine (basename q) qv tv :: lines)
  end.

(** *** [localize_with_matcher] *)

(** The variables of the loop over the queries: [poses], [logs['loc']],
    [logs['failed']] and [match_times]. *)
Record run_state : Type := RunState {
  rs_poses : pose_table;
  rs_loc : gmap string (option loc_record);
  rs_failed : list (string * string);
  rs_match_times : list f64;
}.

Definition run_init : run_state := RunState ∅ ∅ [] [].

(** What a run leaves behind: the pose file and the pickled log. *)
Record run_output : Type := RunOutput {
  out_lines : list pose_line;
  out_loc : gmap string (option loc_record);
  out_failed : list (string * string);
}.

Section localize_with_matcher.
Context (env : Env) (matcher : string → string → result match_rows).
Context (dataset_dir : string) (rthres : f64) (skip_matches : Z).

(** One iteration of [for q in tqdm(queries)]. *)
Definition localize_step (st : run_state) (q : string)
    (retrieved : list string) : logged run_state :=
  r ← pose_from_cluster_onfly_matching env matcher dataset_dir q skip_matches
         retrieved (rs_poses st) rthres;
  mret {| rs_poses := or_poses r;
          rs_loc := <[q := or_res_dict r]> (rs_loc st);
          rs_failed := rs_failed st ++ or_failed r;
          rs_match_times := rs_match_times st ++ or_times r |}.

Fixpoint localize_loop (retrieval_dict : list (string * list string))
    (st : run_state) : logged run_state :=
  match retrieval_dict with
  | [] => mret st
  | (q, retrieved) :: rest =>
      st' ← localize_step st q retrieved;
      localize_loop rest st'
  end.

Definition localize_with_matcher (retrieval_pairs : string)
  : logged run_output :=
  let retrieval_dict := env_parse_retrieval env retrieval_pairs in
  let queries := fst <$> retrieval_dict in
  st ← localize_loop retrieval_dict run_init;
  mret {| out_lines := write_localized queries (rs_poses st);
          out_loc := rs_loc st;
          out_failed := rs_failed st |}.

End localize_with_matcher.

(** *** [main] *)

Section main.
Context (env : Env) (dataset_dir : string).
Context (feature_file : string → option (list kp2)).
Context (match_file : string → option (list Z)).
Context (skip_matches : option Z).

(** One iteration of [for q in tqdm(queries)]: [poses] and [logs['loc']]. *)
Definition main_step (st : pose_table * gmap string loc_record) (q : string)
    (db : list string) : logged (pose_table * gmap string loc_record) :=
  r ← pose_from_cluster env dataset_dir q feature_file match_file
         skip_matches db;
  p ← quiet (pnp_pose (cr_ret r));
  let rec :=
    LocRecord db p (cr_cfg r) (cr_mkpq r) (cr_mkpr r) (cr_mkp3d r)
              (cr_indices r) (cr_num_matches r) in
  mret (<[q := (qvec p, tvec p)]> st.1, <[q := rec]> st.2).

Fixpoint main_loop (retrieval_dict : list (string * list string))
    (st : pose_table * gmap string loc_record)
  : logged (pose_table * gmap string loc_record) :=
  match retrieval_dict with
  | [] => mret st
  | (q, db) :: rest =>
      st' ← main_step st q db;
      main_loop rest st'
  end.

End main.

Definition py_assert (b : bool) : result unit :=
  if b then Ok () else Raise AssertionError.

Definition main (env : Env) (dataset_dir retrieval features matches : string)
    (skip_matches : option Z)
  : logged (list pose_line * gmap string loc_record) :=
  _ ← quiet (py_assert (env_exists env retrieval));
  _ ← quiet (py_assert (env_exists env features));
  _ ← quiet (py_assert (env_exists env matches));
  let retrieval_dict := env_parse_retrieval env retrieval in
  let queries := fst <$> retrieval_dict in
  let feature_file := env_h5_keypoints env features in
  let match_file := env_h5_matches0 env matches in
  st ← main_loop env dataset_dir feature_file match_file skip_matches
         retrieval_dict (∅, ∅);
  lines ← quiet (write_all queries st.1);
  mret (lines, st.2).

(** * Decision procedures and tactics *)

Global Instance exn_eq_dec : EqDecision exn.
Proof. solve_decision. Defined.

Global Instance result_eq_dec {A : Type} `{EqDecision A} : EqDecision (result A).
Proof. solve_decision. Defined.

(** Closes a goal between closed terms by running its decision procedure. *)
Ltac by_compute := apply (bool_decide_unpack _); vm_compute; exact I.

(** * Notions used by the statements *)




(** * Models of the libraries, for the examples

    The theorems hold for every sampler and every number reader.  Their
    instances and the examples run the program on concrete data, for
    which they need a sampler and a reader: the two that follow, taken
    from the sources of torch and numpy. *)

(** ** A sampler: the reference formulas of [grid_sample]

    One output location of [grid_sample(input, grid, align_corners=True)]
    with the default [padding_mode='zeros'], for an input of one image with
    3 channels, evaluated in binary64.  [x] indexes the width and [y] the
    height. *)

Definition fone : f64 := f64_of_Z 1.

Definition unnormalize (coord : f64) (size : nat) : f64 :=
  ((coord + fone) / f64_of_Z 2 * f64_of_Z (Z.of_nat size - 1))%f64.

(** [floor]: the largest integer below a number. *)
Definition f64_floor (a : f64) : option Z :=
  match a with
  | S754_zero _ => Some 0%Z
  | S754_finite s m e =>
      let v := cond_Zopp s (Zpos m) in
      Some (if bool_decide (0 ≤ e)%Z then v * 2 ^ e else Z.shiftr v (- e))%Z
  | _ => None
  end.

(** [nearbyint]: round to nearest, ties to even. *)
Definition f64_nearbyint (a : f64) : option Z :=
  match a with
  | S754_zero _ => Some 0%Z
  | S754_finite s m e =>
      let v := cond_Zopp s (Zpos m) in
      if bool_decide (0 ≤ e)%Z then Some (v * 2 ^ e)%Z
      else
        let q := Z.shiftr v (- e) in
        let r := (v - q * 2 ^ (- e))%Z in
        Some match (2 * r ?= 2 ^ (- e))%Z with
             | Lt => q
             | Gt => (q + 1)%Z
             | Eq => if Z.even q then q else (q + 1)%Z
             end
  | _ => None
  end.

Definition within_bounds_2d (iy ix : Z) (s : scan) : bool :=
  bool_decide (0 ≤ iy)%Z && bool_decide (iy < Z.of_nat (scan_h s))%Z &&
  bool_decide (0 ≤ ix)%Z && bool_decide (ix < Z.of_nat (scan_w s))%Z.

Definition scan_at (s : scan) (iy ix : Z) : vec3 :=
  scan_px s (Z.to_nat iy) (Z.to_nat ix).

(** [out += input[iy][ix] * weight] when the corner is inside the image. *)
Definition add_corner (s : scan) (iy ix : Z) (weight : f64) (out : vec3) : vec3 :=
  if within_bounds_2d iy ix s
  then vec3_map2 fadd out
         (vec3_map2 fmul (scan_at s iy ix) (weight, weight, weight))
  else out.

Definition sample_bilinear (s : scan) (loc : kp2) : vec3 :=
  let ix := unnormalize loc.1 (scan_w s) in
  let iy := unnormalize loc.2 (scan_h s) in
  match f64_floor ix, f64_floor iy with
  | Some ix_nw, Some iy_nw =>
      let ix_se := (ix_nw + 1)%Z in
      let iy_se := (iy_nw + 1)%Z in
      let nw := ((f64_of_Z ix_se - ix) * (f64_of_Z iy_se - iy))%f64 in
      let ne := ((ix - f64_of_Z ix_nw) * (f64_of_Z iy_se - iy))%f64 in
      let sw := ((f64_of_Z ix_se - ix) * (iy - f64_of_Z iy_nw))%f64 in
      let se := ((ix - f64_of_Z ix_nw) * (iy - f64_of_Z iy_nw))%f64 in
      add_corner s iy_se ix_se se
        (add_corner s iy_se ix_nw sw
           (add_corner s iy_nw ix_se ne
              (add_corner s iy_nw ix_nw nw vec3_zero)))
  | _, _ => vec3_nan
  end.

Definition sample_nearest (s : scan) (loc : kp2) : vec3 :=
  match f64_nearbyint (unnormalize loc.1 (scan_w s)),
        f64_nearbyint (unnormalize loc.2 (scan_h s)) with
  | Some ix, Some iy =>
      if within_bounds_2d iy ix s then scan_at s iy ix else vec3_zero
  | _, _ => vec3_nan
  end.

Definition grid_sample (mode : sample_mode) (s : scan) (loc : kp2) : vec3 :=
  match mode with
  | Bilinear => sample_bilinear s loc
  | Nearest => sample_nearest s loc
  end.

(** ** A number reader: [np.fromstring(line, sep=' ')]

    numpy reads one number after the other.  A number is read by
    [NumPyOS_ascii_strtod], which skips leading whitespace, reads [nan],
    [inf] and [infinity] itself and hands anything else to Python's
    decimal-to-float conversion; when no number can be read it returns
    [-1.0] and the position it reached after the whitespace.  The element
    loop takes the number as read whenever the position has moved, so a
    text of whitespace alone reads as the single number [-1.0].  After a
    number, whitespace is the separator; the loop ends at the end of the
    text, and it stops on unmatched data otherwise: the numpy versions in
    which the deprecation of 1.18 has expired then raise [ValueError], the
    older ones warn and return what they have read. *)

Definition is_space (c : ascii) : bool :=
  let n := nat_of_ascii c in
  bool_decide (n = 32) || (bool_decide (9 ≤ n) && bool_decide (n ≤ 13)).

Definition digit_of (c : ascii) : option Z :=
  let n := nat_of_ascii c in
  if bool_decide (48 ≤ n) && bool_decide (n ≤ 57)
  then Some (Z.of_nat (n - 48)) else None.

Definition is_alnum (c : ascii) : bool :=
  let n := nat_of_ascii c in
  (bool_decide (48 ≤ n) && bool_decide (n ≤ 57))
  || (bool_decide (65 ≤ n) && bool_decide (n ≤ 90))
  || (bool_decide (97 ≤ n) && bool_decide (n ≤ 122)).

Fixpoint skip_spaces (s : string) : string :=
  match s with
  | String c s' => if is_space c then skip_spaces s' else s
  | EmptyString => s
  end.

(** Reads a run of digits: the number read so far, how many digits were
    read, and the rest of the text. *)
Fixpoint read_digits (s : string) (acc : Z) (n : nat) : Z * nat * string :=
  match s with
  | String c s' =>
      match digit_of c with
      | Some d => read_digits s' (10 * acc + d)%Z (S n)
      | None => (acc, n, s)
      end
  | EmptyString => (acc, n, s)
  end.

(** An optional sign: [true] for a minus. *)
Definition read_sign (s : string) : bool * string :=
  match s with
  | String "-" s' => (true, s')
  | String "+" s' => (false, s')
  | _ => (false, s)
  end.

(** An optional exponent [e[+-]digits]: its value and the rest; when no
    digit follows, nothing is consumed. *)
Definition read_exponent (s : string) : Z * string :=
  match s with
  | String c s' =>
      if bool_decide (c = "e"%char) || bool_decide (c = "E"%char) then
        let '(neg, s1) := read_sign s' in
        let '(e, n, s2) := read_digits s1 0%Z 0 in
        if bool_decide (n = 0) then (0%Z, s)
        else ((if neg then - e else e)%Z, s2)
      else (0%Z, s)
  | EmptyString => (0%Z, s)
  end.

Definition lower (c : ascii) : ascii :=
  let n := nat_of_ascii c in
  if bool_decide (65 ≤ n) && bool_decide (n ≤ 90)
  then ascii_of_nat (n + 32) else c.

(** Whether [s] starts with the lower-case word [w], whatever the case of
    [s]: the rest of [s] if it does. *)
Fixpoint read_word (w s : string) : option string :=
  match w with
  | EmptyString => Some s
  | String a w' =>
      match s with
      | String c s' =>
          if bool_decide (lower c = a) then read_word w' s' else None
      | EmptyString => None
      end
  end.

Fixpoint skip_alnum (s : string) : string :=
  match s with
  | String c s' =>
      if is_alnum c || bool_decide (c = "_"%char) then skip_alnum s' else s
  | EmptyString => s
  end.

(** [nan], with an optional [(characters)]. *)
Definition read_nan (s : string) : option string :=
  match read_word "nan" s with
  | Some (String "(" s') =>
      match skip_alnum s' with
      | String ")" s'' => Some s''
      | rest => Some rest
      end
  | o => o
  end.

(** [inf] or [infinity]. *)
Definition read_inf (s : string) : option string :=
  match read_word "inf" s with
  | Some s' =>
      match read_word "inity" s' with
      | Some s'' => Some s''
      | None => Some s'
      end
  | None => None
  end.

(** The binary64 value nearest to [(-1)^neg * m * 10^e]. *)
Definition decimal_to_f64 (neg : bool) (m : Z) (e : Z) : f64 :=
  match m with
  | Zpos p =>
      if bool_decide (0 ≤ e)%Z
      then binary_normalize 53 1024 (cond_Zopp neg (Zpos p * 10 ^ e)) 0 false
      else fdiv (S754_finite neg p 0)
                (S754_finite false (Z.to_pos (10 ^ (- e))) 0)
  | _ => S754_zero neg
  end.

(** A decimal number at the head of the text, without sign: digits with
    an optional fraction and an optional exponent. *)
Definition read_decimal (s : string) : option (Z * Z * string) :=
  let '(ip, n_int, s2) := read_digits s 0%Z 0 in
  let '(m, n_frac, s3) :=
    match s2 with
    | String "." s' => read_digits s' ip 0
    | _ => (ip, 0, s2)
    end in
  if bool_decide (n_int + n_frac = 0) then None
  else
    let '(e, s4) := read_exponent s3 in
    Some (m, (e - Z.of_nat n_frac)%Z, s4).

Definition minus_one : f64 := f64_of_Z (-1).

(** [NumPyOS_ascii_strtod]: the value read and the unread rest; [-1.0]
    and the text after the leading whitespace when nothing is read. *)
Definition strtod (s : string) : f64 * string :=
  let s0 := skip_spaces s in
  let '(neg, p) := read_sign s0 in
  match read_nan p with
  | Some rest => (NaN, rest)
  | None =>
      match read_inf p with
      | Some rest => (S754_infinity neg, rest)
      | None =>
          match read_decimal p with
          | Some (m, e, rest) => (decimal_to_f64 neg m e, rest)
          | None => (minus_one, s0)
          end
      end
  end.

(** The element loop: the numbers read, and whether it stopped on
    unmatched data. *)
Fixpoint fromstring_loop (fuel : nat) (s : string) (acc : list f64)
  : list f64 * bool :=
  match fuel with
  | O => (acc, false)
  | S fuel' =>
      let '(v, rest) := strtod s in
      if bool_decide (String.length rest = String.length s)
      then (acc, negb (bool_decide (s = EmptyString)))
      else
        let rest' := skip_spaces rest in
        if bool_decide (rest' = EmptyString) then (acc ++ [v], false)
        else if bool_decide (String.length rest' = String.length rest)
        then (acc ++ [v], true)
        else fromstring_loop fuel' rest' (acc ++ [v])
  end.

(** [np.fromstring(s, sep=' ')]; [unmatched_raises] tells the numpy
    versions that raise on unmatched data from those that warn. *)
Definition np_fromstring (unmatched_raises : bool) (s : string)
  : result (list f64) :=
  let '(l, unmatched) := fromstring_loop (S (String.length s)) s [] in
  if unmatched && unmatched_raises then Raise ValueError else Ok l.

(** * Example data *)

(** The binary64 value nearest to [n / d]. *)
Definition fq (n : Z) (d : positive) : f64 :=
  (f64_of_Z n / f64_of_Z (Zpos d))%f64.

(** A scan of 3 rows and 3 columns whose pixel (0, 1) has no depth; the
    other pixels hold (row, column, 7). *)
Definition ex_scan : scan :=
  Scan 3 3 (λ r c,
    if bool_decide (r = 0 ∧ c = 1) then vec3_nan
    else (f64_of_nat r, f64_of_nat c, f64_of_Z 7)).

(** Four keypoints strictly inside [ex_scan]: the first two have a
    bilinear sample spoilt by the hole and a good nearest pixel, the third
    sits under the hole and has neither; the fourth has both. *)
Definition ex_kp : list kp2 :=
  [(fq 1 2, fq 1 2); (fq 3 2, fq 3 4); (fq 1 1, fq 1 4); (fq 1 2, fq 3 2)].

(** ** Transforms *)

Definition f0 : f64 := f64_of_Z 0.
Definition f1 : f64 := f64_of_Z 1.

(** The first three rows of [Tr] hold the identity rotation and the zero
    translation, and [Tr] is a [4×4] array. *)
Definition identity_transform (Tr : mat4) : Prop :=
  row0 Tr = [f1; f0; f0; f0] ∧
  row1 Tr = [f0; f1; f0; f0] ∧
  row2 Tr = [f0; f0; f1; f0] ∧
  length (row3 Tr) = 4.

(** A point of three numbers: no channel is infinite or [NaN]. *)
Definition finite_point (p : vec3) : bool :=
  is_finite p.1.1 && is_finite p.1.2 && is_finite p.2.

(** A point whose channels are values of the binary64 format. *)
Definition binary64_point (p : vec3) : Prop :=
  is_binary64 p.1.1 ∧ is_binary64 p.1.2 ∧ is_binary64 p.2.

(** [a'] is [a], or the two are zeros, of either sign. *)
Definition same_number (a' a : f64) : Prop :=
  a' = a ∨ ∃ s' s, a' = S754_zero s' ∧ a = S754_zero s.

(** [Tr] with another fourth row. *)
Definition with_row3 (Tr : mat4) (bottom : list f64) : mat4 :=
  Mat4 (row0 Tr) (row1 Tr) (row2 Tr) bottom.

(** The transform file [get_scan_pose] opens for the reference [rpath]. *)
Definition transform_file (dataset_dir rpath : string) : option string :=
  match reverse (split_on "/" rpath) with
  | image_name :: scan_id :: floor_name :: _ =>
      Some (transform_path dataset_dir floor_name
              (String.substring 0 3 image_name) scan_id)
  | _ => None
  end.

(** What [get_scan_pose] does with the lines of the file it opened. *)
Definition read_window (env : Env) (raw_lines : list string) : result mat4 :=
  l7 ← index raw_lines 7;
  r0 ← env_fromstring env l7;
  l8 ← index raw_lines 8;
  r1 ← env_fromstring env l8;
  l9 ← index raw_lines 9;
  r2 ← env_fromstring env l9;
  l10 ← index raw_lines 10;
  r3 ← env_fromstring env l10;
  np_array env (Mat4 r0 r1 r2 r3).

(** The words of a line: its maximal runs of characters other than
    whitespace. *)
Fixpoint words_from (s : string) (cur : string) : list string :=
  match s with
  | EmptyString => if bool_decide (cur = EmptyString) then [] else [cur]
  | String c s' =>
      if is_space c
      then (if bool_decide (cur = EmptyString) then [] else [cur])
             ++ words_from s' EmptyString
      else words_from s' (cur +:+ String c EmptyString)
  end.

Definition words (s : string) : list string := words_from s EmptyString.

(** A word that reads as one number, to its end. *)
Definition is_number (w : string) : bool :=
  match strtod w with
  | (_, EmptyString) => negb (bool_decide (w = EmptyString))
  | _ => false
  end.

(** A line that is a numeric row: one or more numbers separated by
    whitespace, and nothing else. *)
Definition numeric_row (line : string) : bool :=
  match words line with
  | [] => false
  | ws => forallb is_number ws
  end.

(** ** An example data set *)

Definition ex_dir : string := "data".
Definition ex_q : string := "query/iphone7/IMG_0731.JPG".
Definition ex_r : string := "cutouts/DUC1/024/DUC_cutout_024_0_0.jpg".
Definition ex_r2 : string := "cutouts/DUC1/025/DUC_cutout_025_30_0.jpg".

(** A line of a text file, as [readlines] returns it: with its newline. *)
Definition line (s : string) : string := s +:+ String "010"%char EmptyString.

(** A transform file: seven lines of header, the four rows, a trailer. *)
Definition transform_text (r0 r1 r2 r3 : string) : list string :=
  line <$>
    ["0.45"; ""; "GICP"; ""; "P_before"; ""; "P_after:"; r0; r1; r2; r3; ""].

Definition identity_text : list string :=
  transform_text "1 0 0 0" "0 1 0 0" "0 0 1 0" "0 0 0 1".

Definition shift_text : list string :=
  transform_text "1 0 0 10" "0 1 0 20" "0 0 1 30" "0 0 0 1".

(** The rows end in a word that is not a number. *)
Definition noisy_text : list string :=
  transform_text "1 0 0 x" "0 1 0 x" "0 0 1 x" "0 0 0 x".

(** The fourth row is one number short. *)
Definition short_row_text : list string :=
  transform_text "1 0 0 10" "0 1 0 20" "0 0 1 30" "0 0 0".

(** The four lines of the window are blank. *)
Definition blank_text : list string := transform_text "" "" "" "".

Definition ex_transform_path : string :=
  "data/database/alignments/DUC1/transformations/DUC_trans_024.txt".

(** A file system that holds one transform file, of the given lines. *)
Definition one_file (path : string) (lines : list string)
  : string → option (list string) :=
  λ p, if bool_decide (p = path) then Some lines else None.

(** [names_to_pair] as hloc defines it: the two names joined by ["_"],
    their ["/"] replaced by ["-"]. *)
Fixpoint replace_slash (s : string) : string :=
  match s with
  | EmptyString => EmptyString
  | String c s' =>
      String (if bool_decide (c = "/"%char) then "-"%char else c)
             (replace_slash s')
  end.

Definition names_to_pair (name0 name1 : string) : string :=
  replace_slash name0 +:+ "_" +:+ replace_slash name1.

(** A solver that finds a fixed pose from one correspondence or more, all
    of them inliers, and no pose from none. *)
Definition ex_solver (c : solver_call) : result pnp_ret :=
  match sc_points2D c with
  | [] => Ok None
  | pts => Ok (Some (Pose [f1; f0; f0; f0] [f0; f0; f0] (const true <$> pts)))
  end.

(** An environment given by its file system, its scans and its solver;
    every query image is 3024 × 4032, and numpy is one of the versions
    that refuse ragged rows and unmatched data. *)
Definition ex_env (files : string → option (list string))
    (scans : string → result scan) (solver : solver_call → result pnp_ret)
  : Env :=
  {| env_imread := λ _, Some (3024, 4032);
     env_loadmat := scans;
     env_readlines := files;
     env_names_to_pair := names_to_pair;
     env_parse_retrieval := λ _, [(ex_q, [ex_r])];
     env_solver := solver;
     env_elapsed := λ _ _, fq 1 4;
     env_exists := λ _, true;
     env_h5_keypoints := λ _ _, None;
     env_h5_matches0 := λ _ _, None;
     env_ragged_raises := true;
     env_grid_sample := grid_sample;
     env_fromstring := np_fromstring true |}.

Definition ex_scans : string → result scan :=
  λ p, if bool_decide (p = "data/cutouts/DUC1/024/DUC_cutout_024_0_0.jpg.mat")
       then Ok ex_scan else Raise FileNotFoundError.

Definition ex_env_of (lines : list string) : Env :=
  ex_env (one_file ex_transform_path lines) ex_scans ex_solver.

Definition ex_identity : mat4 :=
  Mat4 [f1; f0; f0; f0] [f0; f1; f0; f0] [f0; f0; f1; f0] [f0; f0; f0; f1].

(** [env] with the other behaviour of [np.array] on ragged rows. *)
Definition with_ragged (b : bool) (env : Env) : Env :=
  {| env_imread := env_imread env;
     env_loadmat := env_loadmat env;
     env_readlines := env_readlines env;
     env_names_to_pair := env_names_to_pair env;
     env_parse_retrieval := env_parse_retrieval env;
     env_solver := env_solver env;
     env_elapsed := env_elapsed env;
     env_exists := env_exists env;
     env_h5_keypoints := env_h5_keypoints env;
     env_h5_matches0 := env_h5_matches0 env;
     env_ragged_raises := b;
     env_grid_sample := env_grid_sample env;
     env_fromstring := env_fromstring env |}.

Global Instance mat4_eq_dec : EqDecision mat4.
Proof. solve_decision. Defined.

Global Instance view_eq_dec : EqDecision view.
Proof. solve_decision. Defined.

(** [env] with another file system. *)
Definition with_readlines (files : string → option (list string)) (env : Env)
  : Env :=
  {| env_imread := env_imread env;
     env_loadmat := env_loadmat env;
     env_readlines := files;
     env_names_to_pair := env_names_to_pair env;
     env_parse_retrieval := env_parse_retrieval env;
     env_solver := env_solver env;
     env_elapsed := env_elapsed env;
     env_exists := env_exists env;
     env_h5_keypoints := env_h5_keypoints env;
     env_h5_matches0 := env_h5_matches0 env;
     env_ragged_raises := env_ragged_raises env;
     env_grid_sample := env_grid_sample env;
     env_fromstring := env_fromstring env |}.

(** [env] with another version of numpy: whether [np.fromstring] raises on
    unmatched data, and whether [np.array] refuses ragged rows. *)
Definition with_numpy (unmatched_raises ragged_raises : bool) (env : Env)
  : Env :=
  {| env_imread := env_imread env;
     env_loadmat := env_loadmat env;
     env_readlines := env_readlines env;
     env_names_to_pair := env_names_to_pair env;
     env_parse_retrieval := env_parse_retrieval env;
     env_solver := env_solver env;
     env_elapsed := env_elapsed env;
     env_exists := env_exists env;
     env_h5_keypoints := env_h5_keypoints env;
     env_h5_matches0 := env_h5_matches0 env;
     env_ragged_raises := ragged_raises;
     env_grid_sample := env_grid_sample env;
     env_fromstring := np_fromstring unmatched_raises |}.

(** Two lines that [np.fromstring] reads alike: as rows of as many
    numbers, or with the same exception. *)
Definition read_alike (env : Env) (x y : string) : Prop :=
  match env_fromstring env x, env_fromstring env y with
  | Ok a, Ok b => length a = length b
  | Raise e, Raise e' => e = e'
  | _, _ => False
  end.

(** Two versions of one file that differ at most in line 10, the fourth
    row of the window, which is read alike in both. *)
Definition fourth_row_variant (env : Env) (o o' : option (list string)) : Prop :=
  match o, o' with
  | None, None => True
  | Some l, Some l' =>
      ∃ x, l' = <[10 := x]> l ∧ ∀ y, l !! 10 = Some y → read_alike env x y
  | _, _ => False
  end.

(** A matcher that finds the same two correspondences in every pair. *)
Definition ex_matcher (imq imr : string) : result match_rows :=
  Ok [((f64_of_Z 100, f64_of_Z 200), (fq 1 2, fq 3 2));
      ((f64_of_Z 300, f64_of_Z 400), (fq 3 2, fq 3 2))].

Global Instance camera_eq_dec : EqDecision camera.
Proof. solve_decision. Defined.

Global Instance pose_eq_dec : EqDecision pose.
Proof. solve_decision. Defined.

Global Instance solver_call_eq_dec : EqDecision solver_call.
Proof. solve_decision. Defined.

Global Instance loc_record_eq_dec : EqDecision loc_record.
Proof. solve_decision. Defined.

Global Instance pose_line_eq_dec : EqDecision pose_line.
Proof. solve_decision. Defined.

Global Instance agg_eq_dec : EqDecision agg.
Proof. solve_decision. Defined.

Global Instance onfly_state_eq_dec : EqDecision onfly_state.
Proof. solve_decision. Defined.

Global Instance cluster_result_eq_dec : EqDecision cluster_result.
Proof. solve_decision. Defined.

Global Instance onfly_result_eq_dec : EqDecision onfly_result.
Proof. solve_decision. Defined.

Global Instance run_state_eq_dec : EqDecision run_state.
Proof. solve_decision. Defined.

Global Instance run_output_eq_dec : EqDecision run_output.
Proof. solve_decision. Defined.

Global Instance logged_eq_dec {A : Type} `{EqDecision A} : EqDecision (logged A).
Proof. solve_decision. Defined.

(** ** Correspondences *)

(** A 2D-3D correspondence with the position, in the retrieval list, of the
    reference view it comes from. *)
Record corr : Type := Corr {
  c_query : kp2;
  c_ref : kp2;
  c_point : vec3;
  c_index : nat;
}.

Global Instance corr_eq_dec : EqDecision corr.
Proof. solve_decision. Defined.

(** The rows of the four aggregated arrays, read side by side. *)
Definition zip_corrs (mkpq mkpr : list kp2) (mkp3d : list vec3)
    (indices : list nat) : list corr :=
  zip_with (λ t i, Corr t.1.1 t.1.2 t.2 i) (zip (zip mkpq mkpr) mkp3d) indices.

(** The correspondences of the view at position [i]: its matches that
    have a valid 3D point, each annotated with [i]. *)
Definition view_corrs (i : nat) (c : view) : list corr :=
  (λ t, Corr t.1.1 t.1.2 t.2 i) <$>
    mask_select (zip (zip (v_mkpq c) (v_mkpr c)) (v_mkp3d c)) (v_valid c).

(** The correspondences of the views [vs], the first of which stands at
    position [i], in the order of the list; [None] is a view that
    contributes nothing. *)
Fixpoint aggregate_from (i : nat) (vs : list (option view)) : list corr :=
  match vs with
  | [] => []
  | None :: vs' => aggregate_from (S i) vs'
  | Some c :: vs' => view_corrs i c ++ aggregate_from (S i) vs'
  end.

(** The aggregate the specification describes for a whole retrieval list. *)
Definition aggregate_spec (vs : list (option view)) : list corr :=
  aggregate_from 0 vs.

(** The accumulators after the views [vs], the first at position [i]. *)
Fixpoint agg_views (i : nat) (vs : list (option view)) (st : agg) : agg :=
  match vs with
  | [] => st
  | None :: vs' => agg_views (S i) vs' st
  | Some c :: vs' => agg_views (S i) vs' (agg_push st i c)
  end.

(** The four arrays of a view are parallel. *)
Definition view_wf (c : view) : Prop :=
  length (v_mkpq c) = length (v_mkpr c) ∧
  length (v_mkp3d c) = length (v_mkpr c) ∧
  length (v_valid c) = length (v_mkpr c).

(** The four accumulators hold as many rows. *)
Definition agg_wf (st : agg) : Prop :=
  length (concat (all_mkpq st)) = length (concat (all_indices st)) ∧
  length (concat (all_mkpr st)) = length (concat (all_indices st)) ∧
  length (concat (all_mkp3d st)) = length (concat (all_indices st)).

(** The correspondences the accumulators hold. *)
Definition agg_corrs (st : agg) : list corr :=
  zip_corrs (concat (all_mkpq st)) (concat (all_mkpr st))
            (concat (all_mkp3d st)) (concat (all_indices st)).

(** What the on-the-fly loop keeps of the reference [r]: its view, or
    nothing when the [try] block left by [continue] or by an exception. *)
Definition onfly_kept (env : Env) (matcher : string → string → result match_rows)
    (dataset_dir q : string) (skip_matches : Z) (r : string) : option view :=
  match (onfly_try env matcher dataset_dir q skip_matches r).2 with
  | Ok o => o
  | Raise _ => None
  end.

(** The processing of the reference [r] raises an exception in on-the-fly
    mode: while matching, loading the depth scan, interpolating, resolving
    the transform or applying it. *)
Inductive view_raises (env : Env) (matcher : string → string → result match_rows)
    (dataset_dir q : string) (skip_matches : Z) (r : string) : Prop :=
  | raises_matching e :
      matcher (path_join dataset_dir q) (path_join dataset_dir r) = Raise e →
      view_raises env matcher dataset_dir q skip_matches r
  | raises_loading matches e :
      matcher (path_join dataset_dir q) (path_join dataset_dir r) = Ok matches →
      ¬ (Z.of_nat (length matches) < skip_matches)%Z →
      env_loadmat env (path_join dataset_dir (r +:+ ".mat")) = Raise e →
      view_raises env matcher dataset_dir q skip_matches r
  | raises_interpolating matches scan_r e :
      matcher (path_join dataset_dir q) (path_join dataset_dir r) = Ok matches →
      ¬ (Z.of_nat (length matches) < skip_matches)%Z →
      env_loadmat env (path_join dataset_dir (r +:+ ".mat")) = Ok scan_r →
      interpolate_scan env scan_r (snd <$> matches) = Raise e →
      view_raises env matcher dataset_dir q skip_matches r
  | raises_resolving matches e :
      matcher (path_join dataset_dir q) (path_join dataset_dir r) = Ok matches →
      ¬ (Z.of_nat (length matches) < skip_matches)%Z →
      get_scan_pose env dataset_dir r = Raise e →
      view_raises env matcher dataset_dir q skip_matches r
  | raises_transforming matches scan_r mkp3d valid Tr e :
      matcher (path_join dataset_dir q) (path_join dataset_dir r) = Ok matches →
      ¬ (Z.of_nat (length matches) < skip_matches)%Z →
      env_loadmat env (path_join dataset_dir (r +:+ ".mat")) = Ok scan_r →
      interpolate_scan env scan_r (snd <$> matches) = Ok (mkp3d, valid) →
      get_scan_pose env dataset_dir r = Ok Tr →
      transform_points Tr mkp3d = Raise e →
      view_raises env matcher dataset_dir q skip_matches r.

(** A feature store and a match store for [ex_q] and [ex_r]: three query
    keypoints, three reference keypoints; the first query keypoint is
    matched to the second reference keypoint, the third to the first. *)
Definition ex_features (name : string) : option (list kp2) :=
  if bool_decide (name = ex_q)
  then Some [(f64_of_Z 100, f64_of_Z 200); (f64_of_Z 150, f64_of_Z 250);
             (f64_of_Z 300, f64_of_Z 400)]
  else if bool_decide (name = ex_r)
  then Some [(fq 3 2, fq 3 2); (fq 1 2, fq 3 2); (fq 1 1, fq 1 1)]
  else None.

Definition ex_matches (pair : string) : option (list Z) :=
  if bool_decide (pair = names_to_pair ex_q ex_r)
  then Some [1; -1; 0]%Z else None.

(** A data set with a second reference image, [ex_r2], whose scan is
    [ex_scan] too and whose transform is the identity. *)
Definition ex_transform_path2 : string :=
  "data/database/alignments/DUC1/transformations/DUC_trans_025.txt".

Definition ex_files2 (p : string) : option (list string) :=
  if bool_decide (p = ex_transform_path) then Some shift_text
  else if bool_decide (p = ex_transform_path2) then Some identity_text
  else None.

Definition ex_scans2 (p : string) : result scan :=
  if bool_decide (p = "data/cutouts/DUC1/024/DUC_cutout_024_0_0.jpg.mat")
     || bool_decide (p = "data/cutouts/DUC1/025/DUC_cutout_025_30_0.jpg.mat")
  then Ok ex_scan else Raise FileNotFoundError.

Definition ex_env2 : Env := ex_env ex_files2 ex_scans2 ex_solver.

(** Stores for [ex_q], [ex_r] and [ex_r2]: [ex_r2] has two reference
    keypoints, matched to the second and third query keypoints. *)
Definition ex_features2 (name : string) : option (list kp2) :=
  if bool_decide (name = ex_r2)
  then Some [(fq 1 2, fq 3 2); (fq 1 1, fq 1 4)]
  else ex_features name.

Definition ex_matches2 (pair : string) : option (list Z) :=
  if bool_decide (pair = names_to_pair ex_q ex_r2)
  then Some [-1; 0; 1]%Z else ex_matches pair.

(** As [ex_matches2], with a single match for [ex_r2]. *)
Definition ex_matches3 (pair : string) : option (list Z) :=
  if bool_decide (pair = names_to_pair ex_q ex_r2)
  then Some [-1; 0; -1]%Z else ex_matches pair.

(** A matcher that finds one correspondence with [ex_r2] and two with any
    other image. *)
Definition ex_matcher2 (imq imr : string) : result match_rows :=
  if bool_decide (imr = path_join ex_dir ex_r2)
  then Ok [((f64_of_Z 150, f64_of_Z 250), (fq 1 2, fq 3 2))]
  else ex_matcher imq imr.

(** ** Solver failures and run-level examples *)

(** The solver produces no pose for the call [c]: it raises, or it returns
    the dictionary of a failed estimation. *)
Definition solver_fails (env : Env) (c : solver_call) : Prop :=
  env_solver env c = Ok None ∨ ∃ e, env_solver env c = Raise e.

(** The solver call [pose_from_cluster_onfly_matching] makes from the
    accumulators [st] for an image of the given size. *)
Definition onfly_call (st : agg) (height width : nat) (rthres : f64)
  : solver_call :=
  SolverCall (concat (all_mkpq st)) (concat (all_mkp3d st))
             (camera_cfg height width) rthres.

(** The solver call [pose_from_cluster] makes. *)
Definition cluster_call (st : agg) (height width : nat) : solver_call :=
  SolverCall (concat (all_mkpq st)) (concat (all_mkp3d st))
             (camera_cfg height width) (f64_of_Z 48).

(** The state of [localize_with_matcher] after a query that is not
    localized. *)
Definition run_unlocalized (st : run_state) (q : string)
    (failed : list (string * string)) (times : list f64) : run_state :=
  {| rs_poses := rs_poses st;
     rs_loc := <[q := None]> (rs_loc st);
     rs_failed := rs_failed st ++ failed;
     rs_match_times := rs_match_times st ++ times |}.

(** The accumulators hold as many arrays each. *)
Definition agg_balanced (st : agg) : Prop :=
  length (all_mkpr st) = length (all_mkpq st) ∧
  length (all_mkp3d st) = length (all_mkpq st) ∧
  length (all_indices st) = length (all_mkpq st) ∧
  (num_matches st ≠ 0 → all_mkpq st ≠ []).

Definition ex_q2 : string := "query/iphone7/IMG_0732.JPG".

(** [env] with another retrieval file, other stores, another solver. *)
Definition with_run (dict : list (string * list string))
    (features : string → option (list kp2)) (matches : string → option (list Z))
    (solver : solver_call → result pnp_ret) (env : Env) : Env :=
  {| env_imread := env_imread env;
     env_loadmat := env_loadmat env;
     env_readlines := env_readlines env;
     env_names_to_pair := env_names_to_pair env;
     env_parse_retrieval := λ _, dict;
     env_solver := solver;
     env_elapsed := env_elapsed env;
     env_exists := env_exists env;
     env_h5_keypoints := λ _, features;
     env_h5_matches0 := λ _, matches;
     env_ragged_raises := env_ragged_raises env;
     env_grid_sample := env_grid_sample env;
     env_fromstring := env_fromstring env |}.

(** A solver that never finds a pose. *)
Definition no_pose_solver (c : solver_call) : result pnp_ret := Ok None.

(** A solver that raises. *)
Definition raising_solver (c : solver_call) : result pnp_ret :=
  Raise RuntimeError.

(** A matcher whose single correspondence falls under the hole of
    [ex_scan], where neither sample has depth. *)
Definition ex_matcher_hole (imq imr : string) : result match_rows :=
  Ok [((f64_of_Z 100, f64_of_Z 200), (fq 1 1, fq 1 4))].

(** A matcher that finds nothing for [ex_q] and two correspondences for
    any other query. *)
Definition ex_matcher_q (imq imr : string) : result match_rows :=
  if bool_decide (imq = path_join ex_dir ex_q) then Ok []
  else ex_matcher imq imr.

(** Two queries, each with the reference list [[ex_r2; ex_r]]. *)
Definition ex_dict2 : list (string * list string) :=
  [(ex_q, [ex_r2; ex_r]); (ex_q2, [ex_r2; ex_r])].

(** Stores in which [ex_q2] has the keypoints and matches of [ex_q]. *)
Definition ex_features_q2 (name : string) : option (list kp2) :=
  if bool_decide (name = ex_q2) then ex_features2 ex_q else ex_features2 name.

Definition ex_matches_q2 (pair : string) : option (list Z) :=
  if bool_decide (pair = names_to_pair ex_q2 ex_r2)
  then ex_matches2 (names_to_pair ex_q ex_r2)
  else if bool_decide (pair = names_to_pair ex_q2 ex_r)
  then ex_matches2 (names_to_pair ex_q ex_r)
  else ex_matches2 pair.

Definition ex_env_run (solver : solver_call → result pnp_ret) : Env :=
  with_run ex_dict2 ex_features_q2 ex_matches_q2 solver ex_env2.

(** The accumulators [pose_from_cluster_onfly_matching] holds after its
    loop over the reference views. *)
Definition onfly_agg (env : Env) (matcher : string → string → result match_rows)
    (dataset_dir q : string) (skip_matches : Z) (retrieved : list string)
  : agg :=
  of_agg (onfly_loop env matcher dataset_dir q skip_matches 0 retrieved
            onfly_init).

(** ** Notions used by the further properties *)

(** The number of ["/"] in a path. *)
Fixpoint count_slash (s : string) : nat :=
  match s with
  | EmptyString => 0
  | String c s' => (if bool_decide (c = "/"%char) then 1 else 0) + count_slash s'
  end.

(** A path component: a name without ["/"]. *)
Definition no_slash (s : string) : Prop := count_slash s = 0.

(** The relative path of the image [image_name] of the scan [scan_id] on
    the floor [floor_name], below the directory [top]. *)
Definition cutout_path (top floor_name scan_id image_name : string) : string :=
  path_join (path_join (path_join top floor_name) scan_id) image_name.

(** A transform file whose translation is not a number. *)
Definition nan_text : list string :=
  transform_text "1 0 0 nan" "0 1 0 20" "0 0 1 30" "0 0 0 1".

(** Whether the matcher returns for the query [q] and the reference [r]. *)
Definition matcher_returns (matcher : string → string → result match_rows)
    (dataset_dir q r : string) : bool :=
  match matcher (path_join dataset_dir q) (path_join dataset_dir r) with
  | Ok _ => true
  | Raise _ => false
  end.

(** A matcher that fails on [ex_r2] and finds two correspondences in any
    other pair. *)
Definition ex_matcher_raise (imq imr : string) : result match_rows :=
  if bool_decide (imr = path_join ex_dir ex_r2) then Raise RuntimeError
  else ex_matcher imq imr.

(** The data set of [ex_env_of shift_text] with a solver that raises. *)
Definition ex_env_raising : Env :=
  ex_env (one_file ex_transform_path shift_text) ex_scans raising_solver.

(** The pairs [localize_with_matcher] reports as failed for the retrieval
    dictionary [dict]: for each query in turn, its reference views that
    were not kept, in retrieval order. *)
Definition failed_pairs (env : Env) (matcher : string → string → result match_rows)
    (dataset_dir : string) (skip_matches : Z)
    (dict : list (string * list string)) : list (string * string) :=
  concat ((λ qr : string * list string,
             (λ r, (qr.1, r)) <$>
               filter (λ r, onfly_kept env matcher dataset_dir qr.1
                              skip_matches r = None) qr.2) <$> dict).

(** The line of the pose file that goes with the log entry [o] of the
    query [q]: none when the query has no entry or the entry [None]. *)
Definition line_of_record (q : string) (o : option (option loc_record))
  : option pose_line :=
  match o with
  | Some (Some rec) =>
      Some (PoseLine (basename q) (qvec (lr_pose rec)) (tvec (lr_pose rec)))
  | _ => None
  end.

(** The entry of [poses] that goes with the log entry [o]. *)
Definition pose_of_record (o : option (option loc_record))
  : option (list f64 * list f64) :=
  match o with
  | Some (Some rec) => Some (qvec (lr_pose rec), tvec (lr_pose rec))
  | _ => None
  end.

(** A data set of one query, [ex_q], retrieved with [ex_r] alone. *)
Definition ex_env_one : Env :=
  with_run [(ex_q, [ex_r])] ex_features ex_matches ex_solver
    (ex_env_of shift_text).

(** * Properties *)

(** ** The error monad *)

Lemma bind_Ok {A B : Type} (m : result A) (k : A → result B) (b : B) :
  m ≫= k = Ok b ↔ ∃ a, m = Ok a ∧ k a = Ok b.
Proof.
  destruct m as [a|e]; simpl; split.
  - intros H. by exists a.
  - by intros (a' & [= ->] & H).
  - done.
  - by intros (a' & [=] & _).
Qed.

Lemma bind_Raise {A B : Type} (m : result A) (k : A → result B) (e : exn) :
  m = Raise e → m ≫= k = Raise e.
Proof. by intros ->. Qed.

Lemma lookup_or_Ok {A : Type} (e : exn) (o : option A) (a : A) :
  lookup_or e o = Ok a ↔ o = Some a.
Proof. destruct o; simpl; split; congruence. Qed.

Lemma is_Ok_not_Raise {A : Type} (m : result A) : is_Ok m → ¬ is_Raise m.
Proof. by intros [a ->] [e ?]. Qed.

(** ** Binary64 arithmetic *)

Lemma fadd_nan_r (a : f64) : (a + NaN)%f64 = NaN.
Proof. by destruct a. Qed.

Lemma fmul_nan_r (a : f64) : (a * NaN)%f64 = NaN.
Proof. by destruct a. Qed.

Lemma digits2_pos_iter_xO (m k : positive) :
  Zpos (digits2_pos (Pos.iter xO m k)) = (Zpos (digits2_pos m) + Zpos k)%Z.
Proof.
  induction k as [|k IH] using Pos.peano_ind.
  - simpl. lia.
  - rewrite Pos.iter_succ. simpl. lia.
Qed.


(** The product of 1 and a number of the format is that number. *)
Lemma fmul_one_l (s : bool) (m : positive) (e : Z) :
  is_binary64 (S754_finite s m e) →
  (f64_of_Z 1 * S754_finite s m e)%f64 = S754_finite s m e.
Proof.
  unfold is_binary64, valid_binary, bounded, canonical_mantissa.
  intros [Hc He]%andb_true_iff.
  apply Z.eqb_eq in Hc.
  assert (fexp 53 1024 (Z.pos (digits2_pos m) + e) = e) as Hc' by exact Hc.
  clear Hc. rename Hc' into Hc.
  change (f64_of_Z 1) with (S754_finite false 4503599627370496 (-52)).
  unfold fmul, SFmul. cbn [xorb].
  change (4503599627370496 * m)%positive with (Pos.iter xO m 52).
  unfold binary_round_aux, shr_fexp.
  cbn [Zdigits2 shr_record_of_loc].
  rewrite digits2_pos_iter_xO.
  replace (Z.pos (digits2_pos m) + 52 + (-52 + e))%Z
    with (Z.pos (digits2_pos m) + e)%Z by lia.
  rewrite Hc.
  replace (e - (-52 + e))%Z with 52%Z by lia.
  cbn -[fexp Z.sub Z.add Z.leb IntDef.Z.add IntDef.Z.sub IntDef.Z.leb].
  replace (-52 + e + 52)%Z with e by lia.
  rewrite Hc. replace (e - e)%Z with 0%Z by lia.
  cbn -[Z.leb Z.sub IntDef.Z.leb IntDef.Z.sub].
  by rewrite He.
Qed.





(** ** [interpolate_scan] *)

Lemma interpolate_scan_Ok (env : Env) (s : scan) (kp : list kp2) kp3d valid :
  interpolate_scan env s kp = Ok (kp3d, valid) →
  kp_in_bounds (normalize_kp s <$> kp) = true ∧
  kp3d = zip_with select_sample
           (grid_sample_bilinear env s <$> (normalize_kp s <$> kp))
           (grid_sample_nearest env s <$> (normalize_kp s <$> kp)) ∧
  valid = point_valid <$> kp3d.
Proof.
  unfold interpolate_scan.
  destruct (kp_in_bounds _) eqn:Hb; [|done].
  by intros [= <- <-].
Qed.

Lemma interpolate_scan_lengths (env : Env) (s : scan) (kp : list kp2) kp3d valid :
  interpolate_scan env s kp = Ok (kp3d, valid) →
  length kp3d = length kp ∧ length valid = length kp.
Proof.
  intros (_ & -> & ->)%interpolate_scan_Ok.
  rewrite length_fmap, length_zip_with, !length_fmap. lia.
Qed.

Lemma chan_select_sample (c : channel) (lin nn : vec3) :
  chan c (select_sample lin nn) = where_nan (chan c lin) (chan c nn).
Proof. by destruct c. Qed.

(** C2: wherever the bilinear sample of a channel is a number, the sampler
    returns it; elsewhere, and only there, it returns the nearest-neighbour
    sample of that channel. *)
Theorem interpolate_scan_prefers_bilinear (env : Env) (s : scan) (kp : list kp2)
    (kp3d : list vec3) (valid : list bool) :
  interpolate_scan env s kp = Ok (kp3d, valid) →
  ∀ (n : nat) (k : kp2), kp !! n = Some k →
    ∃ p, kp3d !! n = Some p ∧
      ∀ c : channel,
        let lin := chan c (grid_sample_bilinear env s (normalize_kp s k)) in
        let nn := chan c (grid_sample_nearest env s (normalize_kp s k)) in
        (isnan lin = false → chan c p = lin) ∧
        (isnan lin = true → chan c p = nn) ∧
        (chan c p ≠ lin → isnan lin = true).
Proof.
  intros (_ & -> & _)%interpolate_scan_Ok n k Hk.
  exists (select_sample (grid_sample_bilinear env s (normalize_kp s k))
                        (grid_sample_nearest env s (normalize_kp s k))).
  split.
  - rewrite lookup_zip_with, !list_lookup_fmap, Hk. done.
  - intros c lin nn. rewrite chan_select_sample.
    fold lin nn. unfold where_nan.
    destruct (isnan lin) eqn:Hnan; repeat split; congruence.
Qed.

Lemma interpolate_scan_prefers_bilinear_witness :
  ∃ p, [(f64_of_Z 0, f64_of_Z 0, f64_of_Z 7); (f64_of_Z 1, f64_of_Z 2, f64_of_Z 7);
        vec3_nan; (fq 3 2, fq 1 2, f64_of_Z 7)] !! 3 = Some p ∧
    ∀ c : channel,
      let lin := chan c (grid_sample_bilinear (ex_env_of shift_text) ex_scan
                           (normalize_kp ex_scan (fq 1 2, fq 3 2))) in
      let nn := chan c (grid_sample_nearest (ex_env_of shift_text) ex_scan
                          (normalize_kp ex_scan (fq 1 2, fq 3 2))) in
      (isnan lin = false → chan c p = lin) ∧
      (isnan lin = true → chan c p = nn) ∧
      (chan c p ≠ lin → isnan lin = true).
Proof.
  apply (interpolate_scan_prefers_bilinear (ex_env_of shift_text) ex_scan ex_kp _
           [true; true; false; true]).
  - by_compute.
  - reflexivity.
Defined.

Example interpolate_scan_ex :
  interpolate_scan (ex_env_of shift_text) ex_scan ex_kp =
  Ok ([(f64_of_Z 0, f64_of_Z 0, f64_of_Z 7); (f64_of_Z 1, f64_of_Z 2, f64_of_Z 7);
       vec3_nan; (fq 3 2, fq 1 2, f64_of_Z 7)],
      [true; true; false; true]).
Proof. by_compute. Qed.

(** *** The bounds assertion *)




(** In a dimension of one pixel the division is by zero: the normalised
    coordinate is infinite or [NaN]. *)
Lemma normalize_coord_one_pixel (coord : f64) :
  fgt (normalize_coord coord 1) (f64_of_Z (-1)) &&
  flt (normalize_coord coord 1) (f64_of_Z 1) = false.
Proof.
  destruct coord as [s|s| |s m e]; try destruct s; reflexivity.
Qed.



Lemma kp_in_bounds_elem (kpn : list kp2) (p : kp2) :
  kp_in_bounds kpn = true → p ∈ kpn →
  (fgt p.1 (f64_of_Z (-1)) = true ∧ flt p.1 (f64_of_Z 1) = true) ∧
  (fgt p.2 (f64_of_Z (-1)) = true ∧ flt p.2 (f64_of_Z 1) = true).
Proof.
  unfold kp_in_bounds. intros [H1 H2]%andb_true_iff Hp.
  rewrite forallb_forall in H1, H2.
  apply list_elem_of_In in Hp.
  specialize (H1 p Hp). specialize (H2 p Hp). simpl in *.
  apply andb_true_iff in H1 as [Ha Hb], H2 as [Hc Hd]. done.
Qed.

Lemma kp_in_bounds_false (kpn : list kp2) (p : kp2) :
  p ∈ kpn →
  (fgt p.1 (f64_of_Z (-1)) && flt p.1 (f64_of_Z 1) = false ∨
   fgt p.2 (f64_of_Z (-1)) && flt p.2 (f64_of_Z 1) = false) →
  kp_in_bounds kpn = false.
Proof.
  intros Hp Hfail.
  destruct (kp_in_bounds kpn) eqn:Hb; [|done].
  destruct (kp_in_bounds_elem _ _ Hb Hp) as [[Ha Hb'] [Hc Hd]].
  rewrite Ha, Hb', Hc, Hd in Hfail. by destruct Hfail.
Qed.




(** ** [get_scan_pose] *)

Lemma index_from_end_snoc3 {A : Type} (l : list A) (c b a : A) :
  index_from_end (l ++ [c; b; a]) 3 = Ok c ∧
  index_from_end (l ++ [c; b; a]) 2 = Ok b ∧
  index_from_end (l ++ [c; b; a]) 1 = Ok a.
Proof.
  unfold index_from_end. rewrite length_app. simpl.
  rewrite !bool_decide_eq_true_2 by lia.
  repeat split.
  - replace (length l + 3 - 3) with (length l + 0) by lia.
    by rewrite lookup_app_r, Nat.add_comm, Nat.add_sub by lia.
  - replace (length l + 3 - 2) with (length l + 1) by lia.
    by rewrite lookup_app_r, Nat.add_comm, Nat.add_sub by lia.
  - replace (length l + 3 - 1) with (length l + 2) by lia.
    by rewrite lookup_app_r, Nat.add_comm, Nat.add_sub by lia.
Qed.

Lemma get_scan_pose_path (env : Env) (dataset_dir rpath path : string) :
  transform_file dataset_dir rpath = Some path →
  get_scan_pose env dataset_dir rpath =
  lookup_or FileNotFoundError (env_readlines env path) ≫= read_window env.
Proof.
  unfold transform_file, get_scan_pose.
  destruct (reverse (split_on "/" rpath)) as [|a [|b [|c rest]]] eqn:E; try done.
  intros [= <-].
  apply (f_equal reverse) in E. rewrite reverse_involutive in E.
  rewrite E. rewrite !reverse_cons, <-!app_assoc. simpl.
  destruct (index_from_end_snoc3 (reverse rest) c b a) as (-> & -> & ->).
  done.
Qed.

Lemma get_scan_pose_no_path (env : Env) (dataset_dir rpath : string) :
  transform_file dataset_dir rpath = None →
  get_scan_pose env dataset_dir rpath = Raise IndexError.
Proof.
  unfold transform_file, get_scan_pose.
  destruct (reverse (split_on "/" rpath)) as [|a [|b [|c rest]]] eqn:E; try done;
    intros _; apply (f_equal reverse) in E; rewrite reverse_involutive in E;
    by rewrite E.
Qed.

Lemma index_short {A : Type} (l : list A) (i : nat) :
  length l ≤ i → index l i = Raise IndexError.
Proof. intros H. unfold index. by rewrite lookup_ge_None_2. Qed.

Lemma read_window_no_line7 (env : Env) (raw_lines : list string) :
  length raw_lines ≤ 7 → read_window env raw_lines = Raise IndexError.
Proof. intros Hlen. unfold read_window. by rewrite (index_short _ 7). Qed.

(** A file that is too short for the window: [IndexError], unless a line of
    the window that the file does have makes [np.fromstring] raise. *)
Lemma read_window_short (env : Env) (raw_lines : list string) :
  length raw_lines < 11 →
  read_window env raw_lines = Raise IndexError ∨
  ∃ i l e, 7 ≤ i ∧ raw_lines !! i = Some l ∧
           env_fromstring env l = Raise e ∧
           read_window env raw_lines = Raise e.
Proof.
  intros Hlen. unfold read_window, index.
  destruct (raw_lines !! 7) as [l7|] eqn:H7; [|by left]. simpl.
  destruct (env_fromstring env l7) as [r0|e] eqn:E7;
    [|right; by exists 7, l7, e]. simpl.
  destruct (raw_lines !! 8) as [l8|] eqn:H8; [|by left]. simpl.
  destruct (env_fromstring env l8) as [r1|e] eqn:E8;
    [|right; exists 8, l8, e; repeat split; (done || lia)]. simpl.
  destruct (raw_lines !! 9) as [l9|] eqn:H9; [|by left]. simpl.
  destruct (env_fromstring env l9) as [r2|e] eqn:E9;
    [|right; exists 9, l9, e; repeat split; (done || lia)]. simpl.
  destruct (raw_lines !! 10) as [l10|] eqn:H10; [|by left].
  apply lookup_lt_Some in H10. lia.
Qed.

Lemma read_window_lines (env : Env) (raw_lines : list string) l7 l8 l9 l10 :
  raw_lines !! 7 = Some l7 → raw_lines !! 8 = Some l8 →
  raw_lines !! 9 = Some l9 → raw_lines !! 10 = Some l10 →
  read_window env raw_lines =
  r0 ← env_fromstring env l7;
  r1 ← env_fromstring env l8;
  r2 ← env_fromstring env l9;
  r3 ← env_fromstring env l10;
  np_array env (Mat4 r0 r1 r2 r3).
Proof. unfold read_window, index. by intros -> -> -> ->. Qed.

Lemma np_array_Ok (env : Env) (m Tr : mat4) :
  np_array env m = Ok Tr → Tr = m.
Proof. unfold np_array. destruct (_ && _); congruence. Qed.

(** What a successful [get_scan_pose] tells: the file exists, has its
    lines 7 to 10, and the rows are what [np.fromstring] reads there. *)
Lemma get_scan_pose_Ok_inv (env : Env) (dataset_dir rpath : string) (Tr : mat4) :
  get_scan_pose env dataset_dir rpath = Ok Tr →
  ∃ path raw_lines l7 l8 l9 l10,
    transform_file dataset_dir rpath = Some path ∧
    env_readlines env path = Some raw_lines ∧
    raw_lines !! 7 = Some l7 ∧ raw_lines !! 8 = Some l8 ∧
    raw_lines !! 9 = Some l9 ∧ raw_lines !! 10 = Some l10 ∧
    env_fromstring env l7 = Ok (row0 Tr) ∧
    env_fromstring env l8 = Ok (row1 Tr) ∧
    env_fromstring env l9 = Ok (row2 Tr) ∧
    env_fromstring env l10 = Ok (row3 Tr).
Proof.
  intros H.
  destruct (transform_file dataset_dir rpath) as [path|] eqn:Hpath.
  2: { by rewrite get_scan_pose_no_path in H. }
  rewrite (get_scan_pose_path _ _ _ path) in H by done.
  apply bind_Ok in H as (raw_lines & Hfile%lookup_or_Ok & H).
  unfold read_window in H.
  apply bind_Ok in H as (l7 & H7%lookup_or_Ok & H).
  apply bind_Ok in H as (r0 & E7 & H).
  apply bind_Ok in H as (l8 & H8%lookup_or_Ok & H).
  apply bind_Ok in H as (r1 & E8 & H).
  apply bind_Ok in H as (l9 & H9%lookup_or_Ok & H).
  apply bind_Ok in H as (r2 & E9 & H).
  apply bind_Ok in H as (l10 & H10%lookup_or_Ok & H).
  apply bind_Ok in H as (r3 & E10 & H).
  apply np_array_Ok in H as ->.
  by exists path, raw_lines, l7, l8, l9, l10.
Qed.

Example np_fromstring_ex :
  np_fromstring true (line " 1.5e1  -2.25 .5 nan")
    = Ok [fq 15 1; fq (-9) 4; fq 1 2; NaN] ∧
  np_fromstring true (line "0 0 0 1 inf")
    = Ok [f0; f0; f0; f1; S754_infinity false] ∧
  np_fromstring true (line "1 0 0 x") = Raise ValueError ∧
  np_fromstring false (line "1 0 0 x") = Ok [f1; f0; f0] ∧
  np_fromstring false "7abc 2" = Ok [f64_of_Z 7] ∧
  np_fromstring true (line "") = Ok [minus_one] ∧
  np_fromstring false (line "") = Ok [minus_one] ∧
  np_fromstring true "" = Ok [].
Proof. repeat split; by_compute. Qed.

(** C6, as stated, fails: the four lines of the window are blank, so none
    of them is a numeric row, and [get_scan_pose] raises nothing: each line
    is read as the row [-1.], in every version of numpy.  Rows that end in
    a word that is not a number raise [ValueError] in the versions of
    numpy that raise on unmatched data, and are cut before that word,
    without an error, in the others. *)
Lemma get_scan_pose_no_parse_error :
  numeric_row (line "") = false ∧
  (∀ unmatched_raises ragged_raises,
     get_scan_pose
       (with_numpy unmatched_raises ragged_raises (ex_env_of blank_text))
       ex_dir ex_r
     = Ok (Mat4 [minus_one] [minus_one] [minus_one] [minus_one])) ∧
  numeric_row (line "1 0 0 x") = false ∧ numeric_row (line "0 1 0 x") = false ∧
  numeric_row (line "0 0 1 x") = false ∧ numeric_row (line "0 0 0 x") = false ∧
  (∀ ragged_raises,
     get_scan_pose (with_numpy false ragged_raises (ex_env_of noisy_text))
       ex_dir ex_r
     = Ok (Mat4 [f1; f0; f0] [f0; f1; f0] [f0; f0; f1] [f0; f0; f0])) ∧
  (∀ ragged_raises,
     get_scan_pose (with_numpy true ragged_raises (ex_env_of noisy_text))
       ex_dir ex_r
     = Raise ValueError).
Proof.
  split; [by_compute|]. split; [intros [|] [|]; by_compute|].
  do 4 (split; [by_compute|]).
  split; intros [|]; by_compute.
Qed.

(** C6, amended: [get_scan_pose] reads the transform from lines 7 to 10 of
    the file, handing each line in turn to [np.fromstring]; it raises
    [FileNotFoundError] when the file is absent, [IndexError] when a line
    of the window is missing, and what [np.fromstring] raises on a line of
    the window; it checks nothing itself: the rows [np.fromstring] returns
    are stacked as they are, and only rows of unequal length are refused,
    by the versions of numpy that refuse them. *)
Theorem get_scan_pose_window (env : Env) (dataset_dir rpath path : string) :
  transform_file dataset_dir rpath = Some path →
  (env_readlines env path = None →
   get_scan_pose env dataset_dir rpath = Raise FileNotFoundError) ∧
  (∀ raw_lines, env_readlines env path = Some raw_lines →
     (length raw_lines ≤ 7 →
      get_scan_pose env dataset_dir rpath = Raise IndexError) ∧
     (length raw_lines < 11 →
      get_scan_pose env dataset_dir rpath = Raise IndexError ∨
      ∃ i l e, 7 ≤ i ∧ raw_lines !! i = Some l ∧
               env_fromstring env l = Raise e ∧
               get_scan_pose env dataset_dir rpath = Raise e) ∧
     (∀ l7 l8 l9 l10,
        raw_lines !! 7 = Some l7 → raw_lines !! 8 = Some l8 →
        raw_lines !! 9 = Some l9 → raw_lines !! 10 = Some l10 →
        get_scan_pose env dataset_dir rpath =
          r0 ← env_fromstring env l7;
          r1 ← env_fromstring env l8;
          r2 ← env_fromstring env l9;
          r3 ← env_fromstring env l10;
          if env_ragged_raises env && negb (rectangular (Mat4 r0 r1 r2 r3))
          then Raise ValueError else Ok (Mat4 r0 r1 r2 r3))).
Proof.
  intros Hpath. rewrite (get_scan_pose_path _ _ _ path) by done.
  split.
  - by intros ->.
  - intros raw_lines ->. simpl. split; [|split].
    + apply read_window_no_line7.
    + apply read_window_short.
    + intros l7 l8 l9 l10 H7 H8 H9 H10.
      by rewrite (read_window_lines _ _ l7 l8 l9 l10).
Qed.

Lemma get_scan_pose_window_witness :
  get_scan_pose (ex_env_of shift_text) ex_dir ex_r2 = Raise FileNotFoundError ∧
  get_scan_pose (ex_env_of (take 7 shift_text)) ex_dir ex_r = Raise IndexError ∧
  get_scan_pose (ex_env_of blank_text) ex_dir ex_r =
    (r0 ← np_fromstring true (line "");
     r1 ← np_fromstring true (line "");
     r2 ← np_fromstring true (line "");
     r3 ← np_fromstring true (line "");
     if true && negb (rectangular (Mat4 r0 r1 r2 r3))
     then Raise ValueError else Ok (Mat4 r0 r1 r2 r3)).
Proof.
  split; [|split].
  - destruct (get_scan_pose_window (ex_env_of shift_text) ex_dir ex_r2
                "data/database/alignments/DUC1/transformations/DUC_trans_025.txt")
      as [Habsent _]; [by vm_compute|].
    apply Habsent. by vm_compute.
  - destruct (get_scan_pose_window (ex_env_of (take 7 shift_text)) ex_dir ex_r
                ex_transform_path) as [_ Hpresent]; [by vm_compute|].
    destruct (Hpresent (take 7 shift_text)) as [Hshort _]; [by vm_compute|].
    apply Hshort. simpl. lia.
  - destruct (get_scan_pose_window (ex_env_of blank_text) ex_dir ex_r
                ex_transform_path) as [_ Hpresent]; [by vm_compute|].
    destruct (Hpresent blank_text) as (_ & _ & Hwindow); [by vm_compute|].
    apply (Hwindow (line "") (line "") (line "") (line "")); reflexivity.
Defined.

Example get_scan_pose_ex :
  get_scan_pose (ex_env_of shift_text) ex_dir ex_r =
    Ok (Mat4 [f1; f0; f0; f64_of_Z 10] [f0; f1; f0; f64_of_Z 20]
             [f0; f0; f1; f64_of_Z 30] [f0; f0; f0; f1]) ∧
  get_scan_pose (ex_env_of identity_text) ex_dir ex_r = Ok ex_identity ∧
  get_scan_pose (ex_env_of identity_text) ex_dir ex_r2 = Raise FileNotFoundError ∧
  get_scan_pose (ex_env_of (take 10 shift_text)) ex_dir ex_r = Raise IndexError ∧
  get_scan_pose (ex_env_of short_row_text) ex_dir ex_r = Raise ValueError ∧
  get_scan_pose (ex_env_of identity_text) ex_dir "DUC_cutout.jpg" = Raise IndexError.
Proof. repeat split; by_compute. Qed.

(** ** The rigid transform *)

Lemma point_valid_false (p : vec3) :
  point_valid p = false ↔ p.1.1 = NaN ∨ p.1.2 = NaN ∨ p.2 = NaN.
Proof.
  destruct p as [[x y] z]. unfold point_valid, vec3_any. simpl.
  destruct x, y, z; simpl; split; try done; try tauto;
    intros [|[|]]; done.
Qed.

(** The rows of the identity, on a point of three numbers. *)
Lemma identity_row_x (x y z : f64) :
  is_binary64 x → finite_point (x, y, z) = true →
  same_number (dot3 (f1, f0, f0) (x, y, z) + f0)%f64 x.
Proof.
  intros Hx Hfin. unfold dot3, f1. cbn [fst snd].
  destruct x as [sx|sx| |sx mx ex]; try done.
  - right. destruct y as [sy|sy| |sy my ey], z as [sz|sz| |sz mz ez]; try done;
      destruct sx; try destruct sy; try destruct sz; by eexists _, _.
  - left. rewrite fmul_one_l by done.
    destruct y as [sy|sy| |sy my ey], z as [sz|sz| |sz mz ez]; done.
Qed.

Lemma identity_row_y (x y z : f64) :
  is_binary64 y → finite_point (x, y, z) = true →
  same_number (dot3 (f0, f1, f0) (x, y, z) + f0)%f64 y.
Proof.
  intros Hy Hfin. unfold dot3, f1. cbn [fst snd].
  destruct y as [sy|sy| |sy my ey]; try (by destruct x).
  - right. destruct x as [sx|sx| |sx mx ex], z as [sz|sz| |sz mz ez]; try done;
      destruct sy; try destruct sx; try destruct sz; by eexists _, _.
  - left. rewrite fmul_one_l by done.
    destruct x as [sx|sx| |sx mx ex], z as [sz|sz| |sz mz ez]; done.
Qed.

Lemma identity_row_z (x y z : f64) :
  is_binary64 z → finite_point (x, y, z) = true →
  same_number (dot3 (f0, f0, f1) (x, y, z) + f0)%f64 z.
Proof.
  intros Hz Hfin. unfold dot3, f1. cbn [fst snd].
  destruct z as [sz|sz| |sz mz ez]; try (by destruct x, y).
  - right. destruct x as [sx|sx| |sx mx ex], y as [sy|sy| |sy my ey]; try done;
      destruct sz; try destruct sx; try destruct sy; by eexists _, _.
  - left. rewrite fmul_one_l by done.
    destruct x as [[]|[]| |[] mx ex], y as [[]|[]| |[] my ey]; done.
Qed.

(** A [NaN] channel spoils every row of the product, whatever the
    coefficients. *)
Lemma dot3_nan (r p : vec3) (t : f64) :
  point_valid p = false → (dot3 r p + t)%f64 = NaN.
Proof.
  destruct r as [[a b] c], p as [[x y] z].
  intros H%point_valid_false. simpl in H.
  destruct H as [->|[->| ->]]; unfold dot3; cbn [fst snd].
  - by rewrite fmul_nan_r.
  - by rewrite fmul_nan_r, fadd_nan_r.
  - by rewrite fmul_nan_r, fadd_nan_r.
Qed.

(** The product of 0 and a channel that is infinite or [NaN] is [NaN],
    and spoils the row. *)
Lemma dot3_zero_x (b c x y z t : f64) :
  is_finite x = false → (dot3 (f0, b, c) (x, y, z) + t)%f64 = NaN.
Proof. unfold dot3. simpl. by destruct x. Qed.

Lemma dot3_zero_y (a c x y z t : f64) :
  is_finite y = false → (dot3 (a, f0, c) (x, y, z) + t)%f64 = NaN.
Proof.
  unfold dot3. cbn [fst snd]. intros Hy.
  assert ((f0 * y)%f64 = NaN) as -> by (by destruct y).
  by rewrite fadd_nan_r.
Qed.

Lemma dot3_zero_z (a b x y z t : f64) :
  is_finite z = false → (dot3 (a, b, f0) (x, y, z) + t)%f64 = NaN.
Proof.
  unfold dot3. cbn [fst snd]. intros Hz.
  assert ((f0 * z)%f64 = NaN) as -> by (by destruct z).
  by rewrite fadd_nan_r.
Qed.

Lemma transform_points_identity (Tr : mat4) (pts : list vec3) :
  identity_transform Tr →
  transform_points Tr pts =
  Ok ((λ p, (dot3 (f1, f0, f0) p + f0, dot3 (f0, f1, f0) p + f0,
             dot3 (f0, f0, f1) p + f0)%f64) <$> pts).
Proof.
  intros (H0 & H1 & H2 & H3). unfold transform_points, rectangular.
  rewrite H0, H1, H2, H3. done.
Qed.

(** C9, as stated, fails: the file holds the identity rotation and the zero
    translation, and a local point with a [NaN] channel does not come back
    unchanged: its two other coordinates are lost; nor does a point with
    an infinite channel, which the validity mask keeps. *)
Lemma identity_transform_loses_coordinates :
  get_scan_pose (ex_env_of identity_text) ex_dir ex_r = Ok ex_identity ∧
  identity_transform ex_identity ∧
  transform_points ex_identity [(f64_of_Z 5, NaN, f64_of_Z 7)] = Ok [vec3_nan] ∧
  [vec3_nan] ≠ [(f64_of_Z 5, NaN, f64_of_Z 7)] ∧
  point_valid (f64_of_Z 5, S754_infinity false, f64_of_Z 7) = true ∧
  transform_points ex_identity [(f64_of_Z 5, S754_infinity false, f64_of_Z 7)]
    = Ok [(NaN, S754_infinity false, NaN)].
Proof.
  split; [by_compute|]. split; [done|]. split; [by_compute|].
  split; [by intros [=]|]. split; by_compute.
Qed.

(** C9, amended: under the identity rotation and the zero translation
    every local point whose three channels are numbers comes back with
    the same three numbers (a zero may come back with the other sign); a
    point with a [NaN] channel comes back with three [NaN] channels, and a
    point with an infinite channel comes back with a [NaN] channel. *)
Theorem identity_transform_keeps_valid (Tr : mat4) (pts : list vec3) :
  identity_transform Tr →
  ∃ out,
    transform_points Tr pts = Ok out ∧
    length out = length pts ∧
    (∀ n p, pts !! n = Some p →
       ∃ p', out !! n = Some p' ∧
         (binary64_point p → finite_point p = true →
          ∀ c : channel, same_number (chan c p') (chan c p)) ∧
         (point_valid p = false → p' = vec3_nan) ∧
         (finite_point p = false → point_valid p' = false)).
Proof.
  intros Hid. eexists. split; [by apply transform_points_identity|].
  split; [by rewrite length_fmap|].
  intros n p Hp. rewrite list_lookup_fmap, Hp. simpl.
  eexists. split; [done|]. split; [|split].
  - destruct p as [[x y] z]. intros (Hx & Hy & Hz) Hfin c.
    destruct c; simpl.
    + by apply identity_row_x.
    + by apply identity_row_y.
    + by apply identity_row_z.
  - intros Hv. by rewrite !dot3_nan.
  - destruct p as [[x y] z]. unfold finite_point. simpl. intros Hfin.
    apply point_valid_false. simpl.
    destruct (is_finite x) eqn:Hx.
    2: { right. left. by apply dot3_zero_x. }
    destruct (is_finite y) eqn:Hy.
    2: { left. by apply dot3_zero_y. }
    destruct (is_finite z) eqn:Hz; [done|].
    left. by apply dot3_zero_z.
Qed.

Lemma identity_transform_keeps_valid_witness :
  ∃ out,
    transform_points ex_identity
      [(f64_of_Z 5, fq 1 2, f64_of_Z 7); (f64_of_Z 5, NaN, f64_of_Z 7)] = Ok out ∧
    length out = 2 ∧
    (∀ n p, [(f64_of_Z 5, fq 1 2, f64_of_Z 7); (f64_of_Z 5, NaN, f64_of_Z 7)] !! n
              = Some p →
       ∃ p', out !! n = Some p' ∧
         (binary64_point p → finite_point p = true →
          ∀ c : channel, same_number (chan c p') (chan c p)) ∧
         (point_valid p = false → p' = vec3_nan) ∧
         (finite_point p = false → point_valid p' = false)).
Proof.
  apply (identity_transform_keeps_valid ex_identity
           [(f64_of_Z 5, fq 1 2, f64_of_Z 7); (f64_of_Z 5, NaN, f64_of_Z 7)]).
  repeat split.
Defined.

Lemma logged_bind_ext {A B : Type} (m : logged A) (k k' : A → logged B) :
  (∀ a, k a = k' a) → m ≫= k = m ≫= k'.
Proof.
  intros H. unfold mbind, logged_bind.
  destruct (outcome m); [|done]. by rewrite H.
Qed.

(** *** The fourth row *)

Lemma transform_points_with_row3 (Tr : mat4) (bottom : list f64)
    (pts : list vec3) :
  length bottom = length (row3 Tr) →
  transform_points (with_row3 Tr bottom) pts = transform_points Tr pts.
Proof.
  intros Hlen. unfold transform_points, rectangular, with_row3. simpl.
  by rewrite Hlen.
Qed.

Lemma np_array_with_row3 (env : Env) (m : mat4) (bottom : list f64) :
  length bottom = length (row3 m) →
  np_array env (with_row3 m bottom) =
  (λ Tr, with_row3 Tr bottom) <$> np_array env m.
Proof.
  intros Hlen. unfold np_array, rectangular, with_row3. simpl.
  rewrite Hlen. by destruct (_ && _).
Qed.

(** Reading the window of two variants of a file: the same exception, or
    two arrays that differ in the fourth row only, of one length. *)
Lemma read_window_variant (env : Env) (l : list string) (x : string) :
  (∀ y, l !! 10 = Some y → read_alike env x y) →
  (∃ e, read_window env l = Raise e ∧
        read_window env (<[10 := x]> l) = Raise e) ∨
  (∃ Tr bottom,
     read_window env l = Ok Tr ∧
     length bottom = length (row3 Tr) ∧
     read_window env (<[10 := x]> l) = Ok (with_row3 Tr bottom)).
Proof.
  intros Hx.
  destruct (l !! 10) as [l10|] eqn:H10.
  - specialize (Hx l10 eq_refl). unfold read_alike in Hx.
    unfold read_window, index.
    rewrite (list_lookup_insert_ne l 10 7), (list_lookup_insert_ne l 10 8),
      (list_lookup_insert_ne l 10 9) by lia.
    rewrite list_lookup_insert_eq by (by apply lookup_lt_Some in H10).
    rewrite H10.
    destruct (l !! 7) as [l7|]; [simpl|left; by eexists].
    destruct (env_fromstring env l7) as [r0|]; [simpl|left; by eexists].
    destruct (l !! 8) as [l8|]; [simpl|left; by eexists].
    destruct (env_fromstring env l8) as [r1|]; [simpl|left; by eexists].
    destruct (l !! 9) as [l9|]; [simpl|left; by eexists].
    destruct (env_fromstring env l9) as [r2|]; [simpl|left; by eexists].
    destruct (env_fromstring env x) as [a|e], (env_fromstring env l10) as [b|e'];
      try done; simpl.
    + change (Mat4 r0 r1 r2 a) with (with_row3 (Mat4 r0 r1 r2 b) a).
      rewrite np_array_with_row3 by done.
      destruct (np_array env (Mat4 r0 r1 r2 b)) as [Tr|e] eqn:Harr.
      * right. apply np_array_Ok in Harr as ->. by exists (Mat4 r0 r1 r2 b), a.
      * left. by exists e.
    + subst e'. left. by exists e.
  - apply lookup_ge_None in H10.
    rewrite list_insert_ge by done. left.
    destruct (read_window_short env l) as [H|(i & li & e & _ & _ & _ & H)];
      [lia|..]; by eexists.
Qed.

Section fourth_row.
Context (env : Env) (files : string → option (list string)).
Context (Hfiles : ∀ path,
  fourth_row_variant env (env_readlines env path) (files path)).

Local Abbreviation env' := (with_readlines files env).

Lemma get_scan_pose_variant (dataset_dir rpath : string) :
  (∃ e, get_scan_pose env dataset_dir rpath = Raise e ∧
        get_scan_pose env' dataset_dir rpath = Raise e) ∨
  (∃ Tr bottom,
     get_scan_pose env dataset_dir rpath = Ok Tr ∧
     length bottom = length (row3 Tr) ∧
     get_scan_pose env' dataset_dir rpath = Ok (with_row3 Tr bottom)).
Proof using Hfiles.
  destruct (transform_file dataset_dir rpath) as [path|] eqn:Hpath.
  2: { left. exists IndexError. by rewrite !get_scan_pose_no_path. }
  rewrite !(get_scan_pose_path _ _ _ path) by done.
  specialize (Hfiles path). simpl.
  destruct (env_readlines env path) as [l|], (files path) as [l'|];
    simpl in *; try done.
  2: { left. by exists FileNotFoundError. }
  destruct Hfiles as (x & -> & Hx).
  change (read_window env' (<[10:=x]> l))
    with (read_window env (<[10:=x]> l)).
  by apply read_window_variant.
Qed.

Lemma lift_view_variant (dataset_dir r : string) (mkpq mkpr : list kp2) :
  lift_view env' dataset_dir r mkpq mkpr = lift_view env dataset_dir r mkpq mkpr.
Proof using Hfiles.
  unfold lift_view. simpl.
  destruct (env_loadmat env _) as [scan_r|]; [simpl|done].
  change (interpolate_scan env' scan_r mkpr)
    with (interpolate_scan env scan_r mkpr).
  destruct (interpolate_scan env scan_r mkpr) as [[mkp3d valid]|]; [simpl|done].
  destruct (get_scan_pose_variant dataset_dir r)
    as [(e & -> & ->) | (Tr & bottom & -> & Hlen & ->)]; [done|].
  simpl. by rewrite transform_points_with_row3.
Qed.

Lemma cluster_view_variant (dataset_dir q : string) feature_file match_file
    skip (kpq : list kp2) (r : string) :
  cluster_view env' dataset_dir q feature_file match_file skip kpq r =
  cluster_view env dataset_dir q feature_file match_file skip kpq r.
Proof using Hfiles.
  unfold cluster_view. simpl.
  destruct (lookup_or KeyError (feature_file r)) as [kpr|]; [simpl|done].
  destruct (lookup_or KeyError (match_file _)) as [m|]; [simpl|done].
  destruct (below_skip _ _); [done|].
  destruct (bool_index kpq _) as [mkpq|]; [simpl|done].
  destruct (fancy_index kpr _) as [mkpr|]; [simpl|done].
  by rewrite lift_view_variant.
Qed.

Lemma cluster_loop_variant (dataset_dir q : string) feature_file match_file
    skip (kpq : list kp2) (retrieved : list string) (i : nat) (st : agg) :
  cluster_loop env' dataset_dir q feature_file match_file skip kpq i retrieved st =
  cluster_loop env dataset_dir q feature_file match_file skip kpq i retrieved st.
Proof using Hfiles.
  revert i st. induction retrieved as [|r rest IH]; intros i st; [done|].
  simpl. rewrite cluster_view_variant.
  destruct (cluster_view env _ _ _ _ _ _ _) as [[c|]|]; simpl; by rewrite ?IH.
Qed.

Lemma pose_from_cluster_variant (dataset_dir q : string) feature_file
    match_file skip (retrieved : list string) :
  pose_from_cluster env' dataset_dir q feature_file match_file skip retrieved =
  pose_from_cluster env dataset_dir q feature_file match_file skip retrieved.
Proof using Hfiles.
  unfold pose_from_cluster.
  apply logged_bind_ext. intros [height width].
  apply logged_bind_ext. intros kpq.
  by rewrite cluster_loop_variant.
Qed.

Lemma main_loop_variant (dataset_dir : string) feature_file match_file skip
    (retrieval_dict : list (string * list string)) st :
  main_loop env' dataset_dir feature_file match_file skip retrieval_dict st =
  main_loop env dataset_dir feature_file match_file skip retrieval_dict st.
Proof using Hfiles.
  revert st. induction retrieval_dict as [|[q db] rest IH]; intros st; [done|].
  simpl. unfold main_step. rewrite pose_from_cluster_variant.
  apply logged_bind_ext. intros st'. apply IH.
Qed.

Lemma onfly_try_variant matcher (dataset_dir q : string) (skip_matches : Z)
    (r : string) :
  onfly_try env' matcher dataset_dir q skip_matches r =
  onfly_try env matcher dataset_dir q skip_matches r.
Proof using Hfiles.
  unfold onfly_try. simpl.
  destruct (matcher _ _) as [matches|]; [|done].
  by rewrite lift_view_variant.
Qed.

Lemma onfly_loop_variant matcher (dataset_dir q : string) (skip_matches : Z)
    (retrieved : list string) (i : nat) (st : onfly_state) :
  onfly_loop env' matcher dataset_dir q skip_matches i retrieved st =
  onfly_loop env matcher dataset_dir q skip_matches i retrieved st.
Proof using Hfiles.
  revert i st. induction retrieved as [|r rest IH]; intros i st; [done|].
  simpl. unfold onfly_step. by rewrite onfly_try_variant, IH.
Qed.

Lemma pose_from_cluster_onfly_matching_variant matcher (dataset_dir q : string)
    (skip_matches : Z) (retrieved : list string) (poses : pose_table)
    (rthres : f64) :
  pose_from_cluster_onfly_matching env' matcher dataset_dir q skip_matches
    retrieved poses rthres =
  pose_from_cluster_onfly_matching env matcher dataset_dir q skip_matches
    retrieved poses rthres.
Proof using Hfiles.
  unfold pose_from_cluster_onfly_matching.
  apply logged_bind_ext. intros [height width].
  by rewrite onfly_loop_variant.
Qed.

Lemma localize_loop_variant matcher (dataset_dir : string) (rthres : f64)
    (skip_matches : Z) (retrieval_dict : list (string * list string))
    (st : run_state) :
  localize_loop env' matcher dataset_dir rthres skip_matches retrieval_dict st =
  localize_loop env matcher dataset_dir rthres skip_matches retrieval_dict st.
Proof using Hfiles.
  revert st.
  induction retrieval_dict as [|[q retrieved] rest IH]; intros st; [done|].
  simpl. unfold localize_step.
  rewrite pose_from_cluster_onfly_matching_variant.
  apply logged_bind_ext. intros st'. apply IH.
Qed.

End fourth_row.

(** C10, as stated, fails: two transform files that differ in the fourth
    row of the window alone, one number shorter in the second, and the
    query that is localized with the first is not with the second, under
    either behaviour of [np.array]. *)
Lemma fourth_row_length_matters :
  short_row_text = <[10 := line "0 0 0"]> shift_text ∧
  (∀ ragged,
     out_lines <$> outcome (localize_with_matcher
                              (with_ragged ragged (ex_env_of shift_text))
                              ex_matcher ex_dir (f64_of_Z 48) 2 "pairs.txt")
     = Ok [PoseLine "IMG_0731.JPG" [f1; f0; f0; f0] [f0; f0; f0]] ∧
     out_lines <$> outcome (localize_with_matcher
                              (with_ragged ragged (ex_env_of short_row_text))
                              ex_matcher ex_dir (f64_of_Z 48) 2 "pairs.txt")
     = Ok []) ∧
  get_scan_pose (ex_env_of short_row_text) ex_dir ex_r = Raise ValueError ∧
  (get_scan_pose (with_ragged false (ex_env_of short_row_text)) ex_dir ex_r
     ≫= λ Tr, transform_points Tr []) = Raise IndexError.
Proof.
  split; [done|]. split; [|split; by_compute].
  intros [|]; split; by_compute.
Qed.

(** C10, amended: [get_scan_pose] returns four parsed rows, the fourth
    being what [np.fromstring] reads on line 10 of the file; the transform
    step reads the first three only, so the numbers of the fourth row
    influence no correspondence, no pose and no solver call of either
    pipeline, as long as [np.fromstring] reads the row as before: as a row
    of as many numbers, or with the same exception (a fourth row of
    another length makes the array ragged, and the transform step
    raises). *)
Theorem fourth_row_values_unused (env : Env)
    (files : string → option (list string)) :
  (∀ path, fourth_row_variant env (env_readlines env path) (files path)) →
  (∀ dataset_dir rpath Tr,
     get_scan_pose env dataset_dir rpath = Ok Tr →
     ∃ path raw_lines l10,
       transform_file dataset_dir rpath = Some path ∧
       env_readlines env path = Some raw_lines ∧
       raw_lines !! 10 = Some l10 ∧
       env_fromstring env l10 = Ok (row3 Tr)) ∧
  (∀ Tr bottom pts,
     length bottom = length (row3 Tr) →
     transform_points (with_row3 Tr bottom) pts = transform_points Tr pts) ∧
  (∀ dataset_dir retrieval features matches skip_matches,
     main (with_readlines files env) dataset_dir retrieval features matches
          skip_matches =
     main env dataset_dir retrieval features matches skip_matches) ∧
  (∀ matcher dataset_dir rthres skip_matches retrieval_pairs,
     localize_with_matcher (with_readlines files env) matcher dataset_dir
       rthres skip_matches retrieval_pairs =
     localize_with_matcher env matcher dataset_dir rthres skip_matches
       retrieval_pairs).
Proof.
  intros Hfiles. split; [|split; [|split]].
  - intros dataset_dir rpath Tr HTr.
    apply get_scan_pose_Ok_inv in HTr
      as (path & raw_lines & l7 & l8 & l9 & l10 & ? & ? & _ & _ & _ & ? & _ & _ & _ & ?).
    by exists path, raw_lines, l10.
  - intros Tr bottom pts. apply transform_points_with_row3.
  - intros dataset_dir retrieval features matches skip_matches.
    unfold main.
    do 3 (apply logged_bind_ext; intros _).
    simpl. by rewrite main_loop_variant.
  - intros matcher dataset_dir rthres skip_matches retrieval_pairs.
    unfold localize_with_matcher. simpl.
    by rewrite localize_loop_variant.
Qed.

Lemma fourth_row_values_unused_witness :
  localize_with_matcher
    (with_readlines
       (one_file ex_transform_path
          (transform_text "1 0 0 10" "0 1 0 20" "0 0 1 30" "7 8 9 nan"))
       (ex_env_of shift_text))
    ex_matcher ex_dir (f64_of_Z 48) 2 "pairs.txt" =
  localize_with_matcher (ex_env_of shift_text) ex_matcher ex_dir
    (f64_of_Z 48) 2 "pairs.txt".
Proof.
  apply (fourth_row_values_unused (ex_env_of shift_text)).
  intros path. simpl. unfold one_file.
  destruct (bool_decide (path = ex_transform_path)); [|exact I].
  exists (line "7 8 9 nan"). split; [reflexivity|].
  intros y Hy. injection Hy as <-. by vm_compute.
Defined.

(** ** Aggregation *)

Lemma length_mask_select {A : Type} (a : list A) (mask : list bool) :
  length mask = length a → length (mask_select a mask) = count_nonzero mask.
Proof.
  revert mask. induction a as [|x a IH]; intros [|b mask] Hlen;
    simplify_eq/=; [done|].
  specialize (IH mask Hlen). unfold count_nonzero in *.
  destruct b; simpl; by rewrite IH.
Qed.

Lemma mask_select_zip {A B : Type} (a : list A) (b : list B) (mask : list bool) :
  mask_select (zip a b) mask = zip (mask_select a mask) (mask_select b mask).
Proof.
  revert b mask. induction a as [|x a IH]; intros [|y b] [|m mask]; simpl;
    try done.
  all: destruct m; simpl; rewrite ?zip_with_nil_r, ?IH; done.
Qed.

Lemma zip_corrs_app mkpq1 mkpq2 mkpr1 mkpr2 mkp3d1 mkp3d2 idx1 idx2 :
  length mkpq1 = length idx1 → length mkpr1 = length idx1 →
  length mkp3d1 = length idx1 →
  zip_corrs (mkpq1 ++ mkpq2) (mkpr1 ++ mkpr2) (mkp3d1 ++ mkp3d2) (idx1 ++ idx2) =
  zip_corrs mkpq1 mkpr1 mkp3d1 idx1 ++ zip_corrs mkpq2 mkpr2 mkp3d2 idx2.
Proof.
  intros Hq Hr Hp. unfold zip_corrs.
  rewrite (zip_with_app pair mkpq1 mkpq2 mkpr1 mkpr2) by congruence.
  rewrite (zip_with_app pair _ _ mkp3d1 mkp3d2)
    by (rewrite length_zip_with; lia).
  rewrite zip_with_app; [done|].
  rewrite !length_zip_with. lia.
Qed.

Lemma length_zip_corrs mkpq mkpr mkp3d idx :
  length mkpq = length idx → length mkpr = length idx →
  length mkp3d = length idx →
  length (zip_corrs mkpq mkpr mkp3d idx) = length idx.
Proof.
  intros. unfold zip_corrs. rewrite !length_zip_with. lia.
Qed.

Lemma zip_corrs_index mkpq mkpr mkp3d idx :
  length mkpq = length idx → length mkpr = length idx →
  length mkp3d = length idx →
  c_index <$> zip_corrs mkpq mkpr mkp3d idx = idx.
Proof.
  intros Hq Hr Hp. unfold zip_corrs.
  rewrite fmap_zip_with_r; [done..|].
  rewrite !length_zip_with. lia.
Qed.

(** The four masked arrays a view appends, read side by side, are its
    valid matches annotated with its position. *)
Lemma view_corrs_zip (i : nat) (c : view) :
  view_wf c →
  zip_corrs (mask_select (v_mkpq c) (v_valid c))
            (mask_select (v_mkpr c) (v_valid c))
            (mask_select (v_mkp3d c) (v_valid c))
            (replicate (count_nonzero (v_valid c)) i) =
  view_corrs i c.
Proof.
  intros (Hq & Hp & Hv). unfold zip_corrs, view_corrs.
  rewrite <-!mask_select_zip.
  rewrite zip_with_replicate_r_eq; [done|].
  apply length_mask_select.
  rewrite !length_zip_with. lia.
Qed.

Lemma view_corrs_index (i : nat) (c : view) (x : corr) :
  x ∈ view_corrs i c → c_index x = i.
Proof. unfold view_corrs. by intros (t & -> & _)%list_elem_of_fmap. Qed.

Lemma agg_wf_empty : agg_wf agg_empty.
Proof. done. Qed.

Lemma agg_push_wf (st : agg) (i : nat) (c : view) :
  agg_wf st → view_wf c → agg_wf (agg_push st i c).
Proof.
  intros (Hq & Hr & Hp) (Hcq & Hcp & Hcv). unfold agg_wf. simpl.
  rewrite !concat_app, !length_app. simpl. rewrite !app_nil_r.
  rewrite !length_mask_select, length_replicate by lia. lia.
Qed.

Lemma agg_push_corrs (st : agg) (i : nat) (c : view) :
  agg_wf st → view_wf c →
  agg_corrs (agg_push st i c) = agg_corrs st ++ view_corrs i c.
Proof.
  intros (Hq & Hr & Hp) Hc. unfold agg_corrs. simpl.
  rewrite !concat_app. simpl. rewrite !app_nil_r.
  rewrite zip_corrs_app by done.
  by rewrite view_corrs_zip.
Qed.

Lemma agg_views_corrs (i : nat) (vs : list (option view)) (st : agg) :
  agg_wf st → Forall (from_option view_wf True) vs →
  agg_wf (agg_views i vs st) ∧
  agg_corrs (agg_views i vs st) = agg_corrs st ++ aggregate_from i vs.
Proof.
  intros Hst Hvs. revert i st Hst.
  induction Hvs as [|[c|] vs Hc Hvs IH]; intros i st Hst; simpl.
  - by rewrite app_nil_r.
  - destruct (IH (S i) (agg_push st i c)) as [Hwf Heq].
    { by apply agg_push_wf. }
    split; [done|]. rewrite Heq, agg_push_corrs by done.
    by rewrite <-app_assoc.
  - by apply IH.
Qed.

Lemma agg_views_num_matches (i : nat) (vs : list (option view)) (st : agg) :
  num_matches (agg_views i vs st) =
  num_matches st + sum_list (from_option (λ c, length (v_mkpq c)) 0 <$> vs).
Proof.
  revert i st. induction vs as [|[c|] vs IH]; intros i st;
    cbn [agg_views]; rewrite ?fmap_cons; cbn [sum_list_with from_option];
    rewrite ?IH; cbn [agg_push num_matches]; simpl; lia.
Qed.

(** Membership in the aggregate: a correspondence comes from the view at
    the position it is annotated with. *)
Lemma elem_of_aggregate_from (i : nat) (vs : list (option view)) (x : corr) :
  x ∈ aggregate_from i vs ↔
  ∃ j c, vs !! j = Some (Some c) ∧ x ∈ view_corrs (i + j) c.
Proof.
  revert i. induction vs as [|[c|] vs IH]; intros i; simpl.
  - split; [by intros ?%elem_of_nil|by intros (j & c & ? & _)].
  - rewrite elem_of_app, IH. split.
    + intros [Hx | (j & c' & Hj & Hx)].
      * exists 0, c. by rewrite Nat.add_0_r.
      * exists (S j), c'. by rewrite Nat.add_succ_r.
    + intros ([|j] & c' & Hj & Hx); simplify_eq/=.
      * left. by rewrite Nat.add_0_r in Hx.
      * right. exists j, c'. by rewrite Nat.add_succ_r in Hx.
  - rewrite IH. split.
    + intros (j & c' & Hj & Hx). exists (S j), c'.
      by rewrite Nat.add_succ_r.
    + intros ([|j] & c' & Hj & Hx); simplify_eq/=.
      exists j, c'. by rewrite Nat.add_succ_r in Hx.
Qed.

(** The annotations of the aggregate never decrease: the correspondences
    are grouped by view, in the order of the retrieval list. *)
Lemma aggregate_from_sorted (i : nat) (vs : list (option view)) :
  StronglySorted le (c_index <$> aggregate_from i vs).
Proof.
  revert i. induction vs as [|[c|] vs IH]; intros i; simpl.
  - constructor.
  - rewrite fmap_app. apply StronglySorted_app_2; [| |by apply IH].
    + intros a b (x & -> & Hx)%list_elem_of_fmap (y & -> & Hy)%list_elem_of_fmap.
      apply view_corrs_index in Hx as ->.
      apply elem_of_aggregate_from in Hy as (j & c' & _ & Hy).
      apply view_corrs_index in Hy as ->. lia.
    + assert (c_index <$> view_corrs i c = replicate (length (view_corrs i c)) i)
        as ->.
      { unfold view_corrs. rewrite length_fmap, <-list_fmap_compose.
        generalize (mask_select (zip (zip (v_mkpq c) (v_mkpr c)) (v_mkp3d c))
                      (v_valid c)).
        intros l. induction l; f_equal/=; done. }
      generalize (length (view_corrs i c)). intros n.
      induction n; constructor; [done|].
      apply Forall_forall. by intros y ->%elem_of_replicate_inv.
  - by apply IH.
Qed.

(** *** The views of the two loops *)

Lemma transform_points_length (Tr : mat4) (pts out : list vec3) :
  transform_points Tr pts = Ok out → length out = length pts.
Proof.
  unfold transform_points. destruct (negb _); [done|].
  destruct (rot_row (row0 Tr)), (rot_row (row1 Tr)), (rot_row (row2 Tr)),
    (last (row0 Tr)), (last (row1 Tr)), (last (row2 Tr)); try done.
  intros [= <-]. by rewrite length_fmap.
Qed.

Lemma lift_view_Ok (env : Env) (dataset_dir r : string) (mkpq mkpr : list kp2)
    (c : view) :
  lift_view env dataset_dir r mkpq mkpr = Ok c →
  ∃ scan_r mkp3d Tr,
    env_loadmat env (path_join dataset_dir (r +:+ ".mat")) = Ok scan_r ∧
    interpolate_scan env scan_r mkpr = Ok (mkp3d, v_valid c) ∧
    get_scan_pose env dataset_dir r = Ok Tr ∧
    transform_points Tr mkp3d = Ok (v_mkp3d c) ∧
    v_mkpq c = mkpq ∧ v_mkpr c = mkpr.
Proof.
  unfold lift_view. intros H.
  apply bind_Ok in H as (scan_r & Hscan & H).
  apply bind_Ok in H as ([mkp3d valid] & Hinterp & H).
  apply bind_Ok in H as (Tr & HTr & H).
  apply bind_Ok in H as (mkp3d' & Htrans & [= <-]).
  by exists scan_r, mkp3d, Tr.
Qed.

Lemma lift_view_wf (env : Env) (dataset_dir r : string) (mkpq mkpr : list kp2)
    (c : view) :
  length mkpq = length mkpr →
  lift_view env dataset_dir r mkpq mkpr = Ok c → view_wf c.
Proof.
  intros Hlen (scan_r & mkp3d & Tr & _ & Hinterp & _ & Htrans & <- & <-)%lift_view_Ok.
  apply interpolate_scan_lengths in Hinterp as [H3d Hvalid].
  apply transform_points_length in Htrans.
  unfold view_wf. lia.
Qed.

Lemma fancy_index_length {A : Type} (a : list A) (idx : list Z) (l : list A) :
  fancy_index a idx = Ok l → length l = length idx.
Proof.
  revert l. induction idx as [|j idx IH]; intros l; simpl.
  - by intros [= <-].
  - intros H. apply bind_Ok in H as (x & _ & H).
    apply bind_Ok in H as (xs & Hxs & [= <-]).
    simpl. by rewrite (IH xs).
Qed.

Lemma bool_index_length {A : Type} (a : list A) (mask : list bool) (l : list A) :
  bool_index a mask = Ok l → length l = count_nonzero mask.
Proof.
  unfold bool_index. case_bool_decide; [|done].
  intros [= <-]. by apply length_mask_select.
Qed.

Lemma cluster_view_wf (env : Env) (dataset_dir q : string) feature_file
    match_file skip (kpq : list kp2) (r : string) (c : view) :
  cluster_view env dataset_dir q feature_file match_file skip kpq r
    = Ok (Some c) →
  view_wf c.
Proof.
  unfold cluster_view. intros H.
  apply bind_Ok in H as (kpr & _ & H).
  apply bind_Ok in H as (m & _ & H).
  destruct (below_skip _ _); [done|].
  apply bind_Ok in H as (mkpq & Hq%bool_index_length & H).
  apply bind_Ok in H as (mkpr & Hr%fancy_index_length & H).
  apply bind_Ok in H as (c' & Hc & [= <-]).
  apply lift_view_wf in Hc; [done|].
  rewrite Hq, Hr, length_mask_select; [done|].
  by rewrite length_fmap.
Qed.

Lemma onfly_try_wf (env : Env) matcher (dataset_dir q : string)
    (skip_matches : Z) (r : string) (ts : list f64) (c : view) :
  onfly_try env matcher dataset_dir q skip_matches r = (ts, Ok (Some c)) →
  view_wf c.
Proof.
  unfold onfly_try. destruct (matcher _ _) as [matches|]; [|done].
  intros [= _ H]. case_bool_decide; [done|].
  apply bind_Ok in H as (c' & Hc & [= <-]).
  apply lift_view_wf in Hc; [done|]. by rewrite !length_fmap.
Qed.

Lemma onfly_kept_wf (env : Env) matcher (dataset_dir q : string)
    (skip_matches : Z) (retrieved : list string) :
  Forall (from_option view_wf True)
    (onfly_kept env matcher dataset_dir q skip_matches <$> retrieved).
Proof.
  apply Forall_fmap, Forall_forall. intros r _. unfold onfly_kept. simpl.
  destruct (onfly_try env matcher dataset_dir q skip_matches r)
    as [ts [[c|]|]] eqn:Htry; simpl; [|done..].
  by eapply onfly_try_wf.
Qed.

(** The precomputed loop ends normally exactly when every view does, and
    then holds the views in order. *)
Lemma cluster_loop_views (env : Env) (dataset_dir q : string) feature_file
    match_file skip (kpq : list kp2) (retrieved : list string) (i : nat)
    (st st' : agg) :
  cluster_loop env dataset_dir q feature_file match_file skip kpq i retrieved st
    = Ok st' ↔
  ∃ vs,
    Forall2 (λ r o, cluster_view env dataset_dir q feature_file match_file
                      skip kpq r = Ok o) retrieved vs ∧
    st' = agg_views i vs st.
Proof.
  revert i st. induction retrieved as [|r rest IH]; intros i st; simpl.
  - split.
    + intros [= <-]. exists []. by split; [constructor|].
    + intros (vs & ->%Forall2_nil_inv_l & ->). done.
  - rewrite bind_Ok. split.
    + intros (o & Ho & Hloop).
      destruct o as [c|]; apply IH in Hloop as (vs & Hvs & ->).
      * exists (Some c :: vs). split; [by constructor|done].
      * exists (None :: vs). split; [by constructor|done].
    + intros (vs & Hvs & ->).
      apply Forall2_cons_inv_l in Hvs as (o & vs' & Ho & Hvs & ->).
      exists o. split; [done|].
      destruct o as [c|]; apply IH; by exists vs'.
Qed.

Lemma onfly_loop_agg (env : Env) matcher (dataset_dir q : string)
    (skip_matches : Z) (retrieved : list string) (i : nat) (st : onfly_state) :
  of_agg (onfly_loop env matcher dataset_dir q skip_matches i retrieved st) =
  agg_views i (onfly_kept env matcher dataset_dir q skip_matches <$> retrieved)
    (of_agg st).
Proof.
  revert i st. induction retrieved as [|r rest IH]; intros i st; [done|].
  simpl. rewrite IH. unfold onfly_step, onfly_kept.
  by destruct (onfly_try env matcher dataset_dir q skip_matches r)
    as [ts [[c|]|]].
Qed.

Lemma onfly_loop_app (env : Env) matcher (dataset_dir q : string)
    (skip_matches : Z) (l1 l2 : list string) (i : nat) (st : onfly_state) :
  onfly_loop env matcher dataset_dir q skip_matches i (l1 ++ l2) st =
  onfly_loop env matcher dataset_dir q skip_matches (i + length l1) l2
    (onfly_loop env matcher dataset_dir q skip_matches i l1 st).
Proof.
  revert i st. induction l1 as [|r l1 IH]; intros i st; simpl.
  - by rewrite Nat.add_0_r.
  - rewrite IH. by rewrite Nat.add_succ_r.
Qed.

Lemma onfly_loop_failed (env : Env) matcher (dataset_dir q : string)
    (skip_matches : Z) (retrieved : list string) (i : nat) (st : onfly_state)
    (p : string * string) :
  p ∈ of_failed (onfly_loop env matcher dataset_dir q skip_matches i retrieved st)
  ↔ p ∈ of_failed st ∨
    ∃ r, p = (q, r) ∧ r ∈ retrieved ∧
         onfly_kept env matcher dataset_dir q skip_matches r = None.
Proof.
  revert i st. induction retrieved as [|r rest IH]; intros i st; simpl.
  - split; [by left|]. intros [?|(r & _ & ?%elem_of_nil & _)]; done.
  - rewrite IH. unfold onfly_step, onfly_kept.
    destruct (onfly_try env matcher dataset_dir q skip_matches r)
      as [ts [[c|]|]] eqn:Htry; simpl.
    + split.
      * intros [?|(r' & -> & ? & ?)]; [by left|].
        right. exists r'. by rewrite elem_of_cons; auto.
      * intros [?|(r' & -> & [->|?]%elem_of_cons & Hk)]; [by left| |].
        -- by rewrite Htry in Hk.
        -- right. by exists r'.
    + rewrite elem_of_app, list_elem_of_singleton. split.
      * intros [[?| ->]|(r' & -> & ? & ?)]; [by left| |].
        -- right. exists r. rewrite Htry. by rewrite elem_of_cons; auto.
        -- right. exists r'. by rewrite elem_of_cons; auto.
      * intros [?|(r' & -> & [->|?]%elem_of_cons & Hk)]; [by left;left| |].
        -- by left; right.
        -- right. by exists r'.
    + rewrite elem_of_app, list_elem_of_singleton. split.
      * intros [[?| ->]|(r' & -> & ? & ?)]; [by left| |].
        -- right. exists r. rewrite Htry. by rewrite elem_of_cons; auto.
        -- right. exists r'. by rewrite elem_of_cons; auto.
      * intros [?|(r' & -> & [->|?]%elem_of_cons & Hk)]; [by left;left| |].
        -- by left; right.
        -- right. by exists r'.
Qed.

(** ** The log of solver calls *)

Lemma outcome_bind {A B : Type} (m : logged A) (k : A → logged B) :
  outcome (m ≫= k) = outcome m ≫= λ a, outcome (k a).
Proof. unfold mbind at 1, logged_bind. by destruct (outcome m). Qed.

Lemma calls_bind {A B : Type} (m : logged A) (k : A → logged B) :
  calls (m ≫= k) =
  calls m ++ match outcome m with Ok a => calls (k a) | Raise _ => [] end.
Proof.
  unfold mbind, logged_bind.
  destruct (outcome m); simpl; by rewrite ?app_nil_r.
Qed.

Lemma outcome_bind_Ok {A B : Type} (m : logged A) (k : A → logged B) (b : B) :
  outcome (m ≫= k) = Ok b ↔ ∃ a, outcome m = Ok a ∧ outcome (k a) = Ok b.
Proof. by rewrite outcome_bind, bind_Ok. Qed.

Lemma outcome_bind_Raise {A B : Type} (m : logged A) (k : A → logged B) (e : exn) :
  outcome m = Raise e →
  outcome (m ≫= k) = Raise e ∧ calls (m ≫= k) = calls m.
Proof.
  intros H. rewrite outcome_bind, calls_bind, H. by rewrite app_nil_r.
Qed.

Lemma quiet_bind {A B : Type} (a : A) (k : A → logged B) :
  quiet (Ok a) ≫= k = k a.
Proof. unfold mbind, logged_bind, quiet. simpl. by destruct (k a). Qed.

Lemma quiet_bind_Raise {A B : Type} (e : exn) (k : A → logged B) :
  quiet (Raise e) ≫= k = Logged (Raise e) [].
Proof. done. Qed.

Lemma mret_bind {A B : Type} (a : A) (k : A → logged B) :
  mret a ≫= k = k a.
Proof. apply quiet_bind. Qed.

Lemma np_concatenate_Ok {A : Type} (arrays : list (list A)) (l : list A) :
  np_concatenate arrays = Ok l ↔ arrays ≠ [] ∧ l = concat arrays.
Proof.
  destruct arrays as [|a arrays]; simpl; split.
  - done.
  - by intros [? _].
  - by intros [= <-].
  - by intros [_ ->].
Qed.

(** ** [pose_from_cluster] and [pose_from_cluster_onfly_matching] *)

(** What a normal return of [pose_from_cluster] tells. *)
Lemma pose_from_cluster_Ok (env : Env) (dataset_dir q : string) feature_file
    match_file skip (retrieved : list string) (res : cluster_result) :
  outcome (pose_from_cluster env dataset_dir q feature_file match_file skip
             retrieved) = Ok res →
  ∃ height width kpq st,
    env_imread env (path_join dataset_dir q) = Some (height, width) ∧
    feature_file q = Some kpq ∧
    cluster_loop env dataset_dir q feature_file match_file skip kpq 0
      retrieved agg_empty = Ok st ∧
    all_mkpq st ≠ [] ∧
    cr_mkpq res = concat (all_mkpq st) ∧
    cr_mkpr res = concat (all_mkpr st) ∧
    cr_mkp3d res = concat (all_mkp3d st) ∧
    cr_indices res = concat (all_indices st) ∧
    cr_num_matches res = num_matches st ∧
    cr_cfg res = camera_cfg height width ∧
    env_solver env (SolverCall (cr_mkpq res) (cr_mkp3d res) (cr_cfg res)
                      (f64_of_Z 48)) = Ok (cr_ret res).
Proof.
  unfold pose_from_cluster. intros H.
  apply outcome_bind_Ok in H as ([height width] & Him%lookup_or_Ok & H).
  apply outcome_bind_Ok in H as (kpq & Hkpq%lookup_or_Ok & H).
  apply outcome_bind_Ok in H as (st & Hst & H).
  apply outcome_bind_Ok in H as (mkpq & [Hne ->]%np_concatenate_Ok & H).
  apply outcome_bind_Ok in H as (mkpr & [_ ->]%np_concatenate_Ok & H).
  apply outcome_bind_Ok in H as (mkp3d & [_ ->]%np_concatenate_Ok & H).
  apply outcome_bind_Ok in H as (indices & [_ ->]%np_concatenate_Ok & H).
  apply outcome_bind_Ok in H as (ret & Hret & [= <-]).
  simpl in *. by exists height, width, kpq, st.
Qed.

(** What a normal return of [pose_from_cluster_onfly_matching] with a
    record tells. *)
Lemma pose_from_cluster_onfly_matching_Some (env : Env) matcher
    (dataset_dir q : string) (skip_matches : Z) (retrieved : list string)
    (poses : pose_table) (rthres : f64) (r : onfly_result) (rec : loc_record) :
  outcome (pose_from_cluster_onfly_matching env matcher dataset_dir q
             skip_matches retrieved poses rthres) = Ok r →
  or_res_dict r = Some rec →
  let st := onfly_loop env matcher dataset_dir q skip_matches 0 retrieved
              onfly_init in
  num_matches (of_agg st) ≠ 0 ∧
  lr_db rec = retrieved ∧
  lr_keypoints_query rec = concat (all_mkpq (of_agg st)) ∧
  lr_keypoints_db rec = concat (all_mkpr (of_agg st)) ∧
  lr_points3d rec = concat (all_mkp3d (of_agg st)) ∧
  lr_indices_db rec = concat (all_indices (of_agg st)) ∧
  lr_num_matches rec = num_matches (of_agg st) ∧
  env_solver env (SolverCall (lr_keypoints_query rec) (lr_points3d rec)
                    (lr_cfg rec) rthres) = Ok (Some (lr_pose rec)) ∧
  or_poses r = <[q := (qvec (lr_pose rec), tvec (lr_pose rec))]> poses ∧
  or_failed r = of_failed st ∧ or_times r = of_times st.
Proof.
  intros H Hrec st. unfold pose_from_cluster_onfly_matching in H.
  apply outcome_bind_Ok in H as ([height width] & Him%lookup_or_Ok & H).
  fold st in H. case_bool_decide as Hnum.
  { simpl in H. injection H as <-. done. }
  apply outcome_bind_Ok in H as (mkpq & [Hne ->]%np_concatenate_Ok & H).
  apply outcome_bind_Ok in H as (mkpr & [_ ->]%np_concatenate_Ok & H).
  apply outcome_bind_Ok in H as (mkp3d & [_ ->]%np_concatenate_Ok & H).
  apply outcome_bind_Ok in H as (indices & [_ ->]%np_concatenate_Ok & H).
  apply outcome_bind_Ok in H as (ret & Hret & H).
  apply outcome_bind_Ok in H as (p & Hp%lookup_or_Ok & [= <-]).
  simpl in *. injection Hrec as <-. simpl. subst ret. done.
Qed.

(** ** The aggregate and the retrieval list *)

Lemma agg_views_summary (vs : list (option view)) :
  Forall (from_option view_wf True) vs →
  let st := agg_views 0 vs agg_empty in
  agg_wf st ∧
  agg_corrs st = aggregate_spec vs ∧
  c_index <$> agg_corrs st = concat (all_indices st) ∧
  StronglySorted le (concat (all_indices st)).
Proof.
  intros Hvs st.
  destruct (agg_views_corrs 0 vs agg_empty agg_wf_empty Hvs) as [Hwf Hcorrs].
  fold st in Hwf, Hcorrs. simpl in Hcorrs.
  assert (c_index <$> agg_corrs st = concat (all_indices st)) as Hidx.
  { destruct Hwf as (? & ? & ?). by apply zip_corrs_index. }
  split_and!; try done.
  rewrite <-Hidx, Hcorrs. apply aggregate_from_sorted.
Qed.

Lemma elem_of_aggregate_spec (vs : list (option view)) (x : corr) :
  x ∈ aggregate_spec vs ↔ ∃ c, vs !! c_index x = Some (Some c) ∧
                               x ∈ view_corrs (c_index x) c.
Proof.
  unfold aggregate_spec. rewrite elem_of_aggregate_from. split.
  - intros (j & c & Hj & Hx). simpl in Hx.
    pose proof (view_corrs_index _ _ _ Hx) as ->. by exists c.
  - intros (c & Hj & Hx). by exists (c_index x), c.
Qed.

(** C8: in both modes the four aggregated arrays are parallel and, read
    side by side, are the correspondences of the views of the retrieval
    list in the order of that list, each annotated with the position of its
    reference image; so the annotations never decrease, and each names the
    reference image that produced the correspondence. *)
Theorem aggregate_follows_retrieval_order (env : Env) (dataset_dir q : string)
    (retrieved : list string) :
  (∀ feature_file match_file skip res,
     outcome (pose_from_cluster env dataset_dir q feature_file match_file
                skip retrieved) = Ok res →
     ∃ kpq vs,
       feature_file q = Some kpq ∧
       Forall2 (λ r o, cluster_view env dataset_dir q feature_file match_file
                         skip kpq r = Ok o) retrieved vs ∧
       length (cr_mkpq res) = length (cr_indices res) ∧
       length (cr_mkpr res) = length (cr_indices res) ∧
       length (cr_mkp3d res) = length (cr_indices res) ∧
       zip_corrs (cr_mkpq res) (cr_mkpr res) (cr_mkp3d res) (cr_indices res)
         = aggregate_spec vs ∧
       StronglySorted le (cr_indices res) ∧
       ∀ x, x ∈ zip_corrs (cr_mkpq res) (cr_mkpr res) (cr_mkp3d res)
                  (cr_indices res) →
            ∃ r c, retrieved !! c_index x = Some r ∧
                   cluster_view env dataset_dir q feature_file match_file
                     skip kpq r = Ok (Some c) ∧
                   x ∈ view_corrs (c_index x) c) ∧
  (∀ matcher skip_matches poses rthres r rec,
     outcome (pose_from_cluster_onfly_matching env matcher dataset_dir q
                skip_matches retrieved poses rthres) = Ok r →
     or_res_dict r = Some rec →
     length (lr_keypoints_query rec) = length (lr_indices_db rec) ∧
     length (lr_keypoints_db rec) = length (lr_indices_db rec) ∧
     length (lr_points3d rec) = length (lr_indices_db rec) ∧
     zip_corrs (lr_keypoints_query rec) (lr_keypoints_db rec)
       (lr_points3d rec) (lr_indices_db rec)
       = aggregate_spec
           (onfly_kept env matcher dataset_dir q skip_matches <$> retrieved) ∧
     StronglySorted le (lr_indices_db rec) ∧
     ∀ x, x ∈ zip_corrs (lr_keypoints_query rec) (lr_keypoints_db rec)
                (lr_points3d rec) (lr_indices_db rec) →
          ∃ r' c, retrieved !! c_index x = Some r' ∧
                  onfly_kept env matcher dataset_dir q skip_matches r' = Some c ∧
                  x ∈ view_corrs (c_index x) c).
Proof.
  split.
  - intros feature_file match_file skip res Hres.
    apply pose_from_cluster_Ok in Hres
      as (height & width & kpq & st & _ & Hkpq & Hloop & _ & Hq & Hr & Hp
          & Hi & _).
    apply cluster_loop_views in Hloop as (vs & Hvs & ->).
    assert (Forall (from_option view_wf True) vs) as Hwf.
    { apply Forall_forall. intros [c|] Hc; [simpl|done].
      apply list_elem_of_lookup in Hc as [j Hj].
      destruct (Forall2_lookup_r _ _ _ _ _ Hvs Hj) as (r & _ & Hview).
      by eapply cluster_view_wf. }
    destruct (agg_views_summary vs Hwf) as ((Hlq & Hlr & Hlp) & Hcorrs & _ & Hsorted).
    unfold agg_corrs in Hcorrs. rewrite <-Hq, <-Hr, <-Hp, <-Hi in *.
    exists kpq, vs. split_and!; try done.
    intros x Hx. rewrite Hcorrs in Hx.
    apply elem_of_aggregate_spec in Hx as (c & Hj & Hx).
    destruct (Forall2_lookup_r _ _ _ _ _ Hvs Hj) as (r & Hr' & Hview).
    by exists r, c.
  - intros matcher skip_matches poses rthres r rec Hr Hrec.
    destruct (pose_from_cluster_onfly_matching_Some _ _ _ _ _ _ _ _ _ _ Hr Hrec)
      as (_ & _ & Hq & Hkr & Hp & Hi & _).
    rewrite onfly_loop_agg in Hq, Hkr, Hp, Hi. simpl in *.
    destruct (agg_views_summary _
                (onfly_kept_wf env matcher dataset_dir q skip_matches retrieved))
      as ((Hlq & Hlr & Hlp) & Hcorrs & _ & Hsorted).
    unfold agg_corrs in Hcorrs. rewrite <-Hq, <-Hkr, <-Hp, <-Hi in *.
    split_and!; try done.
    intros x Hx. rewrite Hcorrs in Hx.
    apply elem_of_aggregate_spec in Hx as (c & Hj & Hx).
    rewrite list_lookup_fmap in Hj.
    destruct (retrieved !! c_index x) as [r'|] eqn:Hr'; [|done].
    simpl in Hj. injection Hj as Hj. by exists r', c.
Qed.

Lemma aggregate_follows_retrieval_order_witness :
  (∃ res,
     outcome (pose_from_cluster ex_env2 ex_dir ex_q ex_features2 ex_matches2
                None [ex_r2; ex_r]) = Ok res ∧
     cr_indices res = [0; 1; 1] ∧
     StronglySorted le (cr_indices res) ∧
     length (cr_mkp3d res) = length (cr_indices res)) ∧
  (∃ r rec,
     outcome (pose_from_cluster_onfly_matching (ex_env_of shift_text)
                ex_matcher ex_dir ex_q 2 [ex_r2; ex_r] ∅ (f64_of_Z 48)) = Ok r ∧
     or_res_dict r = Some rec ∧
     lr_indices_db rec = [1; 1] ∧
     StronglySorted le (lr_indices_db rec) ∧
     zip_corrs (lr_keypoints_query rec) (lr_keypoints_db rec)
       (lr_points3d rec) (lr_indices_db rec)
       = aggregate_spec
           (onfly_kept (ex_env_of shift_text) ex_matcher ex_dir ex_q 2
              <$> [ex_r2; ex_r])).
Proof.
  split.
  - eexists. split; [vm_compute; reflexivity|]. split; [reflexivity|].
    edestruct (proj1 (aggregate_follows_retrieval_order ex_env2 ex_dir ex_q
                        [ex_r2; ex_r]) ex_features2 ex_matches2 None)
      as (kpq & vs & _ & _ & _ & _ & Hlen & _ & Hsorted & _);
      [vm_compute; reflexivity|].
    split; [exact Hsorted|exact Hlen].
  - eexists _, _. split; [vm_compute; reflexivity|].
    split; [reflexivity|]. split; [reflexivity|].
    edestruct (proj2 (aggregate_follows_retrieval_order (ex_env_of shift_text)
                        ex_dir ex_q [ex_r2; ex_r]) ex_matcher 2%Z ∅ (f64_of_Z 48))
      as (_ & _ & _ & Hcorrs & Hsorted & _);
      [vm_compute; reflexivity|reflexivity|].
    split; [exact Hsorted|exact Hcorrs].
Defined.

(** ** Views that contribute nothing *)

Lemma agg_views_skipped (vs : list (option view)) (i : nat) :
  Forall (from_option view_wf True) vs →
  vs !! i = Some None →
  i ∉ concat (all_indices (agg_views 0 vs agg_empty)).
Proof.
  intros Hvs Hi.
  destruct (agg_views_summary vs Hvs) as (_ & Hcorrs & Hidx & _).
  rewrite <-Hidx, Hcorrs.
  intros (x & -> & (c & Hc & _)%elem_of_aggregate_spec)%list_elem_of_fmap.
  congruence.
Qed.

Lemma below_skip_Some (skip : Z) (n : nat) :
  (Z.of_nat n < skip)%Z → below_skip (Some skip) n = true.
Proof.
  intros H. unfold below_skip.
  rewrite !bool_decide_eq_true_2; [done|lia..].
Qed.

Lemma pose_from_cluster_onfly_matching_Ok (env : Env) matcher
    (dataset_dir q : string) (skip_matches : Z) (retrieved : list string)
    (poses : pose_table) (rthres : f64) (res : onfly_result) :
  outcome (pose_from_cluster_onfly_matching env matcher dataset_dir q
             skip_matches retrieved poses rthres) = Ok res →
  let st := onfly_loop env matcher dataset_dir q skip_matches 0 retrieved
              onfly_init in
  or_failed res = of_failed st ∧ or_times res = of_times st ∧
  (or_res_dict res = None → num_matches (of_agg st) = 0 ∧ or_poses res = poses).
Proof.
  intros H st.
  destruct (or_res_dict res) as [rec|] eqn:Hrec.
  { destruct (pose_from_cluster_onfly_matching_Some _ _ _ _ _ _ _ _ _ _ H Hrec)
      as (_ & _ & _ & _ & _ & _ & _ & _ & _ & ? & ?). done. }
  unfold pose_from_cluster_onfly_matching in H.
  apply outcome_bind_Ok in H as ([height width] & _ & H).
  fold st in H. case_bool_decide as Hnum.
  { simpl in H. injection H as <-. done. }
  apply outcome_bind_Ok in H as (mkpq & _ & H).
  apply outcome_bind_Ok in H as (mkpr & _ & H).
  apply outcome_bind_Ok in H as (mkp3d & _ & H).
  apply outcome_bind_Ok in H as (indices & _ & H).
  apply outcome_bind_Ok in H as (ret & _ & H).
  apply outcome_bind_Ok in H as (p & _ & [= <-]).
  done.
Qed.

(** A reference view the on-the-fly loop does not keep: the pair is in the
    failure list, no correspondence bears its position, and the loop goes
    on with the next view from the accumulators it had. *)
Lemma onfly_not_kept (env : Env) matcher (dataset_dir q : string)
    (skip_matches : Z) (retrieved : list string) (i : nat) (r : string) :
  retrieved !! i = Some r →
  onfly_kept env matcher dataset_dir q skip_matches r = None →
  (q, r) ∈ of_failed (onfly_loop env matcher dataset_dir q skip_matches 0
                        retrieved onfly_init) ∧
  (i ∉ concat (all_indices (of_agg
         (onfly_loop env matcher dataset_dir q skip_matches 0 retrieved
            onfly_init)))) ∧
  ∃ ts,
    onfly_loop env matcher dataset_dir q skip_matches 0 retrieved onfly_init =
    onfly_loop env matcher dataset_dir q skip_matches (S i)
      (drop (S i) retrieved)
      (onfly_fail q
         (onfly_loop env matcher dataset_dir q skip_matches 0
            (take i retrieved) onfly_init) ts r).
Proof.
  intros Hr Hkept. split_and!.
  - apply onfly_loop_failed. right. exists r.
    split_and!; [done| |done]. by eapply list_elem_of_lookup_2.
  - rewrite onfly_loop_agg. apply agg_views_skipped.
    + apply onfly_kept_wf.
    + by rewrite list_lookup_fmap, Hr, <-Hkept.
  - assert (onfly_loop env matcher dataset_dir q skip_matches 0 retrieved
              onfly_init =
            onfly_loop env matcher dataset_dir q skip_matches 0
              (take i retrieved ++ r :: drop (S i) retrieved) onfly_init)
      as -> by (by rewrite take_drop_middle).
    rewrite onfly_loop_app. simpl.
    rewrite length_take_le by (apply lookup_lt_Some in Hr; lia).
    unfold onfly_step. unfold onfly_kept in Hkept.
    destruct (onfly_try env matcher dataset_dir q skip_matches r)
      as [ts [[c|]|e]]; simpl in Hkept; [done|by exists ts..].
Qed.

(** C7: a reference view whose raw match count is below the threshold adds
    no correspondence to the aggregate of the query, and in on-the-fly mode
    its pair is in the failure list. *)
Theorem weak_view_contributes_nothing (env : Env) (dataset_dir q : string)
    (retrieved : list string) (i : nat) (r : string) :
  retrieved !! i = Some r →
  (∀ feature_file match_file (skip : Z) kpr m res,
     feature_file r = Some kpr →
     match_file (env_names_to_pair env q r) = Some m →
     (Z.of_nat (count_nonzero ((λ x, bool_decide (-1 < x)%Z) <$> m)) < skip)%Z →
     outcome (pose_from_cluster env dataset_dir q feature_file match_file
                (Some skip) retrieved) = Ok res →
     (i ∉ cr_indices res) ∧
     ∀ x, x ∈ zip_corrs (cr_mkpq res) (cr_mkpr res) (cr_mkp3d res)
                (cr_indices res) → c_index x ≠ i) ∧
  (∀ matcher (skip_matches : Z) matches,
     matcher (path_join dataset_dir q) (path_join dataset_dir r) = Ok matches →
     (Z.of_nat (length matches) < skip_matches)%Z →
     (q, r) ∈ of_failed (onfly_loop env matcher dataset_dir q skip_matches 0
                           retrieved onfly_init) ∧
     (i ∉ concat (all_indices (of_agg
            (onfly_loop env matcher dataset_dir q skip_matches 0 retrieved
               onfly_init)))) ∧
     ∀ poses rthres res,
       outcome (pose_from_cluster_onfly_matching env matcher dataset_dir q
                  skip_matches retrieved poses rthres) = Ok res →
       (q, r) ∈ or_failed res ∧
       ∀ rec, or_res_dict res = Some rec → i ∉ lr_indices_db rec).
Proof.
  intros Hr. split.
  - intros feature_file match_file skip kpr m res Hkpr Hm Hcount Hres.
    apply pose_from_cluster_Ok in Hres
      as (height & width & kpq & st & _ & Hkpq & Hloop & _ & Hq & Hkr & Hp
          & Hi & _).
    apply cluster_loop_views in Hloop as (vs & Hvs & ->).
    assert (Forall (from_option view_wf True) vs) as Hwf.
    { apply Forall_forall. intros [c|] Hc; [simpl|done].
      apply list_elem_of_lookup in Hc as [j Hj].
      destruct (Forall2_lookup_r _ _ _ _ _ Hvs Hj) as (r' & _ & Hview).
      by eapply cluster_view_wf. }
    destruct (Forall2_lookup_l _ _ _ _ _ Hvs Hr) as (o & Ho & Hview).
    assert (o = None) as ->.
    { unfold cluster_view in Hview. rewrite Hkpr in Hview.
      cbn -[below_skip count_nonzero] in Hview. rewrite Hm in Hview.
      cbn -[below_skip count_nonzero] in Hview.
      rewrite below_skip_Some in Hview by done. congruence. }
    pose proof (agg_views_skipped vs i Hwf Ho) as Hnot.
    rewrite Hi. split; [done|].
    intros x Hx <-. apply Hnot.
    destruct (agg_views_summary vs Hwf) as (_ & _ & Hidx & _).
    rewrite <-Hidx. apply list_elem_of_fmap. exists x. split; [done|].
    unfold agg_corrs. by rewrite <-Hq, <-Hkr, <-Hp.
  - intros matcher skip_matches matches Hmatch Hlen.
    assert (onfly_kept env matcher dataset_dir q skip_matches r = None)
      as Hkept.
    { unfold onfly_kept, onfly_try. rewrite Hmatch. simpl.
      by rewrite bool_decide_eq_true_2. }
    destruct (onfly_not_kept env matcher dataset_dir q skip_matches
                retrieved i r Hr Hkept) as (Hfail & Hidx & _).
    split_and!; [done..|].
    intros poses rthres res Hres.
    destruct (pose_from_cluster_onfly_matching_Ok _ _ _ _ _ _ _ _ _ Hres)
      as (-> & _ & _).
    split; [done|]. intros rec Hrec.
    destruct (pose_from_cluster_onfly_matching_Some _ _ _ _ _ _ _ _ _ _
                Hres Hrec) as (_ & _ & _ & _ & _ & -> & _).
    done.
Qed.

Lemma weak_view_contributes_nothing_witness :
  (∃ res,
     outcome (pose_from_cluster ex_env2 ex_dir ex_q ex_features2 ex_matches3
                (Some 2%Z) [ex_r2; ex_r]) = Ok res ∧
     cr_indices res = [1; 1] ∧ 0 ∉ cr_indices res) ∧
  (ex_q, ex_r2) ∈ of_failed (onfly_loop ex_env2 ex_matcher2 ex_dir ex_q 2 0
                               [ex_r2; ex_r] onfly_init) ∧
  0 ∉ concat (all_indices (of_agg
        (onfly_loop ex_env2 ex_matcher2 ex_dir ex_q 2 0 [ex_r2; ex_r]
           onfly_init))).
Proof.
  split.
  - eexists. split; [vm_compute; reflexivity|]. split; [reflexivity|].
    edestruct (proj1 (weak_view_contributes_nothing ex_env2 ex_dir ex_q
                        [ex_r2; ex_r] 0 ex_r2 eq_refl)
                 ex_features2 ex_matches3 2%Z) as [Hnot _];
      [reflexivity|reflexivity|by vm_compute|vm_compute; reflexivity|].
    exact Hnot.
  - edestruct (proj2 (weak_view_contributes_nothing ex_env2 ex_dir ex_q
                        [ex_r2; ex_r] 0 ex_r2 eq_refl)
                 ex_matcher2 2%Z) as (Hfail & Hnot & _);
      [reflexivity|by vm_compute|].
    split; [exact Hfail|exact Hnot].
Defined.

(** ** Exceptions in a reference view *)

Lemma view_raises_not_kept (env : Env) matcher (dataset_dir q : string)
    (skip_matches : Z) (r : string) :
  view_raises env matcher dataset_dir q skip_matches r →
  ∃ ts e, onfly_try env matcher dataset_dir q skip_matches r = (ts, Raise e).
Proof.
  unfold onfly_try, lift_view.
  intros [e He | matches e Hm Hlen He | matches scan_r e Hm Hlen Hs He
         | matches e Hm Hlen He | matches scan_r mkp3d valid Tr e Hm Hlen Hs Hi HTr He].
  - rewrite He. by eexists _, _.
  - rewrite Hm, bool_decide_eq_false_2, He by done. by eexists _, _.
  - rewrite Hm, bool_decide_eq_false_2, Hs by done. simpl. rewrite He.
    by eexists _, _.
  - rewrite Hm, bool_decide_eq_false_2 by done.
    destruct (env_loadmat env _) as [scan_r|]; simpl; [|by eexists _, _].
    destruct (interpolate_scan _ _ _) as [[mkp3d valid]|]; simpl;
      [|by eexists _, _].
    rewrite He. by eexists _, _.
  - rewrite Hm, bool_decide_eq_false_2, Hs by done. simpl. rewrite Hi. simpl.
    rewrite HTr. simpl. rewrite He. by eexists _, _.
Qed.

(** C4: in on-the-fly mode an exception raised while a reference view is
    processed (matching, loading the scan, interpolating, resolving or
    applying the transform) stops at that view: the pair goes to the
    failure list, no correspondence bears the position of the view, and the
    loop goes on with the next view from the accumulators it had. *)
Theorem onfly_exception_is_contained (env : Env)
    (matcher : string → string → result match_rows) (dataset_dir q : string)
    (skip_matches : Z) (retrieved : list string) (i : nat) (r : string) :
  retrieved !! i = Some r →
  view_raises env matcher dataset_dir q skip_matches r →
  (q, r) ∈ of_failed (onfly_loop env matcher dataset_dir q skip_matches 0
                        retrieved onfly_init) ∧
  (i ∉ concat (all_indices (of_agg
         (onfly_loop env matcher dataset_dir q skip_matches 0 retrieved
            onfly_init)))) ∧
  (∃ ts,
     onfly_loop env matcher dataset_dir q skip_matches 0 retrieved onfly_init =
     onfly_loop env matcher dataset_dir q skip_matches (S i)
       (drop (S i) retrieved)
       (onfly_fail q
          (onfly_loop env matcher dataset_dir q skip_matches 0
             (take i retrieved) onfly_init) ts r)) ∧
  (∀ poses rthres res,
     outcome (pose_from_cluster_onfly_matching env matcher dataset_dir q
                skip_matches retrieved poses rthres) = Ok res →
     (q, r) ∈ or_failed res ∧
     ∀ rec, or_res_dict res = Some rec → i ∉ lr_indices_db rec).
Proof.
  intros Hr (ts & e & Htry)%view_raises_not_kept.
  assert (onfly_kept env matcher dataset_dir q skip_matches r = None) as Hkept.
  { unfold onfly_kept. by rewrite Htry. }
  destruct (onfly_not_kept env matcher dataset_dir q skip_matches retrieved
              i r Hr Hkept) as (Hfail & Hidx & Hnext).
  split_and!; [done..|].
  intros poses rthres res Hres.
  destruct (pose_from_cluster_onfly_matching_Ok _ _ _ _ _ _ _ _ _ Hres)
    as (-> & _ & _).
  split; [done|]. intros rec Hrec.
  destruct (pose_from_cluster_onfly_matching_Some _ _ _ _ _ _ _ _ _ _
              Hres Hrec) as (_ & _ & _ & _ & _ & -> & _).
  done.
Qed.

Lemma onfly_exception_is_contained_witness :
  (ex_q, ex_r2) ∈ of_failed (onfly_loop (ex_env_of shift_text) ex_matcher
                               ex_dir ex_q 2 0 [ex_r2; ex_r] onfly_init) ∧
  0 ∉ concat (all_indices (of_agg
        (onfly_loop (ex_env_of shift_text) ex_matcher ex_dir ex_q 2 0
           [ex_r2; ex_r] onfly_init))).
Proof.
  edestruct (onfly_exception_is_contained (ex_env_of shift_text) ex_matcher
               ex_dir ex_q 2 [ex_r2; ex_r] 0 ex_r2 eq_refl)
    as (Hfail & Hnot & _).
  - eapply (raises_loading _ _ _ _ _ _ _ FileNotFoundError).
    + reflexivity.
    + simpl. lia.
    + reflexivity.
  - split; [exact Hfail|exact Hnot].
Defined.

(** ** The per-query functions, forwards *)

Lemma lookup_or_Some {A : Type} (e : exn) (a : A) : lookup_or e (Some a) = Ok a.
Proof. done. Qed.

Lemma np_concatenate_ne {A : Type} (arrays : list (list A)) :
  arrays ≠ [] → np_concatenate arrays = Ok (concat arrays).
Proof. by destruct arrays. Qed.

Lemma agg_balanced_empty : agg_balanced agg_empty.
Proof. done. Qed.

Lemma agg_push_balanced (st : agg) (i : nat) (c : view) :
  agg_balanced st → agg_balanced (agg_push st i c).
Proof.
  intros (Hr & Hp & Hi & _). unfold agg_balanced. simpl.
  rewrite !length_app. simpl. split_and!; try lia.
  intros _. by destruct (all_mkpq st).
Qed.

Lemma agg_views_balanced (i : nat) (vs : list (option view)) (st : agg) :
  agg_balanced st → agg_balanced (agg_views i vs st).
Proof.
  revert i st. induction vs as [|[c|] vs IH]; intros i st Hst; simpl; [done|..].
  - by apply IH, agg_push_balanced.
  - by apply IH.
Qed.

Lemma agg_balanced_ne (st : agg) :
  agg_balanced st → all_mkpq st ≠ [] →
  all_mkpr st ≠ [] ∧ all_mkp3d st ≠ [] ∧ all_indices st ≠ [].
Proof.
  intros (Hr & Hp & Hi & _) Hne.
  destruct (all_mkpq st); [done|].
  destruct (all_mkpr st), (all_mkp3d st), (all_indices st); done.
Qed.

Lemma onfly_loop_balanced (env : Env) matcher (dataset_dir q : string)
    (skip_matches : Z) (retrieved : list string) :
  agg_balanced (of_agg (onfly_loop env matcher dataset_dir q skip_matches 0
                          retrieved onfly_init)).
Proof. rewrite onfly_loop_agg. apply agg_views_balanced, agg_balanced_empty. Qed.

Lemma cluster_loop_balanced (env : Env) (dataset_dir q : string) feature_file
    match_file skip (kpq : list kp2) (retrieved : list string) (st : agg) :
  cluster_loop env dataset_dir q feature_file match_file skip kpq 0 retrieved
    agg_empty = Ok st →
  agg_balanced st.
Proof.
  intros (vs & _ & ->)%cluster_loop_views.
  apply agg_views_balanced, agg_balanced_empty.
Qed.

(** The body of [pose_from_cluster_onfly_matching] after the loop, when
    some match was counted. *)
Lemma onfly_solve_step (env : Env) matcher (dataset_dir q : string)
    (skip_matches : Z) (retrieved : list string) (poses : pose_table)
    (rthres : f64) (height width : nat) :
  env_imread env (path_join dataset_dir q) = Some (height, width) →
  let st := onfly_loop env matcher dataset_dir q skip_matches 0 retrieved
              onfly_init in
  num_matches (of_agg st) ≠ 0 →
  pose_from_cluster_onfly_matching env matcher dataset_dir q skip_matches
    retrieved poses rthres =
  (ret ← solve env q (onfly_call (of_agg st) height width rthres);
   p ← quiet (pnp_pose ret);
   mret (OnflyResult
           (Some (LocRecord retrieved p (camera_cfg height width)
                    (concat (all_mkpq (of_agg st)))
                    (concat (all_mkpr (of_agg st)))
                    (concat (all_mkp3d (of_agg st)))
                    (concat (all_indices (of_agg st)))
                    (num_matches (of_agg st))))
           (of_failed st) (of_times st)
           (<[q := (qvec p, tvec p)]> poses))).
Proof.
  intros Him st Hnum. unfold pose_from_cluster_onfly_matching.
  rewrite Him, lookup_or_Some, quiet_bind. fold st.
  rewrite bool_decide_eq_false_2 by done.
  pose proof (onfly_loop_balanced env matcher dataset_dir q skip_matches
                retrieved) as Hbal.
  fold st in Hbal.
  assert (all_mkpq (of_agg st) ≠ []) as Hne by (by apply Hbal).
  destruct (agg_balanced_ne _ Hbal Hne) as (Hr & Hp & Hi).
  rewrite !np_concatenate_ne by done.
  by rewrite !quiet_bind.
Qed.

(** When no match was counted: no solver call, no record, [poses] as it
    was. *)
Lemma onfly_no_matches (env : Env) matcher (dataset_dir q : string)
    (skip_matches : Z) (retrieved : list string) (poses : pose_table)
    (rthres : f64) (height width : nat) :
  env_imread env (path_join dataset_dir q) = Some (height, width) →
  let st := onfly_loop env matcher dataset_dir q skip_matches 0 retrieved
              onfly_init in
  num_matches (of_agg st) = 0 →
  pose_from_cluster_onfly_matching env matcher dataset_dir q skip_matches
    retrieved poses rthres =
  Logged (Ok (OnflyResult None (of_failed st) (of_times st) poses)) [].
Proof.
  intros Him st Hnum. unfold pose_from_cluster_onfly_matching.
  rewrite Him, lookup_or_Some, quiet_bind. fold st.
  by rewrite bool_decide_eq_true_2.
Qed.

Lemma onfly_no_image (env : Env) matcher (dataset_dir q : string)
    (skip_matches : Z) (retrieved : list string) (poses : pose_table)
    (rthres : f64) :
  env_imread env (path_join dataset_dir q) = None →
  pose_from_cluster_onfly_matching env matcher dataset_dir q skip_matches
    retrieved poses rthres = Logged (Raise AttributeError) [].
Proof.
  intros Him. unfold pose_from_cluster_onfly_matching. by rewrite Him.
Qed.

(** The solver calls of one query in on-the-fly mode: none, or one, made
    for that query when some match was counted. *)
Lemma onfly_calls (env : Env) matcher (dataset_dir q : string)
    (skip_matches : Z) (retrieved : list string) (poses : pose_table)
    (rthres : f64) (q' : string) (c : solver_call) :
  (q', c) ∈ calls (pose_from_cluster_onfly_matching env matcher dataset_dir q
                     skip_matches retrieved poses rthres) →
  q' = q ∧
  num_matches (of_agg (onfly_loop env matcher dataset_dir q skip_matches 0
                         retrieved onfly_init)) ≠ 0.
Proof.
  destruct (env_imread env (path_join dataset_dir q)) as [[height width]|]
    eqn:Him.
  2: { rewrite onfly_no_image by done. by intros ?%elem_of_nil. }
  destruct (decide (num_matches (of_agg (onfly_loop env matcher dataset_dir q
              skip_matches 0 retrieved onfly_init)) = 0)) as [Hnum|Hnum].
  { rewrite (onfly_no_matches _ _ _ _ _ _ _ _ height width) by done.
    by intros ?%elem_of_nil. }
  rewrite (onfly_solve_step _ _ _ _ _ _ _ _ height width) by done.
  rewrite calls_bind. simpl.
  destruct (env_solver env _) as [ret|e]; simpl.
  - rewrite calls_bind. simpl. destruct (pnp_pose ret); simpl;
      by intros [= -> ->]%list_elem_of_singleton.
  - by intros [= -> ->]%list_elem_of_singleton.
Qed.

(** A solver that produces no pose makes the per-query function raise,
    after one call. *)
Lemma onfly_solver_fails (env : Env) matcher (dataset_dir q : string)
    (skip_matches : Z) (retrieved : list string) (poses : pose_table)
    (rthres : f64) (height width : nat) :
  env_imread env (path_join dataset_dir q) = Some (height, width) →
  let st := onfly_loop env matcher dataset_dir q skip_matches 0 retrieved
              onfly_init in
  num_matches (of_agg st) ≠ 0 →
  solver_fails env (onfly_call (of_agg st) height width rthres) →
  ∃ e, pose_from_cluster_onfly_matching env matcher dataset_dir q
         skip_matches retrieved poses rthres =
       Logged (Raise e) [(q, onfly_call (of_agg st) height width rthres)].
Proof.
  intros Him st Hnum Hfail.
  rewrite (onfly_solve_step _ _ _ _ _ _ _ _ height width) by done.
  fold st. unfold solve, mbind, logged_bind. simpl.
  destruct Hfail as [-> | [e ->]]; simpl; by eexists.
Qed.

(** ** [localize_with_matcher] *)

Lemma logged_Ok_bind {A B : Type} (a : A) (k : A → logged B) :
  Logged (Ok a) [] ≫= k = k a.
Proof. apply quiet_bind. Qed.

Lemma logged_Raise_bind {A B : Type} (e : exn) cs (k : A → logged B) :
  Logged (Raise e) cs ≫= k = Logged (Raise e) cs.
Proof. done. Qed.

Lemma localize_step_calls (env : Env) matcher (dataset_dir : string)
    (rthres : f64) (skip_matches : Z) (st : run_state) (q : string)
    (retrieved : list string) :
  calls (localize_step env matcher dataset_dir rthres skip_matches st q
           retrieved) =
  calls (pose_from_cluster_onfly_matching env matcher dataset_dir q
           skip_matches retrieved (rs_poses st) rthres).
Proof.
  unfold localize_step. rewrite calls_bind.
  destruct (outcome _); simpl; by rewrite app_nil_r.
Qed.

Lemma localize_step_Ok (env : Env) matcher (dataset_dir : string)
    (rthres : f64) (skip_matches : Z) (st st' : run_state) (q : string)
    (retrieved : list string) :
  outcome (localize_step env matcher dataset_dir rthres skip_matches st q
             retrieved) = Ok st' →
  ∃ res,
    outcome (pose_from_cluster_onfly_matching env matcher dataset_dir q
               skip_matches retrieved (rs_poses st) rthres) = Ok res ∧
    rs_poses st' = or_poses res ∧
    rs_loc st' = <[q := or_res_dict res]> (rs_loc st) ∧
    rs_failed st' = rs_failed st ++ or_failed res.
Proof.
  unfold localize_step.
  intros (res & Hres & [= <-])%outcome_bind_Ok. by exists res.
Qed.

(** A query without a counted match leaves the loop over the queries in
    the state [run_unlocalized], and the loop goes on. *)
Lemma localize_loop_unlocalized (env : Env) matcher (dataset_dir : string)
    (rthres : f64) (skip_matches : Z) (st : run_state) (q : string)
    (retrieved : list string) (rest : list (string * list string))
    (height width : nat) :
  env_imread env (path_join dataset_dir q) = Some (height, width) →
  num_matches (of_agg (onfly_loop env matcher dataset_dir q skip_matches 0
                         retrieved onfly_init)) = 0 →
  localize_loop env matcher dataset_dir rthres skip_matches
    ((q, retrieved) :: rest) st =
  localize_loop env matcher dataset_dir rthres skip_matches rest
    (run_unlocalized st q
       (of_failed (onfly_loop env matcher dataset_dir q skip_matches 0
                     retrieved onfly_init))
       (of_times (onfly_loop env matcher dataset_dir q skip_matches 0
                    retrieved onfly_init))).
Proof.
  intros Him Hnum. simpl. unfold localize_step.
  rewrite (onfly_no_matches _ _ _ _ _ _ _ _ height width) by done.
  rewrite logged_Ok_bind. simpl.
  apply (logged_Ok_bind _ (localize_loop env matcher dataset_dir rthres
                             skip_matches rest)).
Qed.

(** Every solver call of the loop over the queries is made for a query of
    the dictionary that counted some match. *)
Lemma localize_loop_calls (env : Env) matcher (dataset_dir : string)
    (rthres : f64) (skip_matches : Z) (dict : list (string * list string))
    (st : run_state) (q : string) (c : solver_call) :
  (q, c) ∈ calls (localize_loop env matcher dataset_dir rthres skip_matches
                    dict st) →
  ∃ retrieved,
    (q, retrieved) ∈ dict ∧
    num_matches (of_agg (onfly_loop env matcher dataset_dir q skip_matches 0
                           retrieved onfly_init)) ≠ 0.
Proof.
  revert st. induction dict as [|[q1 retrieved] rest IH]; intros st; simpl.
  { by intros ?%elem_of_nil. }
  rewrite calls_bind, localize_step_calls, elem_of_app.
  intros [Hc | Hc].
  - apply onfly_calls in Hc as [-> Hnum].
    exists retrieved. split; [apply elem_of_cons; by left|done].
  - destruct (outcome _) as [st'|]; [|by apply elem_of_nil in Hc].
    apply IH in Hc as (retrieved' & Hin & Hnum).
    exists retrieved'. split; [apply elem_of_cons; by right|done].
Qed.

(** A query whose every entry counts no match is never given a pose and,
    once met, has the record [None]. *)
Lemma localize_loop_unlocalized_end (env : Env) matcher (dataset_dir : string)
    (rthres : f64) (skip_matches : Z) (dict : list (string * list string))
    (st st' : run_state) (q : string) :
  (∀ retrieved, (q, retrieved) ∈ dict →
     num_matches (of_agg (onfly_loop env matcher dataset_dir q skip_matches 0
                            retrieved onfly_init)) = 0) →
  outcome (localize_loop env matcher dataset_dir rthres skip_matches dict st)
    = Ok st' →
  (rs_poses st !! q = None → rs_poses st' !! q = None) ∧
  (q ∈ dict.*1 ∨ rs_loc st !! q = Some None → rs_loc st' !! q = Some None).
Proof.
  revert st. induction dict as [|[q1 retrieved] rest IH]; intros st Hzero; simpl.
  { intros [= <-]. split; [done|].
    intros [?%elem_of_nil|?]; done. }
  intros (st1 & Hstep & Hloop)%outcome_bind_Ok.
  apply localize_step_Ok in Hstep as (res & Hres & Hposes & Hloc & _).
  destruct (IH st1) as [IHposes IHloc]; [|done|].
  { intros retrieved' Hin. apply Hzero, elem_of_cons. by right. }
  assert (q1 = q → or_res_dict res = None ∧ or_poses res = rs_poses st)
    as Hsame.
  { intros ->.
    destruct (or_res_dict res) as [rec|] eqn:Hrec.
    - destruct (pose_from_cluster_onfly_matching_Some _ _ _ _ _ _ _ _ _ _
                  Hres Hrec) as (Hnum & _).
      destruct Hnum. apply Hzero, elem_of_cons. by left.
    - split; [done|].
      by destruct (pose_from_cluster_onfly_matching_Ok _ _ _ _ _ _ _ _ _ Hres)
        as (_ & _ & Hnone); destruct (Hnone Hrec). }
  split.
  - intros Hq. apply IHposes. rewrite Hposes.
    destruct (decide (q1 = q)) as [Heq|Hne].
    + destruct (Hsame Heq) as [_ ->]. done.
    + destruct (or_res_dict res) as [rec|] eqn:Hrec.
      * destruct (pose_from_cluster_onfly_matching_Some _ _ _ _ _ _ _ _ _ _
                    Hres Hrec) as (_ & _ & _ & _ & _ & _ & _ & _ & -> & _).
        by rewrite lookup_insert_ne.
      * destruct (pose_from_cluster_onfly_matching_Ok _ _ _ _ _ _ _ _ _ Hres)
          as (_ & _ & Hnone). by destruct (Hnone Hrec) as [_ ->].
  - intros Hq. apply IHloc. rewrite Hloc.
    destruct (decide (q1 = q)) as [Heq|Hne].
    + right. destruct (Hsame Heq) as [-> _]. subst. by rewrite lookup_insert_eq.
    + destruct Hq as [Hq|Hq].
      * left. rewrite ?fmap_cons in Hq. simpl in Hq.
        apply elem_of_cons in Hq as [Hq|Hq]; [congruence|done].
      * right. by rewrite lookup_insert_ne.
Qed.

Lemma write_localized_skip (queries : list string) (poses : pose_table)
    (q : string) :
  poses !! q = None →
  write_localized queries poses =
  write_localized (filter (λ q', q' ≠ q) queries) poses.
Proof.
  intros Hq. induction queries as [|q1 queries IH]; [done|].
  rewrite filter_cons. simpl. destruct (decide (q1 ≠ q)) as [Hne|Heq].
  - simpl. by rewrite IH.
  - apply dec_stable in Heq as ->. by rewrite Hq.
Qed.

(** C1, as stated, fails.  On the fly: the single match of each view has
    no depth, so the aggregate holds no valid 2D-3D correspondence, and the
    solver is invoked all the same, on empty arrays; it finds no pose and
    the run stops there.  With precomputed matches: every view is below the
    threshold, nothing is aggregated, and [np.concatenate] raises: the run
    stops, the query is not recorded and the next query is not processed. *)
Lemma zero_correspondences_still_solved :
  concat (all_mkp3d (of_agg
    (onfly_loop (ex_env_run ex_solver) ex_matcher_hole ex_dir ex_q 1 0
       [ex_r2; ex_r] onfly_init))) = [] ∧
  localize_with_matcher (ex_env_run ex_solver) ex_matcher_hole ex_dir
    (f64_of_Z 48) 1 "pairs.txt" =
  Logged (Raise KeyError)
    [(ex_q, SolverCall [] [] (camera_cfg 3024 4032) (f64_of_Z 48))] ∧
  main (ex_env_run ex_solver) ex_dir "pairs.txt" "feats.h5" "matches.h5"
    (Some 3%Z) = Logged (Raise ValueError) [].
Proof. split_and!; by_compute. Qed.

(** C1, amended: in on-the-fly mode, a query for which no raw match was
    counted over its reference views ([num_matches == 0]) is not handed to
    the solver, gets the record [None] in the log, leaves [poses]
    untouched, and the loop goes on with the next query; when the run ends,
    the pose file holds no line for it. *)
Theorem onfly_no_matches_not_solved (env : Env)
    (matcher : string → string → result match_rows) (dataset_dir : string)
    (rthres : f64) (skip_matches : Z) (q : string) :
  (∀ retrieved poses,
     is_Some (env_imread env (path_join dataset_dir q)) →
     num_matches (of_agg (onfly_loop env matcher dataset_dir q skip_matches 0
                            retrieved onfly_init)) = 0 →
     (∃ failed times,
        pose_from_cluster_onfly_matching env matcher dataset_dir q
          skip_matches retrieved poses rthres =
        Logged (Ok (OnflyResult None failed times poses)) []) ∧
     ∀ st rest, ∃ failed times,
       localize_loop env matcher dataset_dir rthres skip_matches
         ((q, retrieved) :: rest) st =
       localize_loop env matcher dataset_dir rthres skip_matches rest
         (run_unlocalized st q failed times)) ∧
  (∀ retrieval_pairs,
     q ∈ (env_parse_retrieval env retrieval_pairs).*1 →
     (∀ retrieved,
        (q, retrieved) ∈ env_parse_retrieval env retrieval_pairs →
        num_matches (of_agg (onfly_loop env matcher dataset_dir q
                               skip_matches 0 retrieved onfly_init)) = 0) →
     (∀ c, (q, c) ∉ calls (localize_with_matcher env matcher dataset_dir
                             rthres skip_matches retrieval_pairs)) ∧
     ∀ out,
       outcome (localize_with_matcher env matcher dataset_dir rthres
                  skip_matches retrieval_pairs) = Ok out →
       out_loc out !! q = Some None ∧
       ∃ poses,
         poses !! q = None ∧
         out_lines out =
           write_localized
             (filter (λ q', q' ≠ q)
                (env_parse_retrieval env retrieval_pairs).*1) poses).
Proof.
  split.
  - intros retrieved poses [[height width] Him] Hnum. split.
    + eexists _, _. by apply (onfly_no_matches _ _ _ _ _ _ _ _ height width).
    + intros st rest. eexists _, _.
      by apply (localize_loop_unlocalized _ _ _ _ _ _ _ _ _ height width).
  - intros retrieval_pairs Hq Hzero. split.
    + intros c Hc. unfold localize_with_matcher in Hc.
      rewrite calls_bind in Hc. apply elem_of_app in Hc as [Hc|Hc].
      * apply localize_loop_calls in Hc as (retrieved & Hin & Hnum).
        by apply Hnum, Hzero.
      * destruct (outcome _); by apply elem_of_nil in Hc.
    + intros out Hout. unfold localize_with_matcher in Hout.
      apply outcome_bind_Ok in Hout as (st & Hloop & [= <-]). simpl.
      destruct (localize_loop_unlocalized_end _ _ _ _ _ _ _ _ q Hzero Hloop)
        as [Hposes Hloc].
      split; [by apply Hloc; left|].
      exists (rs_poses st). split; [by apply Hposes|].
      by apply write_localized_skip, Hposes.
Qed.

Lemma onfly_no_matches_not_solved_witness :
  (∀ c, (ex_q, c) ∉ calls (localize_with_matcher (ex_env_run ex_solver)
                             ex_matcher_q ex_dir (f64_of_Z 48) 2 "pairs.txt")) ∧
  ∀ out,
    outcome (localize_with_matcher (ex_env_run ex_solver) ex_matcher_q ex_dir
               (f64_of_Z 48) 2 "pairs.txt") = Ok out →
    out_loc out !! ex_q = Some None ∧
    ∃ poses,
      poses !! ex_q = None ∧
      out_lines out = write_localized [ex_q2] poses.
Proof.
  apply (proj2 (onfly_no_matches_not_solved (ex_env_run ex_solver)
                  ex_matcher_q ex_dir (f64_of_Z 48) 2 ex_q) "pairs.txt").
  - apply elem_of_cons. by left.
  - intros retrieved Hin. simpl in Hin. unfold ex_dict2 in Hin.
    apply elem_of_cons in Hin as [Heq|Hin].
    + injection Heq as ->. reflexivity.
    + apply elem_of_cons in Hin as [Heq|Hin]; [discriminate Heq|].
      by apply elem_of_nil in Hin.
Defined.

(** ** Solver failures *)

Lemma localize_loop_solver_fails (env : Env) matcher (dataset_dir : string)
    (rthres : f64) (skip_matches : Z) (q : string) (retrieved : list string)
    (height width : nat) :
  env_imread env (path_join dataset_dir q) = Some (height, width) →
  num_matches (of_agg (onfly_loop env matcher dataset_dir q skip_matches 0
                         retrieved onfly_init)) ≠ 0 →
  solver_fails env
    (onfly_call (of_agg (onfly_loop env matcher dataset_dir q skip_matches 0
                           retrieved onfly_init)) height width rthres) →
  ∃ e, ∀ st rest,
    localize_loop env matcher dataset_dir rthres skip_matches
      ((q, retrieved) :: rest) st =
    Logged (Raise e)
      [(q, onfly_call (of_agg (onfly_loop env matcher dataset_dir q
                                 skip_matches 0 retrieved onfly_init))
             height width rthres)].
Proof.
  intros Him Hnum Hfail.
  assert (∃ e, ∀ poses,
            pose_from_cluster_onfly_matching env matcher dataset_dir q
              skip_matches retrieved poses rthres =
            Logged (Raise e)
              [(q, onfly_call (of_agg (onfly_loop env matcher dataset_dir q
                                         skip_matches 0 retrieved onfly_init))
                     height width rthres)]) as [e He].
  { destruct Hfail as [Hnone | [e He]].
    - exists KeyError. intros poses.
      rewrite (onfly_solve_step _ _ _ _ _ _ _ _ height width) by done.
      unfold solve, mbind, logged_bind. simpl. by rewrite Hnone.
    - exists e. intros poses.
      rewrite (onfly_solve_step _ _ _ _ _ _ _ _ height width) by done.
      unfold solve, mbind, logged_bind. simpl. by rewrite He. }
  exists e. intros st rest. simpl. unfold localize_step. by rewrite He.
Qed.

Lemma localize_loop_raises_app (env : Env) matcher (dataset_dir : string)
    (rthres : f64) (skip_matches : Z) (pre post : list (string * list string))
    (st : run_state) :
  (∀ st', is_Raise (outcome (localize_loop env matcher dataset_dir rthres
                               skip_matches post st'))) →
  is_Raise (outcome (localize_loop env matcher dataset_dir rthres skip_matches
                       (pre ++ post) st)).
Proof.
  intros Hpost. revert st.
  induction pre as [|[q retrieved] pre IH]; intros st; simpl; [done|].
  rewrite outcome_bind.
  destruct (outcome (localize_step _ _ _ _ _ _ _ _)) as [st'|e]; simpl.
  - apply IH.
  - by exists e.
Qed.

(** The body of [pose_from_cluster] after the loop, when some view was
    kept. *)
Lemma cluster_solve_step (env : Env) (dataset_dir q : string) feature_file
    match_file skip (retrieved : list string) (height width : nat)
    (kpq : list kp2) (st : agg) :
  env_imread env (path_join dataset_dir q) = Some (height, width) →
  feature_file q = Some kpq →
  cluster_loop env dataset_dir q feature_file match_file skip kpq 0 retrieved
    agg_empty = Ok st →
  all_mkpq st ≠ [] →
  pose_from_cluster env dataset_dir q feature_file match_file skip retrieved =
  (ret ← solve env q (cluster_call st height width);
   mret (ClusterResult ret (camera_cfg height width)
           (concat (all_mkpq st)) (concat (all_mkpr st))
           (concat (all_mkp3d st)) (concat (all_indices st))
           (num_matches st))).
Proof.
  intros Him Hkpq Hloop Hne. unfold pose_from_cluster.
  rewrite Him, lookup_or_Some, quiet_bind.
  rewrite Hkpq, lookup_or_Some, quiet_bind.
  rewrite Hloop, quiet_bind.
  destruct (agg_balanced_ne st) as (Hr & Hp & Hi);
    [by eapply cluster_loop_balanced|done|].
  rewrite !np_concatenate_ne by done.
  by rewrite !quiet_bind.
Qed.

Lemma main_loop_solver_fails (env : Env) (dataset_dir q : string) feature_file
    match_file skip (db : list string) (height width : nat)
    (kpq : list kp2) (st : agg) :
  env_imread env (path_join dataset_dir q) = Some (height, width) →
  feature_file q = Some kpq →
  cluster_loop env dataset_dir q feature_file match_file skip kpq 0 db
    agg_empty = Ok st →
  all_mkpq st ≠ [] →
  solver_fails env (cluster_call st height width) →
  ∃ e, ∀ ms rest,
    main_loop env dataset_dir feature_file match_file skip ((q, db) :: rest) ms
    = Logged (Raise e) [(q, cluster_call st height width)].
Proof.
  intros Him Hkpq Hloop Hne Hfail.
  assert (∃ e, ∀ ms,
            main_step env dataset_dir feature_file match_file skip ms q db =
            Logged (Raise e) [(q, cluster_call st height width)]) as [e He].
  { destruct Hfail as [Hnone | [e He]].
    - exists KeyError. intros ms. unfold main_step.
      rewrite (cluster_solve_step _ _ _ _ _ _ _ height width kpq st) by done.
      unfold solve, mbind, logged_bind. simpl. by rewrite Hnone.
    - exists e. intros ms. unfold main_step.
      rewrite (cluster_solve_step _ _ _ _ _ _ _ height width kpq st) by done.
      unfold solve, mbind, logged_bind. simpl. by rewrite He. }
  exists e. intros ms rest. simpl. by rewrite He.
Qed.

Lemma main_loop_raises_app (env : Env) (dataset_dir : string) feature_file
    match_file skip (pre post : list (string * list string)) ms :
  (∀ ms', is_Raise (outcome (main_loop env dataset_dir feature_file match_file
                               skip post ms'))) →
  is_Raise (outcome (main_loop env dataset_dir feature_file match_file skip
                       (pre ++ post) ms)).
Proof.
  intros Hpost. revert ms.
  induction pre as [|[q db] pre IH]; intros ms; simpl; [done|].
  rewrite outcome_bind.
  destruct (outcome (main_step _ _ _ _ _ _ _ _)) as [ms'|e]; simpl.
  - apply IH.
  - by exists e.
Qed.

Lemma is_Raise_bind {A B : Type} (m : logged A) (k : A → logged B) :
  (is_Raise (outcome m) ∨ ∀ a, is_Raise (outcome (k a))) →
  is_Raise (outcome (m ≫= k)).
Proof.
  intros H. rewrite outcome_bind.
  destruct (outcome m) as [a|e] eqn:Hm; simpl.
  - destruct H as [[e ?]|H]; [done|apply H].
  - by exists e.
Qed.

(** C5, as stated, fails: two queries, a solver that finds no pose (first
    two runs) or raises (third run).  The failure on the first query ends
    the run with an exception: no log and no pose file are produced, so the
    first query is not recorded, and the second query is never processed
    (the only solver call is for the first).  With a solver that succeeds,
    both queries are processed. *)
Lemma solver_failure_stops_the_run :
  (let run := localize_with_matcher (ex_env_run no_pose_solver) ex_matcher
                ex_dir (f64_of_Z 48) 2 "pairs.txt" in
   outcome run = Raise KeyError ∧ (calls run).*1 = [ex_q]) ∧
  (let run := main (ex_env_run no_pose_solver) ex_dir "pairs.txt" "feats.h5"
                "matches.h5" None in
   outcome run = Raise KeyError ∧ (calls run).*1 = [ex_q]) ∧
  (let run := main (ex_env_run raising_solver) ex_dir "pairs.txt" "feats.h5"
                "matches.h5" None in
   outcome run = Raise RuntimeError ∧ (calls run).*1 = [ex_q]) ∧
  (let run := localize_with_matcher (ex_env_run ex_solver) ex_matcher
                ex_dir (f64_of_Z 48) 2 "pairs.txt" in
   (calls run).*1 = [ex_q; ex_q2]).
Proof. cbv zeta. split_and!; by_compute. Qed.

(** C5, amended: when the solver produces no pose for a query that reached
    it (it raises, or its dictionary has no ['qvec']), the exception leaves
    the per-query function after that single call, nothing catches it in
    the loop over the queries, and the run ends with it: the loop stops at
    that query whatever queries remain, and neither orchestrator returns an
    output. *)
Theorem solver_failure_aborts_run (env : Env) (dataset_dir q : string)
    (retrieved : list string) (height width : nat) :
  env_imread env (path_join dataset_dir q) = Some (height, width) →
  (∀ matcher skip_matches rthres,
     num_matches (onfly_agg env matcher dataset_dir q skip_matches retrieved)
       ≠ 0 →
     solver_fails env
       (onfly_call (onfly_agg env matcher dataset_dir q skip_matches retrieved)
          height width rthres) →
     ∃ e,
       (∀ st rest,
          localize_loop env matcher dataset_dir rthres skip_matches
            ((q, retrieved) :: rest) st =
          Logged (Raise e)
            [(q, onfly_call
                   (onfly_agg env matcher dataset_dir q skip_matches retrieved)
                   height width rthres)]) ∧
       (∀ retrieval_pairs,
          (q, retrieved) ∈ env_parse_retrieval env retrieval_pairs →
          is_Raise (outcome (localize_with_matcher env matcher dataset_dir
                               rthres skip_matches retrieval_pairs)))) ∧
  (∀ features matches skip kpq st,
     env_h5_keypoints env features q = Some kpq →
     cluster_loop env dataset_dir q (env_h5_keypoints env features)
       (env_h5_matches0 env matches) skip kpq 0 retrieved agg_empty = Ok st →
     all_mkpq st ≠ [] →
     solver_fails env (cluster_call st height width) →
     ∃ e,
       (∀ ms rest,
          main_loop env dataset_dir (env_h5_keypoints env features)
            (env_h5_matches0 env matches) skip ((q, retrieved) :: rest) ms =
          Logged (Raise e) [(q, cluster_call st height width)]) ∧
       (∀ retrieval,
          (q, retrieved) ∈ env_parse_retrieval env retrieval →
          is_Raise (outcome (main env dataset_dir retrieval features matches
                               skip)))).
Proof.
  intros Him. split.
  - intros matcher skip_matches rthres Hnum Hfail.
    destruct (localize_loop_solver_fails env matcher dataset_dir rthres
                skip_matches q retrieved height width Him Hnum Hfail)
      as [e He].
    exists e. split; [exact He|].
    intros retrieval_pairs Hin.
    apply list_elem_of_split in Hin as (pre & post & Hdict).
    unfold localize_with_matcher. rewrite Hdict.
    apply is_Raise_bind. left.
    apply localize_loop_raises_app. intros st'. rewrite He. by exists e.
  - intros features matches skip kpq st Hkpq Hloop Hne Hfail.
    destruct (main_loop_solver_fails env dataset_dir q _ _ skip retrieved
                height width kpq st Him Hkpq Hloop Hne Hfail) as [e He].
    exists e. split; [exact He|].
    intros retrieval Hin.
    apply list_elem_of_split in Hin as (pre & post & Hdict).
    unfold main.
    do 3 (apply is_Raise_bind; right; intros _).
    rewrite Hdict. apply is_Raise_bind. left.
    apply main_loop_raises_app. intros ms'. rewrite He. by exists e.
Qed.

Lemma solver_failure_aborts_run_witness :
  is_Raise (outcome (localize_with_matcher (ex_env_run no_pose_solver)
                       ex_matcher ex_dir (f64_of_Z 48) 2 "pairs.txt")) ∧
  is_Raise (outcome (main (ex_env_run raising_solver) ex_dir "pairs.txt"
                       "feats.h5" "matches.h5" None)).
Proof.
  split.
  - edestruct (proj1 (solver_failure_aborts_run (ex_env_run no_pose_solver)
                        ex_dir ex_q [ex_r2; ex_r] 3024 4032 eq_refl)
                 ex_matcher 2%Z (f64_of_Z 48)) as (e & _ & Hrun).
    + by vm_compute.
    + left. reflexivity.
    + apply (Hrun "pairs.txt"). apply elem_of_cons. by left.
  - edestruct (proj2 (solver_failure_aborts_run (ex_env_run raising_solver)
                        ex_dir ex_q [ex_r2; ex_r] 3024 4032 eq_refl)
                 "feats.h5" "matches.h5" None) as (e & _ & Hrun).
    + reflexivity.
    + vm_compute. reflexivity.
    + by vm_compute.
    + right. by exists RuntimeError.
    + apply (Hrun "pairs.txt"). apply elem_of_cons. by left.
Defined.

(** * Further properties of the code *)

(** ** [interpolate_scan]: the validity flags *)

Lemma point_valid_chan (p : vec3) :
  point_valid p = false ↔ ∃ c, isnan (chan c p) = true.
Proof.
  destruct p as [[x y] z]. unfold point_valid, vec3_any. simpl. split.
  - intros H. apply negb_false_iff in H.
    apply orb_true_iff in H as [H|H]; [apply orb_true_iff in H as [H|H]|].
    + by exists CX.
    + by exists CY.
    + by exists CZ.
  - intros [[] H]; simpl in H; rewrite H; simpl;
      rewrite ?orb_true_r; done.
Qed.

Lemma where_nan_isnan (lin nn : f64) :
  isnan (where_nan lin nn) = isnan lin && isnan nn.
Proof. unfold where_nan. by destruct lin, nn. Qed.

(** X1: the validity flag of a keypoint is computed from the selected
    sample, and it is false exactly when some channel is NaN in the bilinear
    sample and in the nearest-neighbour sample. *)
Theorem interpolate_scan_valid_flag (env : Env) (s : scan) (kp : list kp2)
    (kp3d : list vec3) (valid : list bool) :
  interpolate_scan env s kp = Ok (kp3d, valid) →
  ∀ (n : nat) (k : kp2), kp !! n = Some k →
    ∃ p, kp3d !! n = Some p ∧ valid !! n = Some (point_valid p) ∧
      (point_valid p = false ↔
       ∃ c, isnan (chan c (grid_sample_bilinear env s (normalize_kp s k))) = true ∧
            isnan (chan c (grid_sample_nearest env s (normalize_kp s k))) = true).
Proof.
  intros (_ & -> & ->)%interpolate_scan_Ok n k Hk.
  exists (select_sample (grid_sample_bilinear env s (normalize_kp s k))
            (grid_sample_nearest env s (normalize_kp s k))).
  assert (zip_with select_sample
            (grid_sample_bilinear env s <$> (normalize_kp s <$> kp))
            (grid_sample_nearest env s <$> (normalize_kp s <$> kp)) !! n =
          Some (select_sample (grid_sample_bilinear env s (normalize_kp s k))
                  (grid_sample_nearest env s (normalize_kp s k)))) as Hn.
  { apply lookup_zip_with_Some. do 2 eexists. split; [done|].
    rewrite !list_lookup_fmap, Hk. done. }
  split; [done|]. split.
  - by rewrite list_lookup_fmap, Hn.
  - rewrite point_valid_chan. split.
    + intros [c Hc]. exists c.
      rewrite chan_select_sample, where_nan_isnan in Hc.
      by apply andb_true_iff in Hc.
    + intros [c [H1 H2]]. exists c.
      by rewrite chan_select_sample, where_nan_isnan, H1, H2.
Qed.

Lemma interpolate_scan_valid_flag_witness :
  ∃ p, [(f64_of_Z 0, f64_of_Z 0, f64_of_Z 7); (f64_of_Z 1, f64_of_Z 2, f64_of_Z 7);
        vec3_nan; (fq 3 2, fq 1 2, f64_of_Z 7)] !! 2 = Some p ∧
       [true; true; false; true] !! 2 = Some (point_valid p) ∧
    (point_valid p = false ↔
     ∃ c, isnan (chan c (grid_sample_bilinear (ex_env_of shift_text) ex_scan
                           (normalize_kp ex_scan (fq 1 1, fq 1 4)))) = true ∧
          isnan (chan c (grid_sample_nearest (ex_env_of shift_text) ex_scan
                           (normalize_kp ex_scan (fq 1 1, fq 1 4)))) = true).
Proof.
  apply (interpolate_scan_valid_flag (ex_env_of shift_text) ex_scan ex_kp) with (n := 2).
  - by_compute.
  - reflexivity.
Defined.

(** ** [interpolate_scan] on a scan of one pixel *)

(** X3: a scan that is one pixel wide or one pixel high accepts no
    keypoint: the normalisation divides by zero and the assertion fails. *)
Theorem interpolate_scan_one_pixel (env : Env) (s : scan) (kp : list kp2) :
  scan_w s = 1 ∨ scan_h s = 1 → kp ≠ [] →
  interpolate_scan env s kp = Raise AssertionError.
Proof.
  intros Hdim Hkp. destruct kp as [|p kp]; [done|].
  unfold interpolate_scan.
  rewrite (kp_in_bounds_false _ (normalize_kp s p)); [done| |].
  - rewrite fmap_cons. apply elem_of_cons. by left.
  - unfold normalize_kp. simpl.
    destruct Hdim as [-> | ->]; [left|right]; apply normalize_coord_one_pixel.
Qed.

Lemma interpolate_scan_one_pixel_witness :
  interpolate_scan (ex_env_of shift_text) (Scan 1 3 (λ _ _, vec3_zero)) [(fq 1 2, f64_of_Z 0)]
  = Raise AssertionError.
Proof.
  apply (interpolate_scan_one_pixel (ex_env_of shift_text)
           (Scan 1 3 (λ _ _, vec3_zero))).
  - right. reflexivity.
  - discriminate.
Defined.

(** ** [str.split] and the components of a path *)

Lemma split_on_ne (sep : ascii) (s : string) : split_on sep s ≠ [].
Proof.
  destruct s as [|c s]; [done|]. simpl.
  destruct (bool_decide (c = sep)); [done|].
  by destruct (split_on sep s).
Qed.

Lemma split_on_length (s : string) :
  length (split_on "/" s) = S (count_slash s).
Proof.
  induction s as [|c s IH]; [done|]. simpl.
  destruct (bool_decide (c = "/"%char)); simpl; [by rewrite IH|].
  destruct (split_on "/" s); simpl in *; lia.
Qed.

Lemma split_on_no_slash (s : string) :
  no_slash s → split_on "/" s = [s].
Proof.
  unfold no_slash. induction s as [|c s IH]; [done|]. simpl.
  destruct (bool_decide (c = "/"%char)); [done|].
  intros H. by rewrite IH.
Qed.

Lemma split_on_path_join (a b : string) :
  split_on "/" (path_join a b) = split_on "/" a ++ split_on "/" b.
Proof.
  unfold path_join. induction a as [|c a IH]; [done|].
  change (String c a +:+ "/" +:+ b) with (String c (a +:+ "/" +:+ b)).
  cbn [split_on]. rewrite IH.
  destruct (bool_decide (c = "/"%char)); [done|].
  pose proof (split_on_ne "/" a).
  by destruct (split_on "/" a).
Qed.

Lemma split_on_cutout_path (top floor_name scan_id image_name : string) :
  no_slash floor_name → no_slash scan_id → no_slash image_name →
  split_on "/" (cutout_path top floor_name scan_id image_name) =
  split_on "/" top ++ [floor_name; scan_id; image_name].
Proof.
  intros Hf Hs Hi. unfold cutout_path.
  rewrite !split_on_path_join.
  rewrite (split_on_no_slash floor_name), (split_on_no_slash scan_id),
    (split_on_no_slash image_name) by done.
  by rewrite <- !(assoc_L (++)).
Qed.

Lemma transform_file_cutout_path (dataset_dir top floor_name scan_id image_name
    : string) :
  no_slash floor_name → no_slash scan_id → no_slash image_name →
  transform_file dataset_dir (cutout_path top floor_name scan_id image_name) =
  Some (transform_path dataset_dir floor_name
          (String.substring 0 3 image_name) scan_id).
Proof.
  intros Hf Hs Hi. unfold transform_file.
  rewrite split_on_cutout_path by done.
  by rewrite reverse_app.
Qed.

(** X5: the transform of a reference image is looked up by the floor, the
    scan and the first three characters of the image name alone: the
    directories above the floor and the rest of the image name play no
    part, so all the images cut from one scan share one transform. *)
Theorem get_scan_pose_same_scan (env : Env) (dataset_dir : string)
    (top top' floor_name scan_id image_name image_name' : string) :
  no_slash floor_name → no_slash scan_id →
  no_slash image_name → no_slash image_name' →
  String.substring 0 3 image_name = String.substring 0 3 image_name' →
  get_scan_pose env dataset_dir
    (cutout_path top floor_name scan_id image_name) =
  get_scan_pose env dataset_dir
    (cutout_path top' floor_name scan_id image_name').
Proof.
  intros Hf Hs Hi Hi' Hb.
  rewrite !(get_scan_pose_path env dataset_dir _
              (transform_path dataset_dir floor_name
                 (String.substring 0 3 image_name) scan_id)); [done|..].
  - rewrite Hb. by apply transform_file_cutout_path.
  - by apply transform_file_cutout_path.
Qed.

Lemma get_scan_pose_same_scan_witness :
  get_scan_pose (ex_env_of shift_text) ex_dir
    (cutout_path "cutouts" "DUC1" "024" "DUC_cutout_024_0_0.jpg") =
  get_scan_pose (ex_env_of shift_text) ex_dir
    (cutout_path "other/top" "DUC1" "024" "DUC_cutout_024_330_-30.jpg").
Proof.
  by apply (get_scan_pose_same_scan (ex_env_of shift_text) ex_dir).
Defined.

(** X6: a reference path with fewer than two ["/"] has no floor
    component: the call raises [IndexError] before it touches the file
    system. *)
Theorem get_scan_pose_short_path (env : Env) (dataset_dir rpath : string) :
  count_slash rpath < 2 →
  get_scan_pose env dataset_dir rpath = Raise IndexError.
Proof.
  intros Hn. unfold get_scan_pose, index_from_end.
  rewrite split_on_length.
  by rewrite (bool_decide_eq_false_2 (3 ≤ S (count_slash rpath))) by lia.
Qed.

Lemma get_scan_pose_short_path_witness :
  get_scan_pose (ex_env_of shift_text) ex_dir "024/DUC_cutout_024_0_0.jpg"
  = Raise IndexError.
Proof.
  apply (get_scan_pose_short_path (ex_env_of shift_text) ex_dir).
  simpl. lia.
Defined.

(** ** The name written to the pose file *)

(** X7: the name written for a query is its last path component: the
    directory of the query is dropped, so two queries of the same file name
    in different directories are written under one name. *)
Theorem basename_path_join (dir name : string) :
  no_slash name →
  basename (path_join dir name) = name ∧ basename name = name.
Proof.
  intros Hn. unfold basename.
  rewrite split_on_path_join, !(split_on_no_slash name) by done.
  by rewrite last_snoc.
Qed.

Lemma basename_path_join_witness :
  basename (path_join "query/iphone7" "IMG_0731.JPG") = "IMG_0731.JPG" ∧
  basename "IMG_0731.JPG" = "IMG_0731.JPG".
Proof. by apply (basename_path_join "query/iphone7" "IMG_0731.JPG"). Defined.

(** ** A translation that is not a number *)

(** X9: a translation entry that is not a number spoils every point of
    the view: each transformed point has a NaN coordinate, whatever its
    validity flag says, since the flags are computed before the transform
    and are not revised after it. *)
Theorem nan_translation_spoils_points (Tr : mat4) (pts out : list vec3) :
  last (row0 Tr) = Some NaN ∨ last (row1 Tr) = Some NaN
    ∨ last (row2 Tr) = Some NaN →
  transform_points Tr pts = Ok out →
  length out = length pts ∧ Forall (λ p, point_valid p = false) out.
Proof.
  intros Hnan Hout. split; [by eapply transform_points_length|].
  revert Hout. unfold transform_points.
  destruct (negb (rectangular Tr)); [done|].
  destruct (rot_row (row0 Tr)) as [r0|]; [|done].
  destruct (rot_row (row1 Tr)) as [r1|]; [|done].
  destruct (rot_row (row2 Tr)) as [r2|]; [|done].
  destruct (last (row0 Tr)) as [t0|]; [|done].
  destruct (last (row1 Tr)) as [t1|]; [|done].
  destruct (last (row2 Tr)) as [t2|]; [|done].
  intros [= <-]. apply Forall_fmap, Forall_forall. intros p _. cbn.
  apply point_valid_chan.
  destruct Hnan as [[= ->]|[[= ->]|[= ->]]].
  - exists CX. cbn. by destruct (dot3 r0 p).
  - exists CY. cbn. by destruct (dot3 r1 p).
  - exists CZ. cbn. by destruct (dot3 r2 p).
Qed.

Lemma nan_translation_spoils_points_witness :
  get_scan_pose (ex_env_of nan_text) ex_dir ex_r =
    Ok (Mat4 [f1; f0; f0; NaN] [f0; f1; f0; f64_of_Z 20]
             [f0; f0; f1; f64_of_Z 30] [f0; f0; f0; f1]) ∧
  length [(NaN, f64_of_Z 21, f64_of_Z 37)] = 1 ∧
  Forall (λ p, point_valid p = false) [(NaN, f64_of_Z 21, f64_of_Z 37)].
Proof.
  split; [by_compute|].
  apply (nan_translation_spoils_points
           (Mat4 [f1; f0; f0; NaN] [f0; f1; f0; f64_of_Z 20]
                 [f0; f0; f1; f64_of_Z 30] [f0; f0; f0; f1])
           [(f64_of_Z 0, f64_of_Z 1, f64_of_Z 7)]).
  - left. reflexivity.
  - by_compute.
Defined.

(** ** The precomputed pipeline: threshold, empty aggregates, exceptions *)

Lemma below_skip_not_positive (s : Z) (n : nat) :
  (s ≤ 0)%Z → below_skip (Some s) n = false.
Proof.
  intros Hs. unfold below_skip.
  rewrite (bool_decide_eq_false_2 (Z.of_nat n < s)%Z) by lia.
  apply andb_false_r.
Qed.

Lemma cluster_view_not_positive (env : Env) (dataset_dir q : string)
    feature_file match_file (s : Z) (kpq : list kp2) (r : string) :
  (s ≤ 0)%Z →
  cluster_view env dataset_dir q feature_file match_file (Some s) kpq r =
  cluster_view env dataset_dir q feature_file match_file None kpq r.
Proof.
  intros Hs. unfold cluster_view.
  destruct (lookup_or KeyError (feature_file r)) as [kpr|e]; [|done].
  destruct (lookup_or KeyError (match_file _)) as [m|e]; [|done].
  cbn -[below_skip count_nonzero]. by rewrite below_skip_not_positive.
Qed.

Lemma cluster_loop_not_positive (env : Env) (dataset_dir q : string)
    feature_file match_file (s : Z) (kpq : list kp2) (retrieved : list string)
    (i : nat) (st : agg) :
  (s ≤ 0)%Z →
  cluster_loop env dataset_dir q feature_file match_file (Some s) kpq i
    retrieved st =
  cluster_loop env dataset_dir q feature_file match_file None kpq i
    retrieved st.
Proof.
  intros Hs. revert i st.
  induction retrieved as [|r rest IH]; intros i st; [done|].
  cbn [cluster_loop]. rewrite cluster_view_not_positive by done.
  destruct (cluster_view _ _ _ _ _ _ _ _) as [[c|]|e]; simpl; by rewrite ?IH.
Qed.

Lemma pose_from_cluster_not_positive (env : Env) (dataset_dir q : string)
    feature_file match_file (s : Z) (retrieved : list string) :
  (s ≤ 0)%Z →
  pose_from_cluster env dataset_dir q feature_file match_file (Some s)
    retrieved =
  pose_from_cluster env dataset_dir q feature_file match_file None retrieved.
Proof.
  intros Hs. unfold pose_from_cluster.
  apply logged_bind_ext. intros [height width].
  apply logged_bind_ext. intros kpq.
  by rewrite cluster_loop_not_positive.
Qed.

Lemma main_loop_not_positive (env : Env) (dataset_dir : string)
    feature_file match_file (s : Z) (dict : list (string * list string)) ms :
  (s ≤ 0)%Z →
  main_loop env dataset_dir feature_file match_file (Some s) dict ms =
  main_loop env dataset_dir feature_file match_file None dict ms.
Proof.
  intros Hs. revert ms.
  induction dict as [|[q db] rest IH]; intros ms; [done|].
  cbn [main_loop]. unfold main_step.
  rewrite pose_from_cluster_not_positive by done.
  apply logged_bind_ext. intros ms'. apply IH.
Qed.

(** X10: a threshold [skip_matches] of zero or below skips no reference
    view: [pose_from_cluster] and [main] behave as without threshold. *)
Theorem skip_not_positive_skips_nothing (env : Env) (dataset_dir : string)
    (s : Z) :
  (s ≤ 0)%Z →
  (∀ q feature_file match_file retrieved,
     pose_from_cluster env dataset_dir q feature_file match_file (Some s)
       retrieved =
     pose_from_cluster env dataset_dir q feature_file match_file None
       retrieved) ∧
  (∀ retrieval features matches,
     main env dataset_dir retrieval features matches (Some s) =
     main env dataset_dir retrieval features matches None).
Proof.
  intros Hs. split.
  - intros. by apply pose_from_cluster_not_positive.
  - intros. unfold main.
    do 3 (apply logged_bind_ext; intros _).
    by rewrite main_loop_not_positive.
Qed.

Lemma skip_not_positive_skips_nothing_witness :
  main (ex_env_run ex_solver) ex_dir "pairs.txt" "feats.h5" "matches.h5"
    (Some 0%Z) =
  main (ex_env_run ex_solver) ex_dir "pairs.txt" "feats.h5" "matches.h5" None.
Proof.
  apply (skip_not_positive_skips_nothing (ex_env_run ex_solver) ex_dir 0). lia.
Defined.

Lemma cluster_loop_nothing_kept (env : Env) (dataset_dir q : string)
    feature_file match_file skip (kpq : list kp2) (retrieved : list string)
    (i : nat) (st : agg) :
  Forall (λ r, cluster_view env dataset_dir q feature_file match_file skip
                 kpq r = Ok None) retrieved →
  cluster_loop env dataset_dir q feature_file match_file skip kpq i retrieved st
  = Ok st.
Proof.
  intros Hall. revert i.
  induction Hall as [|r rest Hr Hrest IH]; intros i; [done|].
  cbn [cluster_loop]. rewrite Hr. simpl. apply IH.
Qed.

(** X11: when no reference view is kept (the retrieval list is empty, or
    every view falls below the threshold), [pose_from_cluster] has nothing
    to concatenate: it raises [ValueError] and the solver is not called. *)
Theorem pose_from_cluster_nothing_kept (env : Env) (dataset_dir q : string)
    feature_file match_file skip (retrieved : list string)
    (height width : nat) (kpq : list kp2) :
  env_imread env (path_join dataset_dir q) = Some (height, width) →
  feature_file q = Some kpq →
  Forall (λ r, cluster_view env dataset_dir q feature_file match_file skip
                 kpq r = Ok None) retrieved →
  pose_from_cluster env dataset_dir q feature_file match_file skip retrieved
  = Logged (Raise ValueError) [].
Proof.
  intros Him Hkpq Hall. unfold pose_from_cluster.
  rewrite Him, lookup_or_Some, quiet_bind.
  rewrite Hkpq, lookup_or_Some, quiet_bind.
  rewrite cluster_loop_nothing_kept, quiet_bind by done.
  cbn [agg_empty all_mkpq np_concatenate]. by rewrite quiet_bind_Raise.
Qed.

Lemma pose_from_cluster_nothing_kept_witness :
  pose_from_cluster ex_env2 ex_dir ex_q ex_features2 ex_matches2 None []
  = Logged (Raise ValueError) [] ∧
  pose_from_cluster ex_env2 ex_dir ex_q ex_features2 ex_matches2 (Some 3%Z)
    [ex_r2; ex_r]
  = Logged (Raise ValueError) [].
Proof.
  split.
  - by apply (pose_from_cluster_nothing_kept ex_env2 ex_dir ex_q ex_features2
                ex_matches2 None [] 3024 4032
                [(f64_of_Z 100, f64_of_Z 200); (f64_of_Z 150, f64_of_Z 250);
                 (f64_of_Z 300, f64_of_Z 400)]).
  - apply (pose_from_cluster_nothing_kept ex_env2 ex_dir ex_q ex_features2
             ex_matches2 (Some 3%Z) [ex_r2; ex_r] 3024 4032
             [(f64_of_Z 100, f64_of_Z 200); (f64_of_Z 150, f64_of_Z 250);
              (f64_of_Z 300, f64_of_Z 400)]); [done|done|].
    repeat constructor; by_compute.
Defined.

Lemma cluster_loop_raises (env : Env) (dataset_dir q : string)
    feature_file match_file skip (kpq : list kp2) (pre post : list string)
    (r : string) (e : exn) (i : nat) (st : agg) :
  Forall (λ r', is_Ok (cluster_view env dataset_dir q feature_file match_file
                         skip kpq r')) pre →
  cluster_view env dataset_dir q feature_file match_file skip kpq r = Raise e →
  cluster_loop env dataset_dir q feature_file match_file skip kpq i
    (pre ++ r :: post) st = Raise e.
Proof.
  intros Hpre Hr. revert i st.
  induction Hpre as [|r' pre [o Ho] Hpre IH]; intros i st.
  - cbn [app cluster_loop]. by rewrite Hr.
  - cbn [app cluster_loop]. rewrite Ho. simpl. destruct o; apply IH.
Qed.

(** X12: the precomputed pipeline has no handler around a reference view:
    the first exception a view raises (a missing keypoint or match entry, a
    missing scan or transform file, a keypoint on the border) leaves
    [pose_from_cluster] and the loop of [main] with that exception, before
    any solver call for the query. *)
Theorem pose_from_cluster_view_raises (env : Env) (dataset_dir q : string)
    feature_file match_file skip (pre post : list string) (r : string)
    (e : exn) (height width : nat) (kpq : list kp2) :
  env_imread env (path_join dataset_dir q) = Some (height, width) →
  feature_file q = Some kpq →
  Forall (λ r', is_Ok (cluster_view env dataset_dir q feature_file match_file
                         skip kpq r')) pre →
  cluster_view env dataset_dir q feature_file match_file skip kpq r = Raise e →
  pose_from_cluster env dataset_dir q feature_file match_file skip
    (pre ++ r :: post) = Logged (Raise e) [] ∧
  ∀ rest ms,
    main_loop env dataset_dir feature_file match_file skip
      ((q, pre ++ r :: post) :: rest) ms = Logged (Raise e) [].
Proof.
  intros Him Hkpq Hpre Hr.
  assert (pose_from_cluster env dataset_dir q feature_file match_file skip
            (pre ++ r :: post) = Logged (Raise e) []) as Hq.
  { unfold pose_from_cluster.
    rewrite Him, lookup_or_Some, quiet_bind.
    rewrite Hkpq, lookup_or_Some, quiet_bind.
    by rewrite (cluster_loop_raises _ _ _ _ _ _ _ _ _ _ e), quiet_bind_Raise. }
  split; [done|]. intros rest ms.
  cbn [main_loop]. unfold main_step.
  by rewrite Hq, !logged_Raise_bind.
Qed.

Lemma pose_from_cluster_view_raises_witness :
  pose_from_cluster (ex_env_of shift_text) ex_dir ex_q ex_features2 ex_matches2
    None ([ex_r] ++ ex_r2 :: []) = Logged (Raise FileNotFoundError) [] ∧
  ∀ rest ms,
    main_loop (ex_env_of shift_text) ex_dir ex_features2 ex_matches2 None
      ((ex_q, [ex_r] ++ ex_r2 :: []) :: rest) ms
    = Logged (Raise FileNotFoundError) [].
Proof.
  apply (pose_from_cluster_view_raises (ex_env_of shift_text) ex_dir ex_q
           ex_features2 ex_matches2 None [ex_r] [] ex_r2 FileNotFoundError
           3024 4032
           [(f64_of_Z 100, f64_of_Z 200); (f64_of_Z 150, f64_of_Z 250);
            (f64_of_Z 300, f64_of_Z 400)]); [done|done| |by_compute].
  repeat constructor. eexists. vm_compute. reflexivity.
Defined.

(** ** Raw matches and valid correspondences *)

Lemma count_nonzero_le (mask : list bool) : count_nonzero mask ≤ length mask.
Proof. apply length_filter. Qed.

Lemma agg_views_indices_le (i : nat) (vs : list (option view)) (st : agg) :
  Forall (from_option view_wf True) vs →
  length (concat (all_indices st)) ≤ num_matches st →
  length (concat (all_indices (agg_views i vs st))) ≤
  num_matches (agg_views i vs st).
Proof.
  intros Hvs. revert i st.
  induction Hvs as [|[c|] vs Hc Hvs IH]; intros i st Hst; [done| |].
  - cbn [agg_views]. apply IH. cbn [agg_push all_indices num_matches].
    rewrite concat_app, length_app. cbn [concat]. rewrite app_nil_r.
    rewrite length_replicate.
    destruct Hc as (Hq & _ & Hv). pose proof (count_nonzero_le (v_valid c)).
    lia.
  - cbn [agg_views]. by apply IH.
Qed.

(** X13: [num_matches] counts the raw matches of the views that were
    kept, so it is never below the number of aggregated correspondences,
    which are the raw matches that have a valid 3D point.  In on-the-fly
    mode this is why a zero count means an empty aggregate. *)
Theorem valid_matches_bounded_by_raw (env : Env) (dataset_dir q : string)
    (retrieved : list string) :
  (∀ feature_file match_file skip res,
     outcome (pose_from_cluster env dataset_dir q feature_file match_file
                skip retrieved) = Ok res →
     length (cr_indices res) ≤ cr_num_matches res) ∧
  (∀ matcher skip_matches poses rthres res rec,
     outcome (pose_from_cluster_onfly_matching env matcher dataset_dir q
                skip_matches retrieved poses rthres) = Ok res →
     or_res_dict res = Some rec →
     length (lr_indices_db rec) ≤ lr_num_matches rec) ∧
  (∀ matcher skip_matches,
     length (concat (all_indices
               (onfly_agg env matcher dataset_dir q skip_matches retrieved)))
     ≤ num_matches (onfly_agg env matcher dataset_dir q skip_matches
                      retrieved)).
Proof.
  split; [|split].
  - intros feature_file match_file skip res Hres.
    apply pose_from_cluster_Ok in Hres
      as (h & w & kpq & st & _ & _ & Hloop & _ & _ & _ & _ & -> & -> & _).
    apply cluster_loop_views in Hloop as (vs & Hvs & ->).
    apply agg_views_indices_le; [|done].
    apply Forall_forall. intros [c|] Hc; [|done]. cbn.
    apply list_elem_of_lookup_1 in Hc as [j Hj].
    destruct (Forall2_lookup_r _ _ _ _ _ Hvs Hj) as (r & Hr & Hview).
    by eapply cluster_view_wf.
  - intros matcher skip_matches poses rthres res rec Hres Hrec.
    destruct (pose_from_cluster_onfly_matching_Some _ _ _ _ _ _ _ _ _ _
                Hres Hrec) as (_ & _ & _ & _ & _ & -> & -> & _).
    rewrite onfly_loop_agg.
    apply agg_views_indices_le; [apply onfly_kept_wf|done].
  - intros matcher skip_matches. unfold onfly_agg. rewrite onfly_loop_agg.
    apply agg_views_indices_le; [apply onfly_kept_wf|done].
Qed.

Lemma valid_matches_bounded_by_raw_witness :
  ∃ res rec,
    outcome (pose_from_cluster_onfly_matching (ex_env_of shift_text)
               ex_matcher ex_dir ex_q 2 [ex_r2; ex_r] ∅ (f64_of_Z 48)) = Ok res ∧
    or_res_dict res = Some rec ∧
    length (lr_indices_db rec) ≤ lr_num_matches rec.
Proof.
  eexists _, _. split; [vm_compute; reflexivity|]. split; [reflexivity|].
  eapply (proj1 (proj2 (valid_matches_bounded_by_raw (ex_env_of shift_text)
                          ex_dir ex_q [ex_r2; ex_r]))
            ex_matcher 2%Z ∅ (f64_of_Z 48));
    [vm_compute; reflexivity|reflexivity].
Defined.

(** ** The on-the-fly pipeline: [failed], [times] and the exceptions *)

Lemma onfly_step_cases (env : Env) matcher (dataset_dir q : string)
    (skip_matches : Z) (st : onfly_state) (i : nat) (r : string) :
  ((onfly_kept env matcher dataset_dir q skip_matches r = None ∧
    of_failed (onfly_step env matcher dataset_dir q skip_matches st i r)
      = of_failed st ++ [(q, r)] ∧
    of_agg (onfly_step env matcher dataset_dir q skip_matches st i r)
      = of_agg st) ∨
   (∃ c, onfly_kept env matcher dataset_dir q skip_matches r = Some c ∧
      of_failed (onfly_step env matcher dataset_dir q skip_matches st i r)
        = of_failed st ∧
      of_agg (onfly_step env matcher dataset_dir q skip_matches st i r)
        = agg_push (of_agg st) i c)) ∧
  of_times (onfly_step env matcher dataset_dir q skip_matches st i r)
    = of_times st ++
      (if matcher_returns matcher dataset_dir q r
       then [env_elapsed env (path_join dataset_dir q)
               (path_join dataset_dir r)]
       else []).
Proof.
  unfold onfly_step, onfly_kept, matcher_returns, onfly_try.
  destruct (matcher _ _) as [matches|e]; cbn [fst snd].
  - destruct (bool_decide (Z.of_nat (length matches) < skip_matches)%Z).
    + split; [left|]; done.
    + destruct (lift_view env dataset_dir r _ _) as [c|e]; cbn.
      * split; [right; by exists c|done].
      * split; [left|]; done.
  - split; [left|]; done.
Qed.

Lemma onfly_loop_lists (env : Env) matcher (dataset_dir q : string)
    (skip_matches : Z) (retrieved : list string) (i : nat) (st : onfly_state) :
  of_failed (onfly_loop env matcher dataset_dir q skip_matches i retrieved st)
  = of_failed st ++
    ((λ r, (q, r)) <$>
       filter (λ r, onfly_kept env matcher dataset_dir q skip_matches r = None)
         retrieved) ∧
  of_times (onfly_loop env matcher dataset_dir q skip_matches i retrieved st)
  = of_times st ++
    ((λ r, env_elapsed env (path_join dataset_dir q) (path_join dataset_dir r))
       <$> filter (λ r, matcher_returns matcher dataset_dir q r = true)
             retrieved) ∧
  length (of_failed (onfly_loop env matcher dataset_dir q skip_matches i
                       retrieved st))
  + length (all_mkpq (of_agg (onfly_loop env matcher dataset_dir q
                                skip_matches i retrieved st)))
  = length (of_failed st) + length (all_mkpq (of_agg st)) + length retrieved.
Proof.
  revert i st. induction retrieved as [|r rest IH]; intros i st.
  { simpl. rewrite !app_nil_r. split_and!; [done|done|lia]. }
  cbn [onfly_loop]. destruct (IH (S i) (onfly_step env matcher dataset_dir q
                                         skip_matches st i r)) as (-> & -> & ->).
  rewrite !filter_cons.
  destruct (onfly_step_cases env matcher dataset_dir q skip_matches st i r)
    as [[(Hk & -> & ->)|(c & Hk & -> & ->)] ->].
  - rewrite (decide_True _ _ Hk).
    rewrite fmap_cons, <- !(assoc_L (++)), !length_app. cbn [length app].
    split_and!; [done| |lia].
    f_equal. destruct (matcher_returns _ _ _ _); by simplify_list_eq.
  - rewrite decide_False by (by rewrite Hk).
    rewrite <- !(assoc_L (++)). cbn [agg_push all_mkpq].
    rewrite !length_app. cbn [length].
    split_and!; [done| |lia].
    f_equal. destruct (matcher_returns _ _ _ _); by simplify_list_eq.
Qed.

(** X14: of a query that is processed to the end, [failed] lists the
    reference views that were not kept, in retrieval order; [times] holds
    one latency for each matcher call that returned, also for the views
    dropped afterwards; and each reference view either adds one array to
    the aggregate or one pair to [failed]. *)
Theorem onfly_failed_and_times (env : Env) matcher (dataset_dir q : string)
    (skip_matches : Z) (retrieved : list string) (poses : pose_table)
    (rthres : f64) (res : onfly_result) :
  outcome (pose_from_cluster_onfly_matching env matcher dataset_dir q
             skip_matches retrieved poses rthres) = Ok res →
  or_failed res =
    ((λ r, (q, r)) <$>
       filter (λ r, onfly_kept env matcher dataset_dir q skip_matches r = None)
         retrieved) ∧
  or_times res =
    ((λ r, env_elapsed env (path_join dataset_dir q) (path_join dataset_dir r))
       <$> filter (λ r, matcher_returns matcher dataset_dir q r = true)
             retrieved) ∧
  length (or_failed res)
  + length (all_mkpq (onfly_agg env matcher dataset_dir q skip_matches
                        retrieved))
  = length retrieved.
Proof.
  intros Hres.
  destruct (pose_from_cluster_onfly_matching_Ok _ _ _ _ _ _ _ _ _ Hres)
    as (-> & -> & _).
  unfold onfly_agg.
  destruct (onfly_loop_lists env matcher dataset_dir q skip_matches retrieved
              0 onfly_init) as (-> & -> & ->).
  cbn [onfly_init of_failed of_times of_agg agg_empty all_mkpq app length].
  done.
Qed.

Lemma onfly_failed_and_times_witness :
  ∃ res,
    outcome (pose_from_cluster_onfly_matching (ex_env_of shift_text)
               ex_matcher_raise ex_dir ex_q 3 [ex_r2; ex_r; ex_r] ∅
               (f64_of_Z 48)) = Ok res ∧
    or_failed res = [(ex_q, ex_r2); (ex_q, ex_r); (ex_q, ex_r)] ∧
    or_times res = [fq 1 4; fq 1 4] ∧
    length (or_failed res)
    + length (all_mkpq (onfly_agg (ex_env_of shift_text) ex_matcher_raise
                          ex_dir ex_q 3 [ex_r2; ex_r; ex_r]))
    = 3.
Proof.
  eexists. split; [vm_compute; reflexivity|].
  edestruct (onfly_failed_and_times (ex_env_of shift_text) ex_matcher_raise
               ex_dir ex_q 3 [ex_r2; ex_r; ex_r] ∅ (f64_of_Z 48))
    as (H1 & H2 & H3); [vm_compute; reflexivity|].
  split; [exact H1|]. split; [exact H2|exact H3].
Defined.

(** X15: the only exceptions that leave
    [pose_from_cluster_onfly_matching] are the [AttributeError] of an
    unreadable query image, raised before any view is processed, and the
    failure of the solver, called once; what the matcher, the scans and the
    transform files raise never leaves it. *)
Theorem onfly_raises_only_image_or_solver (env : Env) matcher
    (dataset_dir q : string) (skip_matches : Z) (retrieved : list string)
    (poses : pose_table) (rthres : f64) (e : exn) :
  outcome (pose_from_cluster_onfly_matching env matcher dataset_dir q
             skip_matches retrieved poses rthres) = Raise e →
  (env_imread env (path_join dataset_dir q) = None ∧ e = AttributeError ∧
   calls (pose_from_cluster_onfly_matching env matcher dataset_dir q
            skip_matches retrieved poses rthres) = []) ∨
  (∃ height width,
     env_imread env (path_join dataset_dir q) = Some (height, width) ∧
     solver_fails env
       (onfly_call (onfly_agg env matcher dataset_dir q skip_matches retrieved)
          height width rthres) ∧
     calls (pose_from_cluster_onfly_matching env matcher dataset_dir q
              skip_matches retrieved poses rthres) =
     [(q, onfly_call (onfly_agg env matcher dataset_dir q skip_matches
                        retrieved) height width rthres)]).
Proof.
  intros Hres.
  destruct (env_imread env (path_join dataset_dir q)) as [[height width]|]
    eqn:Him.
  - right. exists height, width. split; [done|].
    destruct (decide (num_matches (onfly_agg env matcher dataset_dir q
                                     skip_matches retrieved) = 0)) as [Hz|Hnz].
    { rewrite (onfly_no_matches _ _ _ _ _ _ _ _ height width) in Hres by done.
      done. }
    rewrite (onfly_solve_step _ _ _ _ _ _ _ _ height width) in Hres |- * by done.
    fold (onfly_agg env matcher dataset_dir q skip_matches retrieved)
      in Hres |- *.
    revert Hres. unfold solve, mbind, logged_bind. cbn [outcome calls].
    unfold solver_fails.
    destruct (env_solver env _) as [[p|]|e']; cbn; [done|..].
    + intros _. split; [by left|done].
    + intros _. split; [right; by exists e'|done].
  - left. rewrite onfly_no_image in Hres |- * by done.
    cbn in Hres. by injection Hres as <-.
Qed.

Lemma onfly_raises_only_image_or_solver_witness :
  (env_imread ex_env_raising
     (path_join ex_dir ex_q) = None ∧ RuntimeError = AttributeError ∧
   calls (pose_from_cluster_onfly_matching
            ex_env_raising ex_matcher
            ex_dir ex_q 2 [ex_r] ∅ (f64_of_Z 48)) = []) ∨
  (∃ height width,
     env_imread ex_env_raising
       (path_join ex_dir ex_q) = Some (height, width) ∧
     solver_fails ex_env_raising
       (onfly_call (onfly_agg ex_env_raising
                      ex_matcher ex_dir ex_q 2 [ex_r])
          height width (f64_of_Z 48)) ∧
     calls (pose_from_cluster_onfly_matching
              ex_env_raising ex_matcher
              ex_dir ex_q 2 [ex_r] ∅ (f64_of_Z 48)) =
     [(ex_q, onfly_call (onfly_agg
                           ex_env_raising
                           ex_matcher ex_dir ex_q 2 [ex_r])
               height width (f64_of_Z 48))]).
Proof.
  apply (onfly_raises_only_image_or_solver
           ex_env_raising ex_matcher ex_dir
           ex_q 2 [ex_r] ∅ (f64_of_Z 48) RuntimeError).
  vm_compute. reflexivity.
Defined.

(** ** The dictionary of poses *)


(** X17: the per-query function touches the dictionary [poses] at the
    key of its query alone, and only when it localizes the query: the entry
    is then the pose of the record it returns. *)
Theorem onfly_poses_frame (env : Env) matcher (dataset_dir q : string)
    (skip_matches : Z) (retrieved : list string) (poses : pose_table)
    (rthres : f64) (res : onfly_result) :
  outcome (pose_from_cluster_onfly_matching env matcher dataset_dir q
             skip_matches retrieved poses rthres) = Ok res →
  (∀ q', q' ≠ q → or_poses res !! q' = poses !! q') ∧
  or_poses res !! q =
    match or_res_dict res with
    | Some rec => Some (qvec (lr_pose rec), tvec (lr_pose rec))
    | None => poses !! q
    end.
Proof.
  intros Hres. destruct (or_res_dict res) as [rec|] eqn:Hrec.
  - destruct (pose_from_cluster_onfly_matching_Some _ _ _ _ _ _ _ _ _ _
                Hres Hrec) as (_ & _ & _ & _ & _ & _ & _ & _ & -> & _).
    split.
    + intros q' Hq'. by rewrite lookup_insert_ne.
    + by rewrite lookup_insert_eq.
  - destruct (pose_from_cluster_onfly_matching_Ok _ _ _ _ _ _ _ _ _ Hres)
      as (_ & _ & Hnone).
    destruct (Hnone Hrec) as [_ ->]. done.
Qed.

Lemma onfly_poses_frame_witness :
  ∃ res,
    outcome (pose_from_cluster_onfly_matching (ex_env_of shift_text)
               ex_matcher ex_dir ex_q 2 [ex_r]
               {[ ex_q2 := ([f0; f1; f0; f0], [f1; f1; f1]) ]}
               (f64_of_Z 48)) = Ok res ∧
    (∀ q', q' ≠ ex_q →
       or_poses res !! q' =
       ({[ ex_q2 := ([f0; f1; f0; f0], [f1; f1; f1]) ]} : pose_table) !! q') ∧
    or_poses res !! ex_q = Some ([f1; f0; f0; f0], [f0; f0; f0]).
Proof.
  eexists. split; [vm_compute; reflexivity|].
  edestruct (onfly_poses_frame (ex_env_of shift_text) ex_matcher ex_dir ex_q 2
               [ex_r] {[ ex_q2 := ([f0; f1; f0; f0], [f1; f1; f1]) ]}
               (f64_of_Z 48)) as [H1 H2]; [vm_compute; reflexivity|].
  split; [exact H1|exact H2].
Defined.

(** ** The on-the-fly run: the log, the pose file and the failed pairs *)

Lemma write_localized_omap (queries : list string) (poses : pose_table) :
  write_localized queries poses =
  omap (λ q, match poses !! q with
             | Some (qv, tv) => Some (PoseLine (basename q) qv tv)
             | None => None
             end) queries.
Proof.
  induction queries as [|q rest IH]; [done|].
  cbn [write_localized omap list_omap]. rewrite IH.
  by destruct (poses !! q) as [[qv tv]|].
Qed.

Lemma omap_pointwise {A B : Type} (f g : A → option B) (l : list A) :
  (∀ x, f x = g x) → omap f l = omap g l.
Proof.
  intros Hfg. induction l as [|x l IH]; [done|].
  cbn [omap list_omap]. by rewrite Hfg, IH.
Qed.

Lemma localize_loop_consistent (env : Env) matcher (dataset_dir : string)
    (rthres : f64) (skip_matches : Z) (dict : list (string * list string))
    (st st' : run_state) :
  NoDup dict.*1 →
  (∀ q, q ∈ dict.*1 → rs_loc st !! q = None) →
  (∀ q, rs_poses st !! q = pose_of_record (rs_loc st !! q)) →
  outcome (localize_loop env matcher dataset_dir rthres skip_matches dict st)
    = Ok st' →
  (∀ q, rs_poses st' !! q = pose_of_record (rs_loc st' !! q)) ∧
  (∀ q, is_Some (rs_loc st' !! q) ↔ is_Some (rs_loc st !! q) ∨ q ∈ dict.*1).
Proof.
  revert st. induction dict as [|[q retrieved] rest IH]; intros st Hnd Hnew Hinv.
  { cbn. intros [= <-]. split; [done|]. intros q. split; [by left|].
    intros [?|Hq]; [done|]. by apply elem_of_nil in Hq. }
  cbn [localize_loop]. intros (st1 & Hstep & Hloop)%outcome_bind_Ok.
  apply localize_step_Ok in Hstep as (res & Hres & Hposes & Hloc & _).
  rewrite fmap_cons in Hnd, Hnew. cbn [fst] in Hnd, Hnew.
  apply NoDup_cons in Hnd as [Hq Hnd].
  destruct (IH st1 Hnd) as [IH1 IH2]; [| |done|].
  - intros q' Hq'. rewrite Hloc, lookup_insert_ne by (by intros ->).
    apply Hnew. by apply elem_of_cons; right.
  - intros q'. rewrite Hposes, Hloc.
    destruct (or_res_dict res) as [rec|] eqn:Hrec.
    + destruct (pose_from_cluster_onfly_matching_Some _ _ _ _ _ _ _ _ _ _
                  Hres Hrec) as (_ & _ & _ & _ & _ & _ & _ & _ & -> & _).
      destruct (decide (q' = q)) as [->|Hne].
      * by rewrite !lookup_insert_eq.
      * rewrite !lookup_insert_ne by done. apply Hinv.
    + destruct (pose_from_cluster_onfly_matching_Ok _ _ _ _ _ _ _ _ _ Hres)
        as (_ & _ & Hnone).
      destruct (Hnone Hrec) as [_ ->].
      destruct (decide (q' = q)) as [->|Hne].
      * rewrite lookup_insert_eq, Hinv, Hnew by (by apply elem_of_cons; left).
        done.
      * rewrite lookup_insert_ne by done. apply Hinv.
  - split; [done|]. intros q'. rewrite IH2, Hloc, fmap_cons, elem_of_cons.
    cbn [fst].
    destruct (decide (q' = q)) as [->|Hne].
    + rewrite lookup_insert_eq. split; intros _; [right; by left|].
      left. by eexists.
    + rewrite lookup_insert_ne by done. tauto.
Qed.

(** X18: when a run of [localize_with_matcher] returns, the log has an entry
    for every query of the retrieval file and for nothing else, and the
    pose file holds, in query order, one line for each query whose entry is
    a record, with the pose of that record; a query whose entry is [None]
    has no line. *)
Theorem localize_with_matcher_log_and_lines (env : Env) matcher
    (dataset_dir : string) (rthres : f64) (skip_matches : Z)
    (retrieval_pairs : string) (out : run_output) :
  NoDup (env_parse_retrieval env retrieval_pairs).*1 →
  outcome (localize_with_matcher env matcher dataset_dir rthres skip_matches
             retrieval_pairs) = Ok out →
  (∀ q, is_Some (out_loc out !! q) ↔
        q ∈ (env_parse_retrieval env retrieval_pairs).*1) ∧
  out_lines out =
    omap (λ q, line_of_record q (out_loc out !! q))
      (env_parse_retrieval env retrieval_pairs).*1.
Proof.
  intros Hnd. unfold localize_with_matcher.
  intros (st & Hloop & Hout)%outcome_bind_Ok.
  cbn in Hout. injection Hout as <-. cbn [out_loc out_lines].
  destruct (localize_loop_consistent env matcher dataset_dir rthres
              skip_matches _ run_init st Hnd) as [Hinv Hdom]; [done|done|done|].
  split.
  - intros q. rewrite Hdom. cbn [run_init rs_loc].
    rewrite lookup_empty. split; [|by right].
    intros [[? [=]]|?]; done.
  - rewrite write_localized_omap. apply omap_pointwise. intros q.
    rewrite Hinv. by destruct (rs_loc st !! q) as [[rec|]|].
Qed.

Lemma localize_with_matcher_log_and_lines_witness :
  ∃ out,
    outcome (localize_with_matcher (ex_env_run ex_solver) ex_matcher_q ex_dir
               (f64_of_Z 48) 2 "pairs.txt") = Ok out ∧
    (∀ q, is_Some (out_loc out !! q) ↔ q ∈ [ex_q; ex_q2]) ∧
    out_lines out = [PoseLine "IMG_0732.JPG" [f1; f0; f0; f0] [f0; f0; f0]] ∧
    out_loc out !! ex_q = Some None.
Proof.
  eexists. split; [vm_compute; reflexivity|].
  edestruct (localize_with_matcher_log_and_lines (ex_env_run ex_solver)
               ex_matcher_q ex_dir (f64_of_Z 48) 2 "pairs.txt") as [H1 H2];
    [|vm_compute; reflexivity|].
  - by_compute.
  - split; [exact H1|]. split; [|by vm_compute].
    etrans; [exact H2|]. by vm_compute.
Defined.


Lemma localize_loop_failed_list (env : Env) matcher (dataset_dir : string)
    (rthres : f64) (skip_matches : Z) (dict : list (string * list string))
    (st st' : run_state) :
  outcome (localize_loop env matcher dataset_dir rthres skip_matches dict st)
    = Ok st' →
  rs_failed st' =
  rs_failed st ++ failed_pairs env matcher dataset_dir skip_matches dict.
Proof.
  revert st. induction dict as [|[q retrieved] rest IH]; intros st.
  { cbn. intros [= <-]. by rewrite app_nil_r. }
  cbn [localize_loop]. intros (st1 & Hstep & Hloop)%outcome_bind_Ok.
  apply localize_step_Ok in Hstep as (res & Hres & _ & _ & Hfailed).
  rewrite (IH _ Hloop), Hfailed.
  destruct (pose_from_cluster_onfly_matching_Ok _ _ _ _ _ _ _ _ _ Hres)
    as (-> & _ & _).
  destruct (onfly_loop_lists env matcher dataset_dir q skip_matches retrieved
              0 onfly_init) as (-> & _ & _).
  unfold failed_pairs. rewrite fmap_cons. cbn [concat fst snd onfly_init of_failed].
  by rewrite <- (assoc_L (++)).
Qed.

(** X19: the failed pairs of a run that returns are, query after query in
    the order of the retrieval file, the reference views of the query that
    were not kept, in retrieval order. *)
Theorem localize_with_matcher_failed (env : Env) matcher
    (dataset_dir : string) (rthres : f64) (skip_matches : Z)
    (retrieval_pairs : string) (out : run_output) :
  outcome (localize_with_matcher env matcher dataset_dir rthres skip_matches
             retrieval_pairs) = Ok out →
  out_failed out =
  failed_pairs env matcher dataset_dir skip_matches
    (env_parse_retrieval env retrieval_pairs).
Proof.
  unfold localize_with_matcher.
  intros (st & Hloop & Hout)%outcome_bind_Ok.
  cbn in Hout. injection Hout as <-. cbn [out_failed].
  by rewrite (localize_loop_failed_list _ _ _ _ _ _ _ _ Hloop).
Qed.

Lemma localize_with_matcher_failed_witness :
  ∃ out,
    outcome (localize_with_matcher (ex_env_run ex_solver) ex_matcher_q ex_dir
               (f64_of_Z 48) 2 "pairs.txt") = Ok out ∧
    out_failed out = [(ex_q, ex_r2); (ex_q, ex_r)].
Proof.
  eexists. split; [vm_compute; reflexivity|].
  etrans; [apply (localize_with_matcher_failed (ex_env_run ex_solver)
                    ex_matcher_q ex_dir (f64_of_Z 48) 2 "pairs.txt");
           vm_compute; reflexivity|].
  by vm_compute.
Defined.

(** ** The precomputed run *)

Lemma pose_from_cluster_Ok_calls (env : Env) (dataset_dir q : string)
    feature_file match_file skip (retrieved : list string)
    (res : cluster_result) :
  outcome (pose_from_cluster env dataset_dir q feature_file match_file skip
             retrieved) = Ok res →
  calls (pose_from_cluster env dataset_dir q feature_file match_file skip
           retrieved) =
  [(q, SolverCall (cr_mkpq res) (cr_mkp3d res) (cr_cfg res) (f64_of_Z 48))].
Proof.
  intros Hres.
  destruct (pose_from_cluster_Ok _ _ _ _ _ _ _ _ Hres)
    as (h & w & kpq & st & Him & Hkpq & Hloop & Hne & -> & _ & -> & _ & _
        & -> & Hsolve).
  rewrite (cluster_solve_step _ _ _ _ _ _ _ h w kpq st) in Hres |- * by done.
  rewrite calls_bind. unfold solve at 1 2. cbn [outcome calls].
  by destruct (env_solver env _).
Qed.

Lemma main_step_Ok (env : Env) (dataset_dir : string) feature_file match_file
    skip ms (q : string) (db : list string) ms' :
  outcome (main_step env dataset_dir feature_file match_file skip ms q db)
    = Ok ms' →
  ∃ rec,
    ms' = (<[q := (qvec (lr_pose rec), tvec (lr_pose rec))]> ms.1,
           <[q := rec]> ms.2) ∧
    (calls (main_step env dataset_dir feature_file match_file skip ms q db)).*1
      = [q].
Proof.
  unfold main_step. intros Hms'. rewrite calls_bind.
  apply outcome_bind_Ok in Hms' as (res & Hres & Hms').
  rewrite (pose_from_cluster_Ok_calls _ _ _ _ _ _ _ _ Hres), Hres.
  apply outcome_bind_Ok in Hms' as (p & Hp & Hms').
  cbn in Hp, Hms'. injection Hms' as <-.
  exists (LocRecord db p (cr_cfg res) (cr_mkpq res) (cr_mkpr res)
            (cr_mkp3d res) (cr_indices res) (cr_num_matches res)).
  split; [done|].
  rewrite calls_bind. cbn [quiet outcome calls]. rewrite Hp. done.
Qed.

Lemma main_loop_Ok (env : Env) (dataset_dir : string) feature_file match_file
    skip (dict : list (string * list string)) ms ms' :
  (∀ q, ms.1 !! q = (λ rec, (qvec (lr_pose rec), tvec (lr_pose rec)))
                      <$> ms.2 !! q) →
  outcome (main_loop env dataset_dir feature_file match_file skip dict ms)
    = Ok ms' →
  (∀ q, ms'.1 !! q = (λ rec, (qvec (lr_pose rec), tvec (lr_pose rec)))
                       <$> ms'.2 !! q) ∧
  (∀ q, is_Some (ms'.2 !! q) ↔ is_Some (ms.2 !! q) ∨ q ∈ dict.*1) ∧
  (calls (main_loop env dataset_dir feature_file match_file skip dict ms)).*1
    = dict.*1.
Proof.
  revert ms. induction dict as [|[q db] rest IH]; intros ms Hinv.
  { cbn. intros [= <-]. split; [done|]. split; [|done].
    intros q. split; [by left|].
    intros [?|Hq]; [done|]. by apply elem_of_nil in Hq. }
  cbn [main_loop]. intros Hloop. rewrite calls_bind.
  apply outcome_bind_Ok in Hloop as (ms1 & Hstep & Hloop). rewrite Hstep.
  apply main_step_Ok in Hstep as (rec & -> & Hcalls).
  pose proof (λ H, IH _ H Hloop) as IH'.
  destruct IH' as (IH1 & IH2 & IH3).
  { intros q'. cbn [fst snd].
    destruct (decide (q' = q)) as [->|Hne].
    - by rewrite !lookup_insert_eq.
    - by rewrite !lookup_insert_ne. }
  split; [done|]. split.
  - intros q'. rewrite IH2, fmap_cons, elem_of_cons. cbn [fst snd].
    destruct (decide (q' = q)) as [->|Hne].
    + rewrite lookup_insert_eq. split; intros _; [right; by left|].
      left. by eexists.
    + rewrite lookup_insert_ne by done. tauto.
  - by rewrite fmap_app, Hcalls, IH3.
Qed.

Lemma write_all_Ok (queries : list string) (poses : pose_table)
    (lines : list pose_line) :
  write_all queries poses = Ok lines →
  Forall2 (λ q l, ∃ qv tv, poses !! q = Some (qv, tv) ∧
                           l = PoseLine (basename q) qv tv) queries lines.
Proof.
  revert lines. induction queries as [|q rest IH]; intros lines.
  { cbn. intros [= <-]. constructor. }
  cbn [write_all]. intros ([qv tv] & Hq%lookup_or_Ok & H)%bind_Ok.
  apply bind_Ok in H as (lines' & Hrest & [= <-]).
  constructor; [by exists qv, tv|by apply IH].
Qed.

(** X20: when [main] returns, the pose file has one line for every query
    of the retrieval file, in query order, with the name and the pose of
    the query's record in the log; the log has a record for every query
    and for nothing else; and the solver was called once for each query,
    in query order. *)
Theorem main_returns (env : Env) (dataset_dir retrieval features matches : string)
    (skip_matches : option Z) (lines : list pose_line)
    (loc : gmap string loc_record) :
  outcome (main env dataset_dir retrieval features matches skip_matches)
    = Ok (lines, loc) →
  Forall2 (λ q l, ∃ rec, loc !! q = Some rec ∧
                         l = PoseLine (basename q) (qvec (lr_pose rec))
                               (tvec (lr_pose rec)))
    (env_parse_retrieval env retrieval).*1 lines ∧
  (∀ q, is_Some (loc !! q) ↔ q ∈ (env_parse_retrieval env retrieval).*1) ∧
  (calls (main env dataset_dir retrieval features matches skip_matches)).*1
    = (env_parse_retrieval env retrieval).*1.
Proof.
  unfold main, py_assert.
  destruct (env_exists env retrieval); [|done].
  destruct (env_exists env features); [|done].
  destruct (env_exists env matches); [|done].
  rewrite !quiet_bind. intros Hmain. rewrite calls_bind.
  apply outcome_bind_Ok in Hmain as (ms & Hloop & Hmain). rewrite Hloop.
  apply outcome_bind_Ok in Hmain as (lines' & Hlines & Hmain).
  cbn in Hlines, Hmain. injection Hmain as -> <-.
  pose proof (λ H, main_loop_Ok _ _ _ _ _ _ _ _ H Hloop) as Hm.
  destruct Hm as (Hinv & Hdom & Hcalls).
  { intros q. cbn [fst snd]. by rewrite !lookup_empty. }
  split; [|split].
  - eapply Forall2_impl; [by apply write_all_Ok|].
    intros q l (qv & tv & Hq & ->). rewrite Hinv in Hq.
    destruct (ms.2 !! q) as [rec|]; [|done].
    cbn in Hq. injection Hq as <- <-. by exists rec.
  - intros q. rewrite Hdom. cbn [snd]. rewrite lookup_empty.
    split; [|by right]. intros [[? [=]]|?]; done.
  - rewrite calls_bind. cbn [quiet calls outcome]. rewrite Hlines. cbn.
    by rewrite !app_nil_r.
Qed.

Lemma main_returns_witness :
  match outcome (main ex_env_one ex_dir "pairs.txt" "feats.h5" "matches.h5"
                   None) with
  | Ok (lines, loc) =>
      Forall2 (λ q l, ∃ rec, loc !! q = Some rec ∧
                             l = PoseLine (basename q) (qvec (lr_pose rec))
                                   (tvec (lr_pose rec)))
        [ex_q] lines ∧
      (∀ q, is_Some (loc !! q) ↔ q ∈ [ex_q]) ∧
      (calls (main ex_env_one ex_dir "pairs.txt" "feats.h5" "matches.h5"
                None)).*1 = [ex_q]
  | Raise _ => False
  end.
Proof.
  destruct (outcome (main ex_env_one ex_dir "pairs.txt" "feats.h5"
                       "matches.h5" None)) as [[lines loc]|e] eqn:Hmain.
  - exact (main_returns ex_env_one ex_dir "pairs.txt" "feats.h5" "matches.h5"
             None lines loc Hmain).
  - assert (match outcome (main ex_env_one ex_dir "pairs.txt" "feats.h5"
                             "matches.h5" None) with
            | Ok _ => true
            | Raise _ => false
            end = true) as Hok by (vm_compute; reflexivity).
    rewrite Hmain in Hok. discriminate.
Defined.

(** ** What the solver is given *)

Lemma calls_bind_elem {A B : Type} (m : logged A) (k : A → logged B)
    (x : string * solver_call) :
  x ∈ calls (m ≫= k) →
  x ∈ calls m ∨ ∃ a, outcome m = Ok a ∧ x ∈ calls (k a).
Proof.
  rewrite calls_bind, elem_of_app. intros [?|Hx]; [by left|].
  destruct (outcome m) as [a|e]; [|by apply elem_of_nil in Hx].
  right. by exists a.
Qed.

Lemma pose_from_cluster_calls (env : Env) (dataset_dir q : string)
    feature_file match_file skip (retrieved : list string) (q' : string)
    (c : solver_call) :
  (q', c) ∈ calls (pose_from_cluster env dataset_dir q feature_file match_file
                     skip retrieved) →
  q' = q ∧
  ∃ height width kpq st,
    env_imread env (path_join dataset_dir q) = Some (height, width) ∧
    cluster_loop env dataset_dir q feature_file match_file skip kpq 0
      retrieved agg_empty = Ok st ∧
    c = cluster_call st height width.
Proof.
  destruct (env_imread env (path_join dataset_dir q)) as [[height width]|]
    eqn:Him; [|unfold pose_from_cluster; rewrite Him;
               by intros ?%elem_of_nil].
  destruct (feature_file q) as [kpq|] eqn:Hkpq;
    [|unfold pose_from_cluster;
      rewrite Him, lookup_or_Some, quiet_bind, Hkpq;
      by intros ?%elem_of_nil].
  destruct (cluster_loop env dataset_dir q feature_file match_file skip kpq 0
              retrieved agg_empty) as [st|e] eqn:Hloop;
    [|unfold pose_from_cluster;
      rewrite Him, lookup_or_Some, quiet_bind, Hkpq, lookup_or_Some,
        quiet_bind, Hloop;
      by intros ?%elem_of_nil].
  destruct (decide (all_mkpq st = [])) as [Hnil|Hne].
  { unfold pose_from_cluster.
    rewrite Him, lookup_or_Some, quiet_bind, Hkpq, lookup_or_Some,
      quiet_bind, Hloop, quiet_bind, Hnil.
    by intros ?%elem_of_nil. }
  rewrite (cluster_solve_step _ _ _ _ _ _ _ height width kpq st) by done.
  intros [Hc|(ret & _ & Hc)]%calls_bind_elem.
  - apply list_elem_of_singleton in Hc as [= -> ->].
    split; [done|]. by exists height, width, kpq, st.
  - by apply elem_of_nil in Hc.
Qed.

Lemma main_loop_calls (env : Env) (dataset_dir : string) feature_file
    match_file skip (dict : list (string * list string)) ms (q : string)
    (c : solver_call) :
  (q, c) ∈ calls (main_loop env dataset_dir feature_file match_file skip
                    dict ms) →
  ∃ db, (q, db) ∈ dict ∧
        (q, c) ∈ calls (pose_from_cluster env dataset_dir q feature_file
                          match_file skip db).
Proof.
  revert ms. induction dict as [|[q' db] rest IH]; intros ms.
  { by intros ?%elem_of_nil. }
  cbn [main_loop]. intros [Hc|(ms' & _ & Hc)]%calls_bind_elem.
  - unfold main_step in Hc.
    apply calls_bind_elem in Hc as [Hc|(res & _ & Hc)].
    + destruct (pose_from_cluster_calls _ _ _ _ _ _ _ _ _ Hc) as [-> _].
      exists db. split; [by apply elem_of_cons; left|done].
    + apply calls_bind_elem in Hc as [Hc|(p & _ & Hc)];
        by apply elem_of_nil in Hc.
  - destruct (IH _ Hc) as (db' & Hin & Hc').
    exists db'. split; [by apply elem_of_cons; right|done].
Qed.

Lemma onfly_calls_shape (env : Env) matcher (dataset_dir q : string)
    (skip_matches : Z) (retrieved : list string) (poses : pose_table)
    (rthres : f64) (q' : string) (c : solver_call) :
  (q', c) ∈ calls (pose_from_cluster_onfly_matching env matcher dataset_dir q
                     skip_matches retrieved poses rthres) →
  q' = q ∧
  ∃ height width,
    env_imread env (path_join dataset_dir q) = Some (height, width) ∧
    c = onfly_call (onfly_agg env matcher dataset_dir q skip_matches retrieved)
          height width rthres.
Proof.
  destruct (env_imread env (path_join dataset_dir q)) as [[height width]|]
    eqn:Him; [|rewrite onfly_no_image by done; by intros ?%elem_of_nil].
  destruct (decide (num_matches (onfly_agg env matcher dataset_dir q
                                   skip_matches retrieved) = 0)) as [Hz|Hnz].
  { rewrite (onfly_no_matches _ _ _ _ _ _ _ _ height width) by done.
    by intros ?%elem_of_nil. }
  rewrite (onfly_solve_step _ _ _ _ _ _ _ _ height width) by done.
  intros [Hc|(ret & _ & Hc)]%calls_bind_elem.
  - apply list_elem_of_singleton in Hc as [= -> ->].
    split; [done|]. by exists height, width.
  - apply calls_bind_elem in Hc as [Hc|(p & _ & Hc)];
      by apply elem_of_nil in Hc.
Qed.

Lemma localize_loop_calls_shape (env : Env) matcher (dataset_dir : string)
    (rthres : f64) (skip_matches : Z) (dict : list (string * list string))
    (st : run_state) (q : string) (c : solver_call) :
  (q, c) ∈ calls (localize_loop env matcher dataset_dir rthres skip_matches
                    dict st) →
  ∃ retrieved height width,
    (q, retrieved) ∈ dict ∧
    env_imread env (path_join dataset_dir q) = Some (height, width) ∧
    c = onfly_call (onfly_agg env matcher dataset_dir q skip_matches retrieved)
          height width rthres.
Proof.
  revert st. induction dict as [|[q' retrieved] rest IH]; intros st.
  { by intros ?%elem_of_nil. }
  cbn [localize_loop]. intros [Hc|(st' & _ & Hc)]%calls_bind_elem.
  - rewrite localize_step_calls in Hc.
    destruct (onfly_calls_shape _ _ _ _ _ _ _ _ _ _ Hc)
      as (-> & height & width & Him & ->).
    exists retrieved, height, width.
    split; [by apply elem_of_cons; left|done].
  - destruct (IH _ Hc) as (retrieved' & height & width & Hin & Him & ->).
    exists retrieved', height, width.
    split; [by apply elem_of_cons; right|done].
Qed.

Lemma agg_views_wf (i : nat) (vs : list (option view)) :
  Forall (from_option view_wf True) vs →
  length (concat (all_mkpq (agg_views i vs agg_empty))) =
  length (concat (all_mkp3d (agg_views i vs agg_empty))).
Proof.
  intros Hvs.
  destruct (agg_views_corrs i vs agg_empty agg_wf_empty Hvs)
    as [(H1 & _ & H3) _].
  by rewrite H1, H3.
Qed.

(** X21: every call of the solver, in either pipeline, is made for a
    query of the retrieval file, with as many 2D points as 3D points, with
    the camera built from the size of that query's image, and with the
    error threshold 48 in [main] and [rthres] in [localize_with_matcher]. *)
Theorem solver_calls_are_well_formed (env : Env) (dataset_dir : string)
    (q : string) (c : solver_call) :
  (∀ retrieval features matches skip_matches,
     (q, c) ∈ calls (main env dataset_dir retrieval features matches
                       skip_matches) →
     q ∈ (env_parse_retrieval env retrieval).*1 ∧
     length (sc_points2D c) = length (sc_points3D c) ∧
     sc_max_error c = f64_of_Z 48 ∧
     ∃ height width,
       env_imread env (path_join dataset_dir q) = Some (height, width) ∧
       sc_camera c = camera_cfg height width) ∧
  (∀ matcher rthres skip_matches retrieval_pairs,
     (q, c) ∈ calls (localize_with_matcher env matcher dataset_dir rthres
                       skip_matches retrieval_pairs) →
     q ∈ (env_parse_retrieval env retrieval_pairs).*1 ∧
     length (sc_points2D c) = length (sc_points3D c) ∧
     sc_max_error c = rthres ∧
     ∃ height width,
       env_imread env (path_join dataset_dir q) = Some (height, width) ∧
       sc_camera c = camera_cfg height width).
Proof.
  split.
  - intros retrieval features matches skip_matches. unfold main.
    intros [Hc|(_ & _ & Hc)]%calls_bind_elem; [by apply elem_of_nil in Hc|].
    apply calls_bind_elem in Hc as [Hc|(_ & _ & Hc)];
      [by apply elem_of_nil in Hc|].
    apply calls_bind_elem in Hc as [Hc|(_ & _ & Hc)];
      [by apply elem_of_nil in Hc|].
    apply calls_bind_elem in Hc as [Hc|(ms & _ & Hc)].
    + apply main_loop_calls in Hc as (db & Hin & Hc).
      apply pose_from_cluster_calls in Hc
        as (_ & height & width & kpq & st & Him & Hloop & ->).
      split; [apply list_elem_of_fmap; by exists (q, db)|].
      split; [|split; [done|by exists height, width]].
      apply cluster_loop_views in Hloop as (vs & Hvs & ->).
      cbn [cluster_call sc_points2D sc_points3D].
      apply agg_views_wf, Forall_forall. intros [v|] Hv; [|done]. cbn.
      apply list_elem_of_lookup_1 in Hv as [j Hj].
      destruct (Forall2_lookup_r _ _ _ _ _ Hvs Hj) as (r & Hr & Hview).
      by eapply cluster_view_wf.
    + apply calls_bind_elem in Hc as [Hc|(lines & _ & Hc)];
        by apply elem_of_nil in Hc.
  - intros matcher rthres skip_matches retrieval_pairs.
    unfold localize_with_matcher.
    intros [Hc|(st & _ & Hc)]%calls_bind_elem; [|by apply elem_of_nil in Hc].
    apply localize_loop_calls_shape in Hc
      as (retrieved & height & width & Hin & Him & ->).
    split; [apply list_elem_of_fmap; by exists (q, retrieved)|].
    split; [|split; [done|by exists height, width]].
    cbn [onfly_call sc_points2D sc_points3D]. unfold onfly_agg.
    rewrite onfly_loop_agg. apply agg_views_wf, onfly_kept_wf.
Qed.

Lemma solver_calls_are_well_formed_witness :
  ∃ c,
    (ex_q, c) ∈ calls (localize_with_matcher (ex_env_of shift_text) ex_matcher
                         ex_dir (f64_of_Z 48) 2 "pairs.txt") ∧
    ex_q ∈ [ex_q] ∧
    length (sc_points2D c) = length (sc_points3D c) ∧
    sc_max_error c = f64_of_Z 48.
Proof.
  assert (∃ c, (ex_q, c) ∈ calls (localize_with_matcher (ex_env_of shift_text)
                                    ex_matcher ex_dir (f64_of_Z 48) 2
                                    "pairs.txt")) as [c Hc].
  { eexists. vm_compute. constructor. }
  exists c. split; [done|].
  destruct (proj2 (solver_calls_are_well_formed (ex_env_of shift_text) ex_dir
                     ex_q c) ex_matcher (f64_of_Z 48) 2%Z "pairs.txt" Hc)
    as (H0 & H1 & H2 & _).
  split; [exact H0|]. split; [exact H1|exact H2].
Defined.
